(** * PDF form utilities: a shallow embedding and its verified properties

    The development follows the Python utilities under
    [builtin_skills/pdf/utils]:

    - [apply_text_overlays.py]   (glyph scan, font probe, coordinate
      mapping, the two overlay renderers),
    - [verify_form_layout.py]    (overlap and height validation),
    - [parse_form_structure.py]  (form element extraction and ordering),
    - [populate_interactive_form.py] (fill-value validation, filling and
      the workaround for choice fields),
    - [detect_interactive_fields.py] (the field detector),
    - [generate_preview_overlay.py] (the preview of a layout page),

    and the spreadsheet utility [builtin_skills/xlsx/formula_processor.py]
    (macro installation, the LibreOffice run and the error report).
    [render_pages_to_png.py] is left out: its result depends on the
    rounding of floating point products.

    Modelling conventions.

    - JSON / PDF numbers are exact rationals ([Q]); Python's binary
      floating point rounding is not modelled.  Page numbers are
      integers ([Z]).
    - Python strings that are only compared or printed are [string];
      the text scanned glyph by glyph is a list of Unicode code points.
    - A Python [dict] whose keys are optional becomes a record with
      [option] fields; a [dict] that is iterated becomes an association
      list in insertion order.
    - Exceptions (including [sys.exit]) are the [Raise] case of [result].
    - Human readable messages are kept as structured values: one
      constructor per f-string of the source, carrying the interpolated
      values.
    - What a run observes of the machine (files, installed fonts, the
      outcome of a subprocess, a loaded workbook) is a record of
      observations passed to the function. *)

From Stdlib Require Import String ZArith QArith Qfield Lqa Lia Bool List.
From Stdlib Require Import Sorting.Sorted Sorting.Permutation.
From Stdlib Require Import DecimalString.
Import ListNotations.

Set Implicit Arguments.

(** ** Exceptions and early exits *)

Inductive exn : Type :=
| KeyError
| IndexError
| StopIteration
| ZeroDivisionError
| AttributeError
| SystemExit (code : Z).

Inductive result (A : Type) : Type :=
| Ok (a : A)
| Raise (e : exn).

Arguments Ok {A} a.
Arguments Raise {A} e.

Definition bind {A B : Type} (r : result A) (k : A -> result B) : result B :=
  match r with
  | Ok a => k a
  | Raise e => Raise e
  end.

Declare Scope py_scope.
Delimit Scope py_scope with py.
Notation "x <- c ;; k" := (bind c (fun x => k))
  (at level 61, c at next level, right associativity) : py_scope.
Notation "' pat <- c ;; k" := (bind c (fun x => match x with pat => k end))
  (at level 61, pat pattern, c at next level, right associativity) : py_scope.

(** [d[k]] on a value that may be missing. *)
Definition getitem {A : Type} (o : option A) : result A :=
  match o with
  | Some a => Ok a
  | None => Raise KeyError
  end.

(** ** Numbers *)

Definition Qgeb (a b : Q) : bool := Qle_bool b a.
Definition Qleb (a b : Q) : bool := Qle_bool a b.
Definition Qltb (a b : Q) : bool := negb (Qle_bool b a).

(** Python's true division: [a / b] raises on a zero divisor. *)
Definition pydiv (a b : Q) : result Q :=
  if Qeq_bool b 0 then Raise ZeroDivisionError else Ok (a / b)%Q.

(** ** Boxes

    A box is the 4-element list of the layout file.  The components are
    named after their index; in the authoring layout (raster image
    space, y growing downward) index 0 is the left edge, 1 the top
    edge, 2 the right edge and 3 the bottom edge. *)

Record bbox : Type := Bbox { b0 : Q; b1 : Q; b2 : Q; b3 : Q }.

Definition left_of (b : bbox) : Q := b0 b.
Definition top_of (b : bbox) : Q := b1 b.
Definition right_of (b : bbox) : Q := b2 b.
Definition bottom_of (b : bbox) : Q := b3 b.

(** ** CoordinateMapper ([apply_text_overlays.py], lines 70-84) *)

Definition convert_image_to_pdf_coords
    (bbox : bbox) (img_width img_height pdf_width pdf_height : Q)
  : result (Q * Q * Q * Q) :=
  (x_scale <- pydiv pdf_width img_width ;;
   y_scale <- pydiv pdf_height img_height ;;
   let left := b0 bbox * x_scale in
   let right := b2 bbox * x_scale in
   let top := pdf_height - (b1 bbox * y_scale) in
   let bottom := pdf_height - (b3 bbox * y_scale) in
   Ok (left, bottom, right, top))%py%Q.

(** ** The authoring layout ([form_config.json]) *)

Record text_content : Type := TextContent {
  tc_content : option (list Z);       (* "content": code points *)
  tc_font : option string;            (* "font" *)
  tc_text_size : option Q;            (* "text_size" *)
  tc_text_color : option string       (* "text_color" *)
}.

Record field_entry : Type := FieldEntry {
  fe_description : string;
  fe_page_num : Z;
  fe_label_bounds : bbox;
  fe_entry_bounds : bbox;
  fe_text_content : option text_content
}.

Record page_dimension : Type := PageDimension {
  pd_page_num : Z;
  pd_img_width : Q;
  pd_img_height : Q
}.

Record config : Type := Config {
  field_entries : list field_entry;
  page_dimensions : list page_dimension
}.

(** ** LayoutValidator ([verify_form_layout.py]) *)

Inductive bounds_type : Type := BLabel | BEntry.

(** [entry_ix] is the position of the entry in [field_entries]; it
    stands for the identity of the entry object, which the source tests
    with [is]. *)
Record BoundsAndEntry : Type := MkBoundsAndEntry {
  bounds : bbox;
  btype : bounds_type;
  entry_ix : nat;
  entry : field_entry
}.

Inductive message : Type :=
| MsgRead (n : nat)
| MsgOverlapSame (description : string) (bi bj : bbox)
| MsgOverlapOther (di : string) (ti : bounds_type) (bi : bbox)
                  (dj : string) (tj : bounds_type) (bj : bbox)
| MsgHeight (description : string) (entry_height text_size : Q)
| MsgAbort
| MsgSuccess.

Definition bounds_overlap (b1' b2' : bbox) : bool :=
  let no_horizontal_overlap :=
    Qgeb (b0 b1') (b2 b2') || Qleb (b2 b1') (b0 b2') in
  let no_vertical_overlap :=
    Qgeb (b1 b1') (b3 b2') || Qleb (b3 b1') (b1 b2') in
  negb (no_horizontal_overlap || no_vertical_overlap).

Fixpoint build_bounds_list (ix : nat) (entries : list field_entry)
  : list BoundsAndEntry :=
  match entries with
  | [] => []
  | e :: rest =>
      MkBoundsAndEntry (fe_label_bounds e) BLabel ix e
      :: MkBoundsAndEntry (fe_entry_bounds e) BEntry ix e
      :: build_bounds_list (S ix) rest
  end.

(** State of the validation loops: the message list and [found_error]. *)
Definition vstate : Type := (list message * bool)%type.

(** A loop body either falls through with a new state or executes
    [return messages]. *)
Inductive flow : Type :=
| Continue (st : vstate)
| Return (messages : list message).

(** [found_error = True; messages.append(msg)] followed by the cap test
    [if len(messages) >= 20: messages.append(abort); return messages]. *)
Definition report (msg : message) (st : vstate) : flow :=
  let messages := fst st ++ [msg] in
  if (20 <=? length messages)%nat
  then Return (messages ++ [MsgAbort])
  else Continue (messages, true).

Definition same_entry (bi bj : BoundsAndEntry) : bool :=
  Nat.eqb (entry_ix bi) (entry_ix bj).

Definition overlap_hit (bi bj : BoundsAndEntry) : bool :=
  Z.eqb (fe_page_num (entry bi)) (fe_page_num (entry bj))
  && bounds_overlap (bounds bi) (bounds bj).

Definition overlap_message (bi bj : BoundsAndEntry) : message :=
  if same_entry bi bj
  then MsgOverlapSame (fe_description (entry bi)) (bounds bi) (bounds bj)
  else MsgOverlapOther (fe_description (entry bi)) (btype bi) (bounds bi)
                       (fe_description (entry bj)) (btype bj) (bounds bj).

(** The inner loop [for j in range(i + 1, len(bounds_list))]. *)
Fixpoint check_pairs (bi : BoundsAndEntry) (rest : list BoundsAndEntry)
    (st : vstate) : flow :=
  match rest with
  | [] => Continue st
  | bj :: rest' =>
      if overlap_hit bi bj
      then match report (overlap_message bi bj) st with
           | Continue st' => check_pairs bi rest' st'
           | Return m => Return m
           end
      else check_pairs bi rest' st
  end.

(** [text_content.get("text_size", 14)] *)
Definition text_size_or_default (tc : text_content) : Q :=
  match tc_text_size tc with
  | Some s => s
  | None => 14
  end.

(** The height check that follows the inner loop. *)
Definition check_height (bi : BoundsAndEntry) (st : vstate) : flow :=
  match btype bi with
  | BEntry =>
      match fe_text_content (entry bi) with
      | Some tc =>
          let text_size := text_size_or_default tc in
          let entry_height := (b3 (bounds bi) - b1 (bounds bi))%Q in
          if Qltb entry_height text_size
          then report (MsgHeight (fe_description (entry bi))
                                 entry_height text_size) st
          else Continue st
      | None => Continue st
      end
  | BLabel => Continue st
  end.

(** The outer loop [for i, bi in enumerate(bounds_list)]. *)
Fixpoint check_all (l : list BoundsAndEntry) (st : vstate) : flow :=
  match l with
  | [] => Continue st
  | bi :: rest =>
      match check_pairs bi rest st with
      | Return m => Return m
      | Continue st1 =>
          match check_height bi st1 with
          | Return m => Return m
          | Continue st2 => check_all rest st2
          end
      end
  end.

Definition validate_form_layout (cfg : config) : list message :=
  let messages := [MsgRead (length (field_entries cfg))] in
  let bounds_list := build_bounds_list 0 (field_entries cfg) in
  match check_all bounds_list (messages, false) with
  | Return m => m
  | Continue (messages', found_error) =>
      if negb found_error
      then messages' ++ [MsgSuccess]
      else messages'
  end.

(** ** OverlayRenderer ([apply_text_overlays.py]) *)

(** The font table, in the insertion order of the source dictionary. *)
Definition CJK_FONT_PATHS : list (string * string) :=
  [ ("/System/Library/Fonts/PingFang.ttc", "PingFang");
    ("/System/Library/Fonts/STHeiti Light.ttc", "STHeiti");
    ("/Library/Fonts/Arial Unicode.ttf", "ArialUnicode");
    ("C:/Windows/Fonts/msyh.ttc", "MicrosoftYaHei");
    ("C:/Windows/Fonts/simsun.ttc", "SimSun");
    ("C:/Windows/Fonts/simhei.ttf", "SimHei");
    ("/usr/share/fonts/truetype/droid/DroidSansFallbackFull.ttf",
     "DroidSansFallback");
    ("/usr/share/fonts/opentype/noto/NotoSansCJK-Regular.ttc", "NotoSansCJK");
    ("/usr/share/fonts/truetype/wqy/wqy-zenhei.ttc", "WenQuanYi") ]%string.

(** What the run observes of the machine and of reportlab. *)
Record platform : Type := Platform {
  path_exists : string -> bool;           (* os.path.exists(path) *)
  register_ok : string -> string -> bool; (* registerFont(TTFont(name, path))
                                             returns without raising *)
  font_known : string -> bool;            (* c.setFont(name, _) does not raise *)
  hex_ok : string -> bool                 (* HexColor("#" + s) does not raise *)
}.

(** Lines written to standard output. *)
Inductive line : Type :=
| LRegisterWarning (font_name : string)
| LUsingFont (font_name : string)
| LErrNoFont
| LBoxes
| LBlank
| LInstallHint
| LHintMac
| LHintWindows
| LHintLinux
| LSupportedPaths
| LFontPath (path name : string)
| LSaved
| LCountAnnotations (n : nat)
| LCountEmbedded (n : nat).

Definition in_range (lo hi code : Z) : bool :=
  (lo <=? code)%Z && (code <=? hi)%Z.

Definition is_cjk_code (code : Z) : bool :=
  in_range 0x4E00 0x9FFF code
  || in_range 0x3400 0x4DBF code
  || in_range 0x3000 0x303F code
  || in_range 0xFF00 0xFFEF code
  || in_range 0x3040 0x309F code
  || in_range 0x30A0 0x30FF code
  || in_range 0xAC00 0xD7AF code.

Fixpoint has_cjk_characters (text : list Z) : bool :=
  match text with
  | [] => false
  | code :: rest => if is_cjk_code code then true else has_cjk_characters rest
  end.

Fixpoint find_in_table (env : platform) (table : list (string * string))
  : option (string * string) :=
  match table with
  | [] => None
  | (font_path, font_name) :: rest =>
      if path_exists env font_path
      then Some (font_path, font_name)
      else find_in_table env rest
  end.

Definition find_cjk_font (env : platform) : option (string * string) :=
  find_in_table env CJK_FONT_PATHS.

(** Truthiness of a Python string. *)
Definition nonempty (s : string) : bool :=
  match s with
  | EmptyString => false
  | _ => true
  end.

Definition register_cjk_font (env : platform) : list line * option string :=
  match find_cjk_font env with
  | Some (font_path, font_name) =>
      if nonempty font_path
      then if register_ok env font_name font_path
           then ([], Some font_name)
           else ([LRegisterWarning font_name], None)
      else ([], None)
  | None => ([], None)
  end.

(** The in-memory [PdfWriter]: per page, the free-text annotations
    attached to it and the overlay pages merged into it. *)
Record free_text : Type := FreeText {
  ft_text : list Z;
  ft_rect : Q * Q * Q * Q;
  ft_font : string;
  ft_font_size_pt : Q;                    (* str(size) + "pt" *)
  ft_font_color : string
}.

Record draw : Type := DrawString {
  ds_font : string;
  ds_size : Q;
  ds_color : string;
  ds_x : Q;
  ds_y : Q;
  ds_text : list Z
}.

Record out_page : Type := OutPage {
  op_annotations : list free_text;
  op_merged : list (list draw)
}.

Definition writer : Type := list out_page.

(** [reader.pages], reduced to the media box (width, height). *)
Definition reader_pages : Type := list (Q * Q).

Definition copy_pages (reader : reader_pages) : writer :=
  map (fun _ => OutPage [] []) reader.

(** [pdf_dims[page_num]]: the keys are [1 .. len(reader.pages)]. *)
Definition pdf_dims_get (reader : reader_pages) (page_num : Z)
  : result (Q * Q) :=
  if (1 <=? page_num)%Z
  then getitem (nth_error reader (Z.to_nat (page_num - 1)))
  else Raise KeyError.

(** [next(p for p in config["page_dimensions"] if p["page_num"] == page_num)] *)
Fixpoint next_page_info (dims : list page_dimension) (page_num : Z)
  : result page_dimension :=
  match dims with
  | [] => Raise StopIteration
  | p :: rest =>
      if (pd_page_num p =? page_num)%Z then Ok p else next_page_info rest page_num
  end.

(** In-place update of [l[ix]]; a Python list index out of range raises. *)
Fixpoint list_update {A : Type} (l : list A) (ix : nat) (f : A -> A)
  : result (list A) :=
  match l, ix with
  | [], _ => Raise IndexError
  | p :: rest, O => Ok (f p :: rest)
  | p :: rest, S ix' =>
      (rest' <- list_update rest ix' f ;; Ok (p :: rest'))%py
  end.

(** Python list indexing: a negative index counts from the end. *)
Definition py_index {A : Type} (l : list A) (i : Z) : result nat :=
  if (i <? 0)%Z
  then (if (0 <=? i + Z.of_nat (length l))%Z
        then Ok (Z.to_nat (i + Z.of_nat (length l)))
        else Raise IndexError)
  else Ok (Z.to_nat i).

Definition add_annotation (w : writer) (page_number : Z) (a : free_text)
  : result writer :=
  (ix <- py_index w page_number ;;
   list_update w ix
     (fun p => OutPage (op_annotations p ++ [a]) (op_merged p)))%py.

Definition merge_page (w : writer) (page_number : Z) (overlay : list draw)
  : result writer :=
  (ix <- py_index w page_number ;;
   list_update w ix
     (fun p => OutPage (op_annotations p) (op_merged p ++ [overlay])))%py.

Definition from_option {A : Type} (o : option A) (default : A) : A :=
  match o with
  | Some a => a
  | None => default
  end.

(** ["text_content" in entry and "content" in entry["text_content"]],
    giving the content when both hold. *)
Definition entry_content (e : field_entry) : option (list Z) :=
  match fe_text_content e with
  | Some tc => tc_content tc
  | None => None
  end.

(** The scan that sets [has_cjk] (lines 108-113). *)
Fixpoint scan_has_cjk (entries : list field_entry) : bool :=
  match entries with
  | [] => false
  | e :: rest =>
      match entry_content e with
      | Some content =>
          if has_cjk_characters content then true else scan_has_cjk rest
      | None => scan_has_cjk rest
      end
  end.

(** The loop of the annotation strategy (lines 139-180). *)
Fixpoint annotate_entries (reader : reader_pages) (cfg : config)
    (entries : list field_entry) (w : writer) (count : nat)
  : result (writer * nat) :=
  match entries with
  | [] => Ok (w, count)
  | e :: rest =>
      let page_num := fe_page_num e in
      (page_info <- next_page_info (page_dimensions cfg) page_num ;;
       '(pdf_width, pdf_height) <- pdf_dims_get reader page_num ;;
       transformed_bounds <-
         convert_image_to_pdf_coords (fe_entry_bounds e)
           (pd_img_width page_info) (pd_img_height page_info)
           pdf_width pdf_height ;;
       match fe_text_content e with
       | None => annotate_entries reader cfg rest w count
       | Some tc =>
           match tc_content tc with
           | None => annotate_entries reader cfg rest w count
           | Some [] => annotate_entries reader cfg rest w count
           | Some content =>
               let annotation :=
                 FreeText content transformed_bounds
                   (from_option (tc_font tc) "Arial"%string)
                   (from_option (tc_text_size tc) 14%Q)
                   (from_option (tc_text_color tc) "000000"%string) in
               w' <- add_annotation w (page_num - 1) annotation ;;
               annotate_entries reader cfg rest w' (S count)
           end
       end)%py
  end.

Definition annotation_strategy (reader : reader_pages) (cfg : config)
  : list line * result writer :=
  match annotate_entries reader cfg (field_entries cfg)
          (copy_pages reader) 0 with
  | Ok (w, count) => ([LSaved; LCountAnnotations count], Ok w)
  | Raise e => ([], Raise e)
  end.

(** [entries_by_page], keyed by page number in first-seen order. *)
Fixpoint group_add (page_num : Z) (e : field_entry)
    (d : list (Z * list field_entry)) : list (Z * list field_entry) :=
  match d with
  | [] => [(page_num, [e])]
  | (p, es) :: d' =>
      if (p =? page_num)%Z
      then (p, es ++ [e]) :: d'
      else (p, es) :: group_add page_num e d'
  end.

Fixpoint group_entries (entries : list field_entry)
    (d : list (Z * list field_entry)) : list (Z * list field_entry) :=
  match entries with
  | [] => d
  | e :: rest =>
      match entry_content e with
      | Some (_ :: _) => group_entries rest (group_add (fe_page_num e) e d)
      | _ => group_entries rest d
      end
  end.

(** The drawing loop of one overlay canvas (lines 220-250). *)
Fixpoint draw_entries (env : platform) (cjk_font_name : string)
    (img_width img_height pdf_width pdf_height : Q)
    (entries : list field_entry) (canvas : list draw)
  : result (list draw) :=
  match entries with
  | [] => Ok canvas
  | e :: rest =>
      (text_content <- getitem (fe_text_content e) ;;
       content <- getitem (tc_content text_content) ;;
       let text_size := from_option (tc_text_size text_content) 14%Q in
       let text_color :=
         from_option (tc_text_color text_content) "000000"%string in
       '(x_left, y_bottom, _, _) <-
         convert_image_to_pdf_coords (fe_entry_bounds e)
           img_width img_height pdf_width pdf_height ;;
       let font :=
         if has_cjk_characters content
         then cjk_font_name
         else let requested :=
                from_option (tc_font text_content) "Helvetica"%string in
              if font_known env requested
              then requested
              else "Helvetica"%string in
       let color :=
         if hex_ok env text_color then text_color else "000000"%string in
       draw_entries env cjk_font_name
         img_width img_height pdf_width pdf_height rest
         (canvas ++ [DrawString font text_size color x_left y_bottom content]))%py
  end.

(** The loop over [entries_by_page.items()] (lines 207-262). *)
Fixpoint overlay_pages (env : platform) (cjk_font_name : string)
    (reader : reader_pages) (cfg : config)
    (groups : list (Z * list field_entry)) (w : writer) (total : nat)
  : result (writer * nat) :=
  match groups with
  | [] => Ok (w, total)
  | (page_num, entries) :: rest =>
      ('(pdf_width, pdf_height) <- pdf_dims_get reader page_num ;;
       page_info <- next_page_info (page_dimensions cfg) page_num ;;
       canvas <-
         draw_entries env cjk_font_name
           (pd_img_width page_info) (pd_img_height page_info)
           pdf_width pdf_height entries [] ;;
       w' <- merge_page w (page_num - 1) canvas ;;
       overlay_pages env cjk_font_name reader cfg rest w'
         (total + length entries))%py
  end.

Definition apply_text_overlays_with_reportlab (env : platform)
    (reader : reader_pages) (w : writer) (cfg : config)
    (cjk_font_name : string) : list line * result writer :=
  let entries_by_page := group_entries (field_entries cfg) [] in
  match overlay_pages env cjk_font_name reader cfg entries_by_page w 0 with
  | Ok (w', total_overlays) => ([LSaved; LCountEmbedded total_overlays], Ok w')
  | Raise e => ([], Raise e)
  end.

Definition fatal_guidance : list line :=
  [LErrNoFont; LBoxes; LBlank; LInstallHint; LHintMac; LHintWindows;
   LHintLinux; LBlank; LSupportedPaths]
  ++ map (fun pn => LFontPath (fst pn) (snd pn)) CJK_FONT_PATHS.

(** The block guarded by [if has_cjk:] (lines 116-136). *)
Definition embedded_glyph_strategy (env : platform) (reader : reader_pages)
    (cfg : config) : list line * result writer :=
  let '(warnings, registered) := register_cjk_font env in
  match registered with
  | Some cjk_font_name =>
      if nonempty cjk_font_name
      then
        let '(out, r) :=
          apply_text_overlays_with_reportlab env reader (copy_pages reader)
            cfg cjk_font_name in
        (warnings ++ [LUsingFont cjk_font_name] ++ out, r)
      else (warnings ++ fatal_guidance, Raise (SystemExit 1))
  | None => (warnings ++ fatal_guidance, Raise (SystemExit 1))
  end.

(** [apply_text_overlays]: the standard output of the run, and either
    the document written to [output_pdf_path] or the exception that
    ended the run before anything was written. *)
Definition apply_text_overlays (env : platform) (reader : reader_pages)
    (cfg : config) : list line * result writer :=
  if scan_has_cjk (field_entries cfg)
  then embedded_glyph_strategy env reader cfg
  else annotation_strategy reader cfg.

(** ** Insertion-ordered dictionaries *)

Section Dict.
Variables (K V : Type) (eqb : K -> K -> bool).

Definition dict : Type := list (K * V).

Fixpoint dict_get (d : dict) (k : K) : option V :=
  match d with
  | [] => None
  | (k', v) :: d' => if eqb k' k then Some v else dict_get d' k
  end.

(** [d[k] = v]: an existing key keeps its position. *)
Fixpoint dict_set (d : dict) (k : K) (v : V) : dict :=
  match d with
  | [] => [(k, v)]
  | (k', v') :: d' =>
      if eqb k' k then (k', v) :: d' else (k', v') :: dict_set d' k v
  end.

Definition dict_mem (d : dict) (k : K) : bool :=
  match dict_get d k with
  | Some _ => true
  | None => false
  end.

Definition dict_values (d : dict) : list V := map snd d.
End Dict.

(** ** FieldModelExtractor ([parse_form_structure.py]) *)

(** A dictionary of the field tree as an annotation sees it through
    its [/Parent] chain: the partial name [/T] and the parent. *)
#[warnings="-register-all"]
Inductive node : Type :=
| Node (T : option string) (Parent : option node).

Record annotation : Type := Annotation {
  ann_T : option string;                  (* /T *)
  ann_Parent : option node;               (* /Parent *)
  ann_Rect : option bbox;                 (* /Rect *)
  ann_AP_N : option (list string)         (* keys of ann["/AP"]["/N"];
                                             None when a key is missing *)
}.

(** A field as returned by [reader.get_fields()].  The key [/_States_]
    holds names for a button field and [value, label] pairs for a
    choice field; the two views are kept apart. *)
Record field : Type := Field {
  fld_FT : option string;                 (* /FT *)
  fld_Kids : bool;                        (* truthiness of /Kids *)
  fld_States : option (list string);      (* /_States_ of a /Btn field *)
  fld_Opt : option (list (string * string)) (* /_States_ of a /Ch field *)
}.

Record pdf_reader : Type := PdfReader {
  get_fields : option (list (string * field));
  pages : list (list annotation)
}.

Inductive element_type : Type :=
| text_input
| toggle_box
| option_group
| dropdown
| unknown (field_type : option string).

Record menu_item : Type := MenuItem {
  mi_option_value : string;
  mi_display_text : string
}.

Record group_option : Type := GroupOption {
  go_option_value : string;
  go_bounds : option bbox
}.

(** An element dictionary; [None] is a key that is absent (for
    [el_bounds] also a key bound to [None], which the source treats
    alike). *)
Record element : Type := Element {
  el_element_id : string;
  el_element_type : element_type;
  el_page_num : option Z;
  el_bounds : option bbox;
  el_on_value : option string;
  el_off_value : option string;
  el_menu_items : option (list menu_item);
  el_available_options : option (list group_option)
}.

Fixpoint parent_names (n : node) : list string :=
  match n with
  | Node T Parent =>
      (match T with
       | Some name => if nonempty name then [name] else []
       | None => []
       end)
      ++ (match Parent with
          | Some p => parent_names p
          | None => []
          end)
  end.

Definition build_complete_element_id (ann : annotation) : option string :=
  let parts := parent_names (Node (ann_T ann) (ann_Parent ann)) in
  match parts with
  | [] => None
  | _ => Some (String.concat "." (rev parts))
  end.

Definition str_in (s : string) (l : list string) : bool :=
  existsb (String.eqb s) l.

(** [field.get(key) == s] *)
Definition opt_str_eqb (o : option string) (s : string) : bool :=
  match o with
  | Some x => String.eqb x s
  | None => false
  end.

Definition build_element_dict (fld : field) (element_id : string) : element :=
  let base ty := Element element_id ty None None None None None None in
  let field_type := fld_FT fld in
  if opt_str_eqb field_type "/Tx" then base text_input
  else if opt_str_eqb field_type "/Btn" then
    let available_states := from_option (fld_States fld) [] in
    match available_states with
    | [s0; s1] =>
        if str_in "/Off" available_states
        then Element element_id toggle_box None None
               (Some (if negb (String.eqb s0 "/Off") then s0 else s1))
               (Some "/Off"%string) None None
        else Element element_id toggle_box None None
               (Some s0) (Some s1) None None
    | _ => base toggle_box
    end
  else if opt_str_eqb field_type "/Ch" then
    let available_states := from_option (fld_Opt fld) [] in
    Element element_id dropdown None None None None
      (Some (map (fun state => MenuItem (fst state) (snd state))
                 available_states))
      None
  else base (unknown field_type).

(** The first loop of [parse_form_elements]: leaf elements and the ids
    of candidate option-group containers. *)
Fixpoint collect_fields (fields : list (string * field))
    (elements_by_id : dict string element)
    (potential_option_groups : list string)
  : dict string element * list string :=
  match fields with
  | [] => (elements_by_id, potential_option_groups)
  | (element_id, fld) :: rest =>
      if fld_Kids fld
      then if opt_str_eqb (fld_FT fld) "/Btn"
           then collect_fields rest elements_by_id
                  (potential_option_groups ++ [element_id])
           else collect_fields rest elements_by_id potential_option_groups
      else collect_fields rest
             (dict_set String.eqb elements_by_id element_id
                (build_element_dict fld element_id))
             potential_option_groups
  end.

Definition set_location (e : element) (page_num : Z) (rect : option bbox)
  : element :=
  Element (el_element_id e) (el_element_type e) (Some page_num) rect
    (el_on_value e) (el_off_value e) (el_menu_items e)
    (el_available_options e).

Definition append_option (e : element) (o : group_option) : element :=
  Element (el_element_id e) (el_element_type e) (el_page_num e) (el_bounds e)
    (el_on_value e) (el_off_value e) (el_menu_items e)
    (Some (from_option (el_available_options e) [] ++ [o])).

Definition new_option_group (element_id : string) (page_num : Z) : element :=
  Element element_id option_group (Some page_num) None None None None
    (Some []).

Definition extract_state : Type :=
  (dict string element * dict string element)%type.

(** The body of [for ann in annotations] on page [page_idx]. *)
Definition visit_annotation (potential_option_groups : list string)
    (page_idx : nat) (ann : annotation) (st : extract_state)
  : extract_state :=
  let '(elements_by_id, option_groups_by_id) := st in
  let page_num := (Z.of_nat page_idx + 1)%Z in
  match build_complete_element_id ann with
  | None => st
  | Some element_id =>
      match dict_get String.eqb elements_by_id element_id with
      | Some e =>
          (dict_set String.eqb elements_by_id element_id
             (set_location e page_num (ann_Rect ann)),
           option_groups_by_id)
      | None =>
          if str_in element_id potential_option_groups
          then match ann_AP_N ann with
               | None => st
               | Some names =>
                   let active_values :=
                     filter (fun v => negb (String.eqb v "/Off")) names in
                   match active_values with
                   | [active] =>
                       let group :=
                         match dict_get String.eqb option_groups_by_id
                                 element_id with
                         | Some g => g
                         | None => new_option_group element_id page_num
                         end in
                       (elements_by_id,
                        dict_set String.eqb option_groups_by_id element_id
                          (append_option group
                             (GroupOption active (ann_Rect ann))))
                   | _ => st
                   end
               end
          else st
      end
  end.

Fixpoint visit_pages (potential_option_groups : list string)
    (page_idx : nat) (pgs : list (list annotation)) (st : extract_state)
  : extract_state :=
  match pgs with
  | [] => st
  | annotations :: rest =>
      visit_pages potential_option_groups (S page_idx) rest
        (fold_left (fun s ann =>
                      visit_annotation potential_option_groups page_idx ann s)
                   annotations st)
  end.

(** Elements that received a location, in dictionary order. *)
Definition elements_with_location (elements_by_id : dict string element)
  : list element :=
  filter (fun e => match el_page_num e with Some _ => true | None => false end)
         (dict_values elements_by_id).

(** The sort key [[page_num, [-bounds[1], bounds[0]]]]. *)
Definition key : Type := (Z * (Q * Q))%type.

Definition zero_box : bbox := Bbox 0 0 0 0.

Definition sort_key (elem : element) : result key :=
  (b <- match el_available_options elem with
        | Some opts =>
            first <- match opts with
                     | o :: _ => Ok o
                     | [] => Raise IndexError
                     end ;;
            Ok (from_option (go_bounds first) zero_box)
        | None => Ok (from_option (el_bounds elem) zero_box)
        end ;;
   page_num <- getitem (el_page_num elem) ;;
   Ok (page_num, (- b1 b, b0 b)%Q))%py.

(** Python's [<] on two such keys: lists compare by their first
    unequal position. *)
Definition key_lt (k1 k2 : key) : bool :=
  let '(p1, (y1, x1)) := k1 in
  let '(p2, (y2, x2)) := k2 in
  if negb (p1 =? p2)%Z then (p1 <? p2)%Z
  else if negb (Qeq_bool y1 y2) then Qltb y1 y2
  else if negb (Qeq_bool x1 x2) then Qltb x1 x2
  else false.

(** [list.sort(key=...)] computes every key first and then sorts
    stably, comparing keys with [<] only.  The stable insertion sort
    below yields the same list. *)
Fixpoint decorate (l : list element) : result (list (key * element)) :=
  match l with
  | [] => Ok []
  | e :: rest =>
      (k <- sort_key e ;;
       rest' <- decorate rest ;;
       Ok ((k, e) :: rest'))%py
  end.

Fixpoint insert_sorted (x : key * element) (l : list (key * element))
  : list (key * element) :=
  match l with
  | [] => [x]
  | y :: l' =>
      if key_lt (fst y) (fst x)
      then y :: insert_sorted x l'
      else x :: y :: l'
  end.

Fixpoint stable_sort (l : list (key * element)) : list (key * element) :=
  match l with
  | [] => []
  | x :: l' => insert_sorted x (stable_sort l')
  end.

Definition sort_elements (l : list element) : result (list element) :=
  (decorated <- decorate l ;;
   Ok (map snd (stable_sort decorated)))%py.

(** [elements_with_location + list(option_groups_by_id.values())], the
    list handed to the sort. *)
Definition merged_elements (fields : list (string * field))
    (pgs : list (list annotation)) : list element :=
  let '(elements_by_id, potential_option_groups) :=
    collect_fields fields [] [] in
  let '(elements_by_id', option_groups_by_id) :=
    visit_pages potential_option_groups 0 pgs (elements_by_id, []) in
  elements_with_location elements_by_id' ++ dict_values option_groups_by_id.

(** [parse_form_elements]; the warnings it prints are not modelled. *)
Definition parse_form_elements (reader : pdf_reader) : result (list element) :=
  match get_fields reader with
  | None => Raise AttributeError            (* None has no [items] *)
  | Some fields => sort_elements (merged_elements fields (pages reader))
  end.

(** ** FormFiller ([populate_interactive_form.py]) *)

Inductive diagnostic : Type :=
| DiagToggle (element_id fill_value on_val off_val : string)
| DiagOptionGroup (element_id fill_value : string) (valid_values : list string)
| DiagDropdown (element_id fill_value : string) (menu_values : list string)
| DiagUnknownId (element_id : string)
| DiagWrongPage (element_id : string) (got expected : Z).

Definition validate_element_value (element_info : element)
    (fill_value : string) : result (option diagnostic) :=
  let element_type := el_element_type element_info in
  let element_id := el_element_id element_info in
  match element_type with
  | toggle_box =>
      (on_val <- getitem (el_on_value element_info) ;;
       off_val <- getitem (el_off_value element_info) ;;
       if negb (String.eqb fill_value on_val)
          && negb (String.eqb fill_value off_val)
       then Ok (Some (DiagToggle element_id fill_value on_val off_val))
       else Ok None)%py
  | option_group =>
      (options <- getitem (el_available_options element_info) ;;
       let valid_values := map go_option_value options in
       if negb (str_in fill_value valid_values)
       then Ok (Some (DiagOptionGroup element_id fill_value valid_values))
       else Ok None)%py
  | dropdown =>
      (items <- getitem (el_menu_items element_info) ;;
       let menu_values := map mi_option_value items in
       if negb (str_in fill_value menu_values)
       then Ok (Some (DiagDropdown element_id fill_value menu_values))
       else Ok None)%py
  | _ => Ok None
  end.

Record instruction : Type := Instruction {
  in_element_id : string;
  in_page_num : Z;
  in_fill_value : option string
}.

(** The grouping loop: [data_by_page[page_num][element_id] = fill_value]. *)
Fixpoint group_by_page (form_data : list instruction)
    (data_by_page : dict Z (dict string string))
  : dict Z (dict string string) :=
  match form_data with
  | [] => data_by_page
  | entry :: rest =>
      match in_fill_value entry with
      | Some fill_value =>
          let page_num := in_page_num entry in
          let field_values :=
            from_option (dict_get Z.eqb data_by_page page_num) [] in
          group_by_page rest
            (dict_set Z.eqb data_by_page page_num
               (dict_set String.eqb field_values
                  (in_element_id entry) fill_value))
      | None => group_by_page rest data_by_page
      end
  end.

(** [{e["element_id"]: e for e in elements}] *)
Definition index_by_id (elements : list element) : dict string element :=
  fold_left (fun d e => dict_set String.eqb d (el_element_id e) e)
            elements [].

(** The checking loop; it returns what was printed and [has_errors]. *)
Fixpoint check_instructions (elements_by_id : dict string element)
    (form_data : list instruction) (printed : list diagnostic)
    (has_errors : bool) : list diagnostic * result bool :=
  match form_data with
  | [] => (printed, Ok has_errors)
  | entry :: rest =>
      match dict_get String.eqb elements_by_id (in_element_id entry) with
      | None =>
          check_instructions elements_by_id rest
            (printed ++ [DiagUnknownId (in_element_id entry)]) true
      | Some existing_element =>
          match el_page_num existing_element with
          | None => (printed, Raise KeyError)
          | Some expected =>
              if negb (in_page_num entry =? expected)%Z
              then check_instructions elements_by_id rest
                     (printed ++ [DiagWrongPage (in_element_id entry)
                                    (in_page_num entry) expected]) true
              else
                match in_fill_value entry with
                | None =>
                    check_instructions elements_by_id rest printed has_errors
                | Some fill_value =>
                    match validate_element_value existing_element
                            fill_value with
                    | Raise e => (printed, Raise e)
                    | Ok (Some err) =>
                        check_instructions elements_by_id rest
                          (printed ++ [err]) true
                    | Ok None =>
                        check_instructions elements_by_id rest printed
                          has_errors
                    end
                end
          end
      end
  end.

(** The document being filled: per page, each annotation with the
    value of its field ([/V]), and the [/NeedAppearances] flag. *)
Record form_writer : Type := FormWriter {
  fw_pages : list (list (annotation * option string));
  fw_need_appearances : bool
}.

Definition clone_from (reader : pdf_reader) : form_writer :=
  FormWriter (map (map (fun ann => (ann, None))) (pages reader)) false.

(** The library call [update_page_form_field_values(page, fields)]:
    every annotation of the page whose qualified name is a key of
    [fields] receives the value. *)
Definition update_page_form_field_values
    (page : list (annotation * option string))
    (field_values : dict string string)
  : list (annotation * option string) :=
  map (fun av =>
         match build_complete_element_id (fst av) with
         | Some id =>
             match dict_get String.eqb field_values id with
             | Some v => (fst av, Some v)
             | None => av
             end
         | None => av
         end) page.

Fixpoint write_pages (data_by_page : dict Z (dict string string))
    (w : form_writer) : result form_writer :=
  match data_by_page with
  | [] => Ok w
  | (page_num, field_values) :: rest =>
      (ix <- py_index (fw_pages w) (page_num - 1) ;;
       pages' <- list_update (fw_pages w) ix
                   (fun page => update_page_form_field_values page
                                  field_values) ;;
       write_pages rest (FormWriter pages' (fw_need_appearances w)))%py
  end.

(** [populate_form_fields]: what was printed, and either the document
    written to [output_pdf_path] or the exception that ended the run. *)
Definition populate_form_fields (reader : pdf_reader)
    (form_data : list instruction) : list diagnostic * result form_writer :=
  let data_by_page := group_by_page form_data [] in
  match parse_form_elements reader with
  | Raise e => ([], Raise e)
  | Ok elements =>
      let elements_by_id := index_by_id elements in
      match check_instructions elements_by_id form_data [] false with
      | (printed, Raise e) => (printed, Raise e)
      | (printed, Ok true) => (printed, Raise (SystemExit 1))
      | (printed, Ok false) =>
          (printed,
           (w <- write_pages data_by_page (clone_from reader) ;;
            Ok (FormWriter (fw_pages w) true))%py)
      end
  end.

(** ** Vocabulary of the statements and sample documents *)

Definition pair_diags (bi : BoundsAndEntry) (rest : list BoundsAndEntry)
  : list message :=
  map (overlap_message bi) (filter (overlap_hit bi) rest).

Definition height_diag (bi : BoundsAndEntry) : list message :=
  match btype bi, fe_text_content (entry bi) with
  | BEntry, Some tc =>
      let entry_height := (b3 (bounds bi) - b1 (bounds bi))%Q in
      if Qltb entry_height (text_size_or_default tc)
      then [MsgHeight (fe_description (entry bi)) entry_height
                      (text_size_or_default tc)]
      else []
  | _, _ => []
  end.

Fixpoint all_diags (l : list BoundsAndEntry) : list message :=
  match l with
  | [] => []
  | bi :: rest => pair_diags bi rest ++ height_diag bi ++ all_diags rest
  end.

Fixpoint report_all (ds : list message) (st : vstate) : flow :=
  match ds with
  | [] => Continue st
  | d :: ds' =>
      match report d st with
      | Continue st' => report_all ds' st'
      | Return m => Return m
      end
  end.

Definition is_abort (m : message) : bool :=
  match m with
  | MsgAbort => true
  | _ => false
  end.

Definition abort_count (l : list message) : nat :=
  length (filter is_abort l).

Fixpoint all_pairs_hit (l : list BoundsAndEntry) : bool :=
  match l with
  | [] => true
  | bi :: rest => forallb (overlap_hit bi) rest && all_pairs_hit rest
  end.

(** The layout of [test_multiple_errors_limit]: 25 entries whose label
    and entry boxes all overlap on page 1. *)
Definition overlapping_entry : field_entry :=
  FieldEntry "Field" 1 (Bbox 10 10 50 30) (Bbox 20 15 60 35) None.

Definition twenty_five_overlapping : config :=
  Config (repeat overlapping_entry 25) [].

Definition is_overlap_message (m : message) : bool :=
  match m with
  | MsgOverlapSame _ _ _ | MsgOverlapOther _ _ _ _ _ _ => true
  | _ => false
  end.

(** [bi] occurs before [bj] in [l]. *)
Definition ordered_pair (l : list BoundsAndEntry) (bi bj : BoundsAndEntry)
  : Prop :=
  exists l1 l2 l3, l = l1 ++ bi :: l2 ++ bj :: l3.

Definition touching_layout : config :=
  Config [FieldEntry "Name" 1 (Bbox 0 0 10 10) (Bbox 10 0 20 10) None] [].

Definition overlapping_layout : config :=
  Config [FieldEntry "Name" 1 (Bbox 0 0 10 10) (Bbox 9 0 20 10) None] [].

Definition two_pages_layout : config :=
  Config [FieldEntry "Name" 1 (Bbox 10 10 50 30) (Bbox 60 10 150 30) None;
          FieldEntry "Email" 2 (Bbox 10 10 50 30) (Bbox 60 10 150 30) None] [].

(** The seven "wide glyph" ranges, as the specification lists them. *)
Definition wide_glyph (c : Z) : Prop :=
  (0x3000 <= c <= 0x303F \/ 0x3040 <= c <= 0x309F \/ 0x30A0 <= c <= 0x30FF
   \/ 0x3400 <= c <= 0x4DBF \/ 0x4E00 <= c <= 0x9FFF
   \/ 0xAC00 <= c <= 0xD7AF \/ 0xFF00 <= c <= 0xFFEF)%Z.

(** Some [field_entries[i].text_content.content] holds a wide glyph. *)
Definition needs_wide_glyphs (cfg : config) : Prop :=
  exists e tc content c,
    In e (field_entries cfg)
    /\ fe_text_content e = Some tc /\ tc_content tc = Some content
    /\ In c content /\ wide_glyph c.

Definition is_font_line (l : line) : bool :=
  match l with
  | LRegisterWarning _ | LUsingFont _ | LErrNoFont | LFontPath _ _
  | LCountEmbedded _ => true
  | _ => false
  end.

(** The entries that carry a non-empty content string. *)
Definition has_text (e : field_entry) : bool :=
  match entry_content e with
  | Some (_ :: _) => true
  | _ => false
  end.

Definition text_entries (cfg : config) : list field_entry :=
  filter has_text (field_entries cfg).

Definition page_draws (p : out_page) : nat :=
  list_sum (map (@length draw) (op_merged p)).

Definition draw_total (w : writer) : nat := list_sum (map page_draws w).

Definition annotation_total (w : writer) : nat :=
  list_sum (map (fun p => length (op_annotations p)) w).

Definition group_size (d : list (Z * list field_entry)) : nat :=
  list_sum (map (fun g => length (snd g)) d).

Definition cjk_entry : field_entry :=
  FieldEntry "Name" 1 (Bbox 0 0 10 10) (Bbox 20 0 100 20)
    (Some (TextContent (Some [0x4E2D%Z]) None None None)).

Definition ascii_entry : field_entry :=
  FieldEntry "Name" 1 (Bbox 0 0 10 10) (Bbox 20 0 100 20)
    (Some (TextContent (Some [72%Z; 105%Z]) None None None)).

Definition one_page : reader_pages := [(400, 200)%Q].

Definition cjk_layout : config :=
  Config [ascii_entry; cjk_entry] [PageDimension 1 200 100].

Definition ascii_layout : config :=
  Config [ascii_entry] [PageDimension 1 200 100].

(** A machine without any of the listed fonts. *)
Definition no_fonts : platform :=
  Platform (fun _ => false) (fun _ _ => true) (fun _ => true) (fun _ => true).

(** A Linux machine with the Noto CJK font installed. *)
Definition noto_only : platform :=
  Platform
    (String.eqb "/usr/share/fonts/opentype/noto/NotoSansCJK-Regular.ttc")
    (fun _ _ => true) (fun _ => true) (fun _ => true).

(** A machine whose first listed font exists but cannot be registered. *)
Definition broken_font : platform :=
  Platform (fun _ => true) (fun _ _ => false) (fun _ => true) (fun _ => true).








Definition is_none {A : Type} (o : option A) : bool :=
  match o with
  | Some _ => false
  | None => true
  end.

(** The invariant of the specification: the type-specific attributes
    are present exactly for the element's type. *)
Definition carries_required (e : element) : bool :=
  match el_element_type e with
  | toggle_box =>
      negb (is_none (el_on_value e)) && negb (is_none (el_off_value e))
      && is_none (el_menu_items e) && is_none (el_available_options e)
  | option_group =>
      is_none (el_on_value e) && is_none (el_off_value e)
      && is_none (el_menu_items e)
      && match el_available_options e with
         | Some (_ :: _) => true
         | _ => false
         end
  | dropdown =>
      is_none (el_on_value e) && is_none (el_off_value e)
      && negb (is_none (el_menu_items e))
      && is_none (el_available_options e)
  | text_input | unknown _ =>
      is_none (el_on_value e) && is_none (el_off_value e)
      && is_none (el_menu_items e) && is_none (el_available_options e)
  end.

(** A toggle_box without any type-specific attribute. *)
Definition bare_toggle (e : element) : bool :=
  match el_element_type e with
  | toggle_box =>
      is_none (el_on_value e) && is_none (el_off_value e)
      && is_none (el_menu_items e) && is_none (el_available_options e)
  | _ => false
  end.

(** What the extractor does guarantee. *)
Definition shape_ok (e : element) : bool :=
  carries_required e || bare_toggle e.

Definition publishable (e : element) : bool :=
  shape_ok e && negb (is_none (el_page_num e)).

Definition leaf_ok (e : element) : Prop :=
  shape_ok e = true /\ el_available_options e = None.

Definition group_ok (e : element) : Prop :=
  carries_required e = true /\ el_element_type e = option_group
  /\ is_none (el_page_num e) = false.

Definition extract_inv (st : extract_state) : Prop :=
  Forall leaf_ok (dict_values (fst st))
  /\ Forall group_ok (dict_values (snd st)).

(** The lexicographic order on keys [(page_num, -bounds[1], bounds[0])]. *)
Definition key_le (k1 k2 : key) : Prop :=
  (fst k1 < fst k2)%Z
  \/ (fst k1 = fst k2
      /\ ((fst (snd k1) < fst (snd k2))%Q
          \/ ((fst (snd k1) == fst (snd k2))%Q
              /\ (snd (snd k1) <= snd (snd k2))%Q))).

Definition key_less (k1 k2 : key) : Prop :=
  (fst k1 < fst k2)%Z
  \/ (fst k1 = fst k2
      /\ ((fst (snd k1) < fst (snd k2))%Q
          \/ ((fst (snd k1) == fst (snd k2))%Q
              /\ (snd (snd k1) < snd (snd k2))%Q))).

Definition keyed_le (a b : key * element) : Prop := key_le (fst a) (fst b).

(** [e1] may stand before [e2]: both have a key and the keys are in order. *)
Definition element_le (e1 e2 : element) : Prop :=
  exists k1 k2, sort_key e1 = Ok k1 /\ sort_key e2 = Ok k2 /\ key_le k1 k2.



(** Two text fields drawn at the same place of page 1. *)
Definition twin_rect : bbox := Bbox 72 700 200 720.

Definition twin_reader : pdf_reader :=
  PdfReader
    (Some [("a"%string, Field (Some "/Tx"%string) false None None);
           ("b"%string, Field (Some "/Tx"%string) false None None)])
    [[Annotation (Some "a"%string) None (Some twin_rect) None;
      Annotation (Some "b"%string) None (Some twin_rect) None]].

Definition twin_a : element :=
  Element "a" text_input (Some 1%Z) (Some twin_rect) None None None None.

Definition twin_b : element :=
  Element "b" text_input (Some 1%Z) (Some twin_rect) None None None None.

(** An option group whose two options sit on page 2. *)
Definition radio_reader : pdf_reader :=
  PdfReader
    (Some [("name"%string, Field (Some "/Tx"%string) false None None);
           ("color"%string,
            Field (Some "/Btn"%string) true (Some ["/Red"; "/Blue"]%string) None)])
    [[];
     [Annotation None (Some (Node (Some "color"%string) None))
        (Some (Bbox 300 500 310 510)) (Some ["/Red"; "/Off"]%string);
      Annotation None (Some (Node (Some "color"%string) None))
        (Some (Bbox 320 600 330 610)) (Some ["/Blue"; "/Off"]%string);
      Annotation (Some "name"%string) None (Some (Bbox 50 400 150 420)) None]].

(** A push button: a [/Btn] field for which [get_fields] reports no
    [/_States_], with its widget on page 1. *)
Definition pushbutton_reader : pdf_reader :=
  PdfReader
    (Some [("submit"%string, Field (Some "/Btn"%string) false None None)])
    [[Annotation (Some "submit"%string) None (Some (Bbox 72 100 172 130)) None]].

Definition published_pushbutton : element :=
  Element "submit" toggle_box (Some 1%Z) (Some (Bbox 72 100 172 130))
    None None None None.

(** A check box whose field declares three states. *)
Definition three_state_reader : pdf_reader :=
  PdfReader
    (Some [("agree"%string,
            Field (Some "/Btn"%string) false
              (Some ["/Yes"; "/Maybe"; "/Off"]%string) None)])
    [[Annotation (Some "agree"%string) None (Some (Bbox 72 100 92 120)) None]].


(** An instruction passes the checks of the filling loop. *)
Definition passes (d : dict string element) (entry : instruction) : Prop :=
  exists e,
    dict_get String.eqb d (in_element_id entry) = Some e
    /\ el_page_num e = Some (in_page_num entry)
    /\ forall v, in_fill_value entry = Some v ->
                 validate_element_value e v = Ok None.

(** An instruction is rejected: unknown id, page mismatch, or a fill
    value that validation does not accept. *)
Definition rejected (d : dict string element) (entry : instruction) : Prop :=
  dict_get String.eqb d (in_element_id entry) = None
  \/ (exists e,
         dict_get String.eqb d (in_element_id entry) = Some e
         /\ el_page_num e <> Some (in_page_num entry))
  \/ (exists e v,
         dict_get String.eqb d (in_element_id entry) = Some e
         /\ in_fill_value entry = Some v
         /\ validate_element_value e v <> Ok None).

Definition unknown_id_batch : list instruction :=
  [Instruction "name" 2 (Some "Alice"%string);
   Instruction "nope" 1 (Some "x"%string)].

(** ** Vocabulary of the further properties *)

(** The page of [e] is a page of the PDF and has a [page_dimensions]
    record whose image size can be divided by. *)
Definition page_resolvable (reader : reader_pages) (cfg : config)
    (e : field_entry) : Prop :=
  exists info dims,
    next_page_info (page_dimensions cfg) (fe_page_num e) = Ok info
    /\ pdf_dims_get reader (fe_page_num e) = Ok dims
    /\ ~ (pd_img_width info == 0)%Q /\ ~ (pd_img_height info == 0)%Q.

(** The font of a drawing is right for its text: the registered CJK
    font when the text holds a wide glyph, otherwise Helvetica or a
    font reportlab knows. *)
Definition draw_font_ok (env : platform) (cjk_font_name : string)
    (d : draw) : Prop :=
  (has_cjk_characters (ds_text d) = true -> ds_font d = cjk_font_name)
  /\ (has_cjk_characters (ds_text d) = false ->
      ds_font d = "Helvetica"%string \/ font_known env (ds_font d) = true)
  /\ (ds_color d = "000000"%string \/ hex_ok env (ds_color d) = true).

(** Every group of [entries_by_page] is keyed by the page of its
    entries and is not empty. *)
Definition group_keyed (g : Z * list field_entry) : Prop :=
  snd g <> [] /\ Forall (fun e => fe_page_num e = fst g) (snd g).

(** The element stored under a key carries that key as its id. *)
Definition id_is_key (kv : string * element) : Prop :=
  el_element_id (snd kv) = fst kv.

(** Invariant of the two dictionaries of the extraction loops: keys are
    unique, every element is stored under its own id, and no option
    group shares its id with a leaf element. *)
Definition ids_inv (st : extract_state) : Prop :=
  NoDup (map fst (fst st)) /\ NoDup (map fst (snd st))
  /\ Forall id_is_key (fst st) /\ Forall id_is_key (snd st)
  /\ (forall k, In k (map fst (snd st)) ->
                dict_get String.eqb (fst st) k = None).

Definition page_in_range (n : nat) (e : element) : Prop :=
  forall p, el_page_num e = Some p -> (1 <= p <= Z.of_nat n)%Z.

Definition never_off (e : element) : Prop :=
  forall options o,
    el_available_options e = Some options -> In o options ->
    go_option_value o <> "/Off"%string.

(** [data_by_page[page_num][element_id]], when both keys are there. *)
Definition fill_lookup (data_by_page : dict Z (dict string string))
    (page_num : Z) (element_id : string) : option string :=
  dict_get String.eqb
    (from_option (dict_get Z.eqb data_by_page page_num) []) element_id.

(** The instruction gives a value to [element_id] on [page_num]. *)
Definition fills (entry : instruction) (page_num : Z) (element_id : string)
  : bool :=
  (in_page_num entry =? page_num)%Z
  && String.eqb (in_element_id entry) element_id
  && negb (is_none (in_fill_value entry)).

(** The value of the last instruction of the batch that fills
    [element_id] on [page_num]. *)
Fixpoint last_fill (form_data : list instruction) (page_num : Z)
    (element_id : string) : option string :=
  match form_data with
  | [] => None
  | entry :: rest =>
      match last_fill rest page_num element_id with
      | Some v => Some v
      | None =>
          if fills entry page_num element_id
          then in_fill_value entry
          else None
      end
  end.


(** ** FieldDetector ([detect_interactive_fields.py]) *)

Inductive detection : Type :=
| HasInteractiveFields          (* the first message is printed *)
| NoInteractiveFields.          (* the second message is printed *)

(** [if (doc.get_fields()):] tests the truthiness of the result:
    [None] and the empty dictionary both take the [else] branch. *)
Definition detect_interactive_fields (doc : pdf_reader) : detection :=
  match get_fields doc with
  | Some (_ :: _) => HasInteractiveFields
  | _ => NoInteractiveFields
  end.

(** ** PreviewOverlay ([generate_preview_overlay.py]) *)








(** ** The workaround for choice fields ([apply_pypdf_workaround]) *)

(** The values [get_inherited] can return, as far as the patch looks
    at them: strings, lists, anything else. *)
#[warnings="-register-all"]
Inductive pdf_value : Type :=
| PdfStr (s : string)
| PdfList (items : list pdf_value)
| PdfOther.

(** [isinstance(v, list) and len(v) == 2] *)
Definition is_two_element_list (v : pdf_value) : bool :=
  match v with
  | PdfList [_; _] => true
  | _ => false
  end.

(** [r[0]]; [None] when the subscript raises. *)
Definition item0 (r : pdf_value) : option pdf_value :=
  match r with
  | PdfList (x :: _) => Some x
  | _ => None
  end.

(** [[r[0] for r in result]]; [None] when a subscript raises. *)
Fixpoint first_items (result : list pdf_value) : option (list pdf_value) :=
  match result with
  | [] => Some []
  | r :: rest =>
      match item0 r with
      | Some x =>
          match first_items rest with
          | Some xs => Some (x :: xs)
          | None => None
          end
      | None => None
      end
  end.

(** [patched_get_inherited], given what [original_get_inherited]
    returned and whether [key] is [FieldDictionaryAttributes.Opt];
    [None] when the patch itself raises. *)
Definition patched_get_inherited (original : pdf_value) (key_is_opt : bool)
  : option pdf_value :=
  if key_is_opt
  then match original with
       | PdfList items =>
           if forallb is_two_element_list items
           then option_map PdfList (first_items items)
           else Some original
       | _ => Some original
       end
  else Some original.

(** [sep.join(items)] for a list: [None] stands for the [TypeError]
    raised when an item is not a string. *)
Fixpoint join (sep : string) (items : list pdf_value) : option string :=
  match items with
  | [] => Some EmptyString
  | PdfStr s :: rest =>
      match rest with
      | [] => Some s
      | _ => option_map (fun tail => (s ++ sep ++ tail)%string) (join sep rest)
      end
  | _ => None
  end.

Definition is_pdf_str (v : pdf_value) : bool :=
  match v with
  | PdfStr _ => true
  | _ => false
  end.

(** A [/Opt] array whose every item is a [[value, label]] pair of
    strings. *)
Definition option_pairs (pairs : list (string * string)) : pdf_value :=
  PdfList (map (fun p => PdfList [PdfStr (fst p); PdfStr (snd p)]) pairs).

(** ** FormulaProcessor ([xlsx/formula_processor.py]) *)

(** [needle in hay] for two strings. *)
Fixpoint substring_in (needle hay : string) : bool :=
  String.prefix needle hay
  || match hay with
     | EmptyString => false
     | String _ rest => substring_in needle rest
     end.

(** A run of the function either returns or is ended by an exception
    that the source does not catch. *)
Inductive outcome (A : Type) : Type :=
| Done (a : A)
| Uncaught.

Arguments Done {A} a.
Arguments Uncaught {A}.

Definition dquote : string := String (Ascii.ascii_of_nat 34) EmptyString.
Definition newline : string := String (Ascii.ascii_of_nat 10) EmptyString.

Definition macro_definition : string :=
  ("<?xml version=" ++ dquote ++ "1.0" ++ dquote
   ++ " encoding=" ++ dquote ++ "UTF-8" ++ dquote ++ "?>" ++ newline
   ++ "<!DOCTYPE script:module PUBLIC " ++ dquote
   ++ "-//OpenOffice.org//DTD OfficeDocument 1.0//EN" ++ dquote ++ " "
   ++ dquote ++ "module.dtd" ++ dquote ++ ">" ++ newline
   ++ "<script:module xmlns:script=" ++ dquote
   ++ "http://openoffice.org/2000/script" ++ dquote
   ++ " script:name=" ++ dquote ++ "Module1" ++ dquote
   ++ " script:language=" ++ dquote ++ "StarBasic" ++ dquote ++ ">" ++ newline
   ++ "    Sub RecalculateAndSave()" ++ newline
   ++ "      ThisComponent.calculateAll()" ++ newline
   ++ "      ThisComponent.store()" ++ newline
   ++ "      ThisComponent.close(True)" ++ newline
   ++ "    End Sub" ++ newline
   ++ "</script:module>")%string.

(** The part of the file system that [configure_calc_macro] looks at,
    through [basic_dir] and [module_path]. *)
Record office_files : Type := OfficeFiles {
  module_text : option string;     (* text of Module1.xba when it exists *)
  basic_dir_exists : bool
}.

(** What the machine does with the calls that can fail. *)
Record office_host : Type := OfficeHost {
  soffice_init : office_files -> option office_files;
                                   (* the files after
                                      [soffice --headless --terminate_after_init];
                                      None when [subprocess.run] raises *)
  makedirs_ok : bool;              (* [os.makedirs] returns *)
  module_writable : bool           (* opening and writing Module1.xba
                                      succeeds *)
}.

(** [configure_calc_macro]: the value returned and the files it
    leaves. *)
Definition configure_calc_macro (host : office_host) (fs : office_files)
  : outcome (bool * office_files) :=
  if match module_text fs with
     | Some text => substring_in "RecalculateAndSave" text
     | None => false
     end
  then Done (true, fs)
  else
    let prepared :=
      if negb (basic_dir_exists fs)
      then match soffice_init host fs with
           | None => Uncaught
           | Some fs' =>
               if makedirs_ok host
               then Done (OfficeFiles (module_text fs') true)
               else Uncaught
           end
      else Done fs in
    match prepared with
    | Uncaught => Uncaught
    | Done fs' =>
        if module_writable host
        then Done (true, OfficeFiles (Some macro_definition)
                           (basic_dir_exists fs'))
        else Done (false, fs')
    end.

(** The outcome of trying [gtimeout --version]. *)
Inductive probe : Type :=
| ProbeRuns
| ProbeNotFound        (* FileNotFoundError *)
| ProbeTimeout         (* subprocess.TimeoutExpired *)
| ProbeRaises.         (* any other exception *)

(** [str(wait_time)] for an integer. *)
Definition str_of_int (n : Z) : string :=
  NilZero.string_of_int (Z.to_int n).

Definition soffice_command (full_path : string) : list string :=
  ["soffice"; "--headless"; "--norestore";
   "vnd.sun.star.script:Standard.Module1.RecalculateAndSave?language=Basic&location=application";
   full_path]%string.

(** Lines 72-90: the command handed to [subprocess.run]. *)
Definition build_command (system : string) (gtimeout : probe)
    (wait_time : Z) (full_path : string) : outcome (list string) :=
  let command := soffice_command full_path in
  if negb (String.eqb system "Windows")
  then
    let timeout_bin :=
      if String.eqb system "Linux" then Some "timeout"%string else None in
    let probed :=
      if String.eqb system "Darwin"
      then match gtimeout with
           | ProbeRuns => Done (Some "gtimeout"%string)
           | ProbeNotFound | ProbeTimeout => Done timeout_bin
           | ProbeRaises => Uncaught
           end
      else Done timeout_bin in
    match probed with
    | Uncaught => Uncaught
    | Done (Some bin) =>
        if nonempty bin
        then Done ([bin; str_of_int wait_time] ++ command)
        else Done command
    | Done None => Done command
    end
  else Done command.

Record proc_result : Type := ProcResult {
  returncode : Z;
  stderr : string
}.

(** A cell value: [None], a string, or anything else. *)
Inductive cell_value : Type :=
| ValNone
| ValStr (text : string)
| ValOther.

Record cell : Type := Cell {
  coordinate : string;
  value : cell_value
}.

(** A loaded workbook as the loops see it: the sheet names in order,
    each with the rows of [workbook[ws_name].iter_rows()]. *)
Definition workbook : Type := list (string * list (list cell)).

Definition error_types : list string :=
  ["#VALUE!"; "#DIV/0!"; "#REF!"; "#NAME?"; "#NULL!"; "#NUM!"; "#N/A"]%string.

(** [for err in error_types: if err in cell.value: ...; break] *)
Fixpoint first_error (types : list string) (text : string) : option string :=
  match types with
  | [] => None
  | err :: rest =>
      if substring_in err text then Some err else first_error rest text
  end.

Definition cell_location (ws_name : string) (c : cell) : string :=
  (ws_name ++ "!" ++ coordinate c)%string.

(** [error_map] and [error_count]. *)
Definition error_state : Type := (dict string (list string) * nat)%type.

(** The body of [for cell in row].  [error_map[err]] always exists:
    the keys are those of [error_types]. *)
Definition scan_cell (ws_name : string) (st : error_state) (c : cell)
  : error_state :=
  match value c with
  | ValStr text =>
      match first_error error_types text with
      | Some err =>
          (dict_set String.eqb (fst st) err
             (from_option (dict_get String.eqb (fst st) err) []
              ++ [cell_location ws_name c]),
           (snd st + 1)%nat)
      | None => st
      end
  | _ => st
  end.

Definition scan_sheet (st : error_state) (sheet : string * list (list cell))
  : error_state :=
  fold_left (fun st row => fold_left (scan_cell (fst sheet)) row st)
            (snd sheet) st.

Definition scan_workbook (wb : workbook) : error_state :=
  fold_left scan_sheet wb (map (fun err => (err, [])) error_types, 0%nat).

Record breakdown : Type := Breakdown {
  bd_count : nat;
  bd_cells : list string
}.

(** The body of [for err_type, cells in error_map.items()]: a
    non-empty category is entered with its count and at most twenty
    locations. *)
Definition add_category (out : dict string breakdown)
    (kv : string * list string) : dict string breakdown :=
  match snd kv with
  | [] => out
  | cells =>
      dict_set String.eqb out (fst kv)
        (Breakdown (length cells) (firstn 20 cells))
  end.

Definition error_breakdown (error_map : dict string (list string))
  : dict string breakdown :=
  fold_left add_category error_map [].

(** [cell.value and isinstance(cell.value, str) and
    cell.value.startswith('=')] *)
Definition is_formula (c : cell) : bool :=
  match value c with
  | ValStr text => nonempty text && String.prefix "=" text
  | _ => false
  end.

Definition count_formulas (wb : workbook) : nat :=
  fold_left
    (fun total sheet =>
       fold_left
         (fun total row =>
            fold_left (fun total c =>
                         if is_formula c then (total + 1)%nat else total)
                      row total)
         (snd sheet) total)
    wb 0%nat.

Inductive run_status : Type := success | errors_detected.

Record summary : Type := Summary {
  status : run_status;
  error_count : nat;
  breakdown_by_type : dict string breakdown;
  formula_count : nat
}.

(** The dictionary returned by [process_formulas]. *)
Inductive output : Type :=
| ErrorOnly (error : string)
| Report (s : summary).

(** Lines 95-99, for a return code other than 0 and 124. *)
Definition failure_output (stderr_text : string) : output :=
  let err_output :=
    if nonempty stderr_text
    then stderr_text
    else "Unknown error during formula evaluation"%string in
  if substring_in "Module1" err_output
     || negb (substring_in "RecalculateAndSave" err_output)
  then ErrorOnly "LibreOffice macro not configured properly"
  else ErrorOnly err_output.

(** The [try] block of lines 102-155.  A load is either the workbook
    or [str(e)] of the exception it raised. *)
Definition inspect_workbooks (values formulas : string + workbook) : output :=
  match values with
  | inl message => ErrorOnly message
  | inr wb =>
      let '(error_map, count) := scan_workbook wb in
      match formulas with
      | inl message => ErrorOnly message
      | inr wb_with_formulas =>
          Report (Summary (if Nat.eqb count 0 then success
                           else errors_detected)
                          count
                          (error_breakdown error_map)
                          (count_formulas wb_with_formulas))
      end
  end.

(** What one run of [process_formulas] observes of its surroundings. *)
Record spreadsheet_env : Type := SpreadsheetEnv {
  file_exists : bool;                    (* Path(filepath).exists() *)
  absolute_path : string;                (* str(Path(filepath).absolute()) *)
  system : string;                       (* platform.system() *)
  host : office_host;
  files : office_files;
  gtimeout : probe;
  run_command : list string -> option proc_result;
                                         (* None when subprocess.run raises *)
  load_values : string + workbook;       (* load_workbook(data_only=True) *)
  load_formulas : string + workbook      (* load_workbook(data_only=False) *)
}.

Definition process_formulas (env : spreadsheet_env) (filepath : string)
    (wait_time : Z) : outcome output :=
  if negb (file_exists env)
  then Done (ErrorOnly ("File " ++ filepath ++ " does not exist")%string)
  else
    match configure_calc_macro (host env) (files env) with
    | Uncaught => Uncaught
    | Done (false, _) =>
        Done (ErrorOnly "Failed to configure LibreOffice macro")
    | Done (true, _) =>
        match build_command (system env) (gtimeout env) wait_time
                (absolute_path env) with
        | Uncaught => Uncaught
        | Done command =>
            match run_command env command with
            | None => Uncaught
            | Some result =>
                if negb (returncode result =? 0)%Z
                   && negb (returncode result =? 124)%Z
                then Done (failure_output (stderr result))
                else Done (inspect_workbooks (load_values env)
                                             (load_formulas env))
            end
        end
    end.

(** The located cells of a workbook in scan order. *)
Definition located_cells (wb : workbook) : list (string * cell) :=
  flat_map (fun sheet => map (fun c => (fst sheet, c)) (concat (snd sheet)))
           wb.

(** The error type under which a cell is filed, if any. *)
Definition filed_under (c : cell) : option string :=
  match value c with
  | ValStr text => first_error error_types text
  | _ => None
  end.

(** The locations filed under [err], in scan order. *)
Definition locations_of (err : string) (cells : list (string * cell))
  : list string :=
  map (fun nc => cell_location (fst nc) (snd nc))
      (filter (fun nc => match filed_under (snd nc) with
                         | Some e => String.eqb e err
                         | None => false
                         end) cells).

(** Truthiness of a list. *)
Definition has_cells (cells : list string) : bool :=
  match cells with
  | [] => false
  | _ => true
  end.

(** The number of locations held by an [error_map]. *)
Definition total_filed (error_map : dict string (list string)) : nat :=
  list_sum (map (fun kv => length (snd kv)) error_map).

(** One step of the scan over located cells. *)
Definition scan_located (st : error_state) (nc : string * cell) : error_state :=
  scan_cell (fst nc) st (snd nc).

Definition is_filed (nc : string * cell) : bool :=
  negb (is_none (filed_under (snd nc))).

(** The entry of [error_breakdown] for a non-empty list of locations. *)
Definition breakdown_of (cells : list string) : breakdown :=
  Breakdown (length cells) (firstn 20 cells).

(** The error types that have at least one location, in the order of
    [error_types]. *)
Definition reported_types (cells : list (string * cell)) : list string :=
  filter (fun err => has_cells (locations_of err cells)) error_types.

(** A small workbook: two sheets, three cells with an error text. *)
Definition sample_workbook : workbook :=
  [("Sheet1"%string,
    [[Cell "A1" (ValStr "#REF!"); Cell "B1" ValOther];
     [Cell "A2" (ValStr "#DIV/0! and #VALUE!"); Cell "B2" ValNone]]);
   ("Data"%string,
    [[Cell "A1" (ValStr "total"); Cell "B1" (ValStr "see #REF! above")]])].

Definition sample_formulas : workbook :=
  [("Sheet1"%string,
    [[Cell "A1" (ValStr "=B1/0"); Cell "B1" ValOther];
     [Cell "A2" (ValStr "=A1+1"); Cell "B2" ValNone]]);
   ("Data"%string,
    [[Cell "A1" (ValStr "total"); Cell "B1" (ValStr "=Sheet1!A1")]])].

(** Sample surroundings: the macro is installed, every call succeeds,
    and LibreOffice ends with the given return code and error text. *)
Definition ready_files : office_files := OfficeFiles (Some macro_definition) true.

Definition quiet_host : office_host := OfficeHost (fun fs => Some fs) true true.

Definition sample_env (system_name : string) (rc : Z) (err : string)
  : spreadsheet_env :=
  SpreadsheetEnv true "/work/book.xlsx" system_name quiet_host ready_files
    ProbeNotFound (fun _ => Some (ProcResult rc err))
    (inr sample_workbook) (inr sample_formulas).

(** The timeout wrapper is in use. *)
Definition wraps_timeout (system_name : string) (gtimeout_probe : probe) : bool :=
  String.eqb system_name "Linux"
  || (String.eqb system_name "Darwin"
      && match gtimeout_probe with ProbeRuns => true | _ => false end).

(** The line that reports the number of overlays. *)
Definition count_line (l : line) : option nat :=
  match l with
  | LCountAnnotations n | LCountEmbedded n => Some n
  | _ => None
  end.

(** The invariant of the extraction loops: every leaf element
    satisfies [PL] and every option group satisfies [PG]. *)
Definition published_inv (PL PG : element -> Prop) (st : extract_state)
  : Prop :=
  Forall PL (dict_values (fst st)) /\ Forall PG (dict_values (snd st)).

(** * Verified properties *)


(** ** Comparisons on rationals *)

Lemma Qgeb_spec a b : Qgeb a b = true <-> (b <= a)%Q.
Proof. unfold Qgeb. apply Qle_bool_iff. Qed.

Lemma Qleb_spec a b : Qleb a b = true <-> (a <= b)%Q.
Proof. unfold Qleb. apply Qle_bool_iff. Qed.

Lemma Qltb_spec a b : Qltb a b = true <-> (a < b)%Q.
Proof.
  unfold Qltb. rewrite negb_true_iff.
  destruct (Qle_bool b a) eqn:E.
  - apply Qle_bool_iff in E. split; [discriminate | intros H; lra].
  - split; [intros _ | reflexivity].
    destruct (Qlt_le_dec a b) as [H | H]; [exact H |].
    apply Qle_bool_iff in H. congruence.
Qed.

Lemma Qeq_bool_false_neq a b : Qeq_bool a b = false -> ~ (a == b)%Q.
Proof. intros H E. apply Qeq_bool_iff in E. congruence. Qed.


(** ** CoordinateMapper *)



(** A zero image dimension makes the division raise. *)
Lemma convert_image_to_pdf_coords_zero_width bbox ih pw ph :
  convert_image_to_pdf_coords bbox 0 ih pw ph = Raise ZeroDivisionError.
Proof. reflexivity. Qed.

(** ** LayoutValidator: the overlap test *)

Lemma bounds_overlap_true_iff a b :
  bounds_overlap a b = true <->
  (b0 a < b2 b /\ b0 b < b2 a /\ b1 a < b3 b /\ b1 b < b3 a)%Q.
Proof.
  unfold bounds_overlap. cbv zeta.
  rewrite negb_true_iff, !orb_false_iff.
  unfold Qgeb, Qleb.
  assert (F : forall x y, Qle_bool x y = false <-> (y < x)%Q).
  { intros x y. rewrite <- (Qltb_spec y x). unfold Qltb.
    rewrite negb_true_iff. reflexivity. }
  rewrite !F. tauto.
Qed.

(** ** LayoutValidator: the diagnostic stream

    The two nested loops emit, in order, the findings listed by
    [all_diags]; [report_all] replays a list of findings through the
    cap test.  The loops are shown equal to that replay, which gives a
    closed form for the returned list. *)

Lemma report_all_app ds1 ds2 st :
  report_all (ds1 ++ ds2) st =
  match report_all ds1 st with
  | Continue st' => report_all ds2 st'
  | Return m => Return m
  end.
Proof.
  revert st. induction ds1 as [| d ds1 IH]; intros st; simpl.
  - reflexivity.
  - destruct (report d st); [apply IH | reflexivity].
Qed.

Lemma check_pairs_replay bi rest st :
  check_pairs bi rest st = report_all (pair_diags bi rest) st.
Proof.
  revert st. unfold pair_diags.
  induction rest as [| bj rest IH]; intros st; simpl.
  - reflexivity.
  - destruct (overlap_hit bi bj); simpl.
    + destruct (report (overlap_message bi bj) st); [apply IH | reflexivity].
    + apply IH.
Qed.

Lemma check_height_replay bi st :
  check_height bi st = report_all (height_diag bi) st.
Proof.
  unfold check_height, height_diag.
  destruct (btype bi); [reflexivity |].
  destruct (fe_text_content (entry bi)) as [tc |]; [| reflexivity].
  cbv zeta.
  destruct (Qltb _ _); simpl; [| reflexivity].
  destruct (report _ st); reflexivity.
Qed.

Lemma check_all_replay l st :
  check_all l st = report_all (all_diags l) st.
Proof.
  revert st. induction l as [| bi rest IH]; intros st; simpl.
  - reflexivity.
  - rewrite report_all_app, <- check_pairs_replay.
    destruct (check_pairs bi rest st) as [st1 |]; [| reflexivity].
    rewrite report_all_app, <- check_height_replay.
    destruct (check_height bi st1); [apply IH | reflexivity].
Qed.

(** Closed form of the replay from a state below the cap. *)
Lemma report_all_closed ds : forall m fe,
  (length m < 20)%nat ->
  report_all ds (m, fe) =
  if (length m + length ds <? 20)%nat
  then Continue (m ++ ds, match ds with [] => fe | _ => true end)
  else Return (m ++ firstn (20 - length m) ds ++ [MsgAbort]).
Proof.
  induction ds as [| d ds IH]; intros m fe Hm; cbn [report_all length].
  - rewrite Nat.add_0_r.
    destruct (Nat.ltb_spec (length m) 20); [| lia].
    rewrite app_nil_r. reflexivity.
  - unfold report. cbn [fst].
    rewrite length_app. cbn [length].
    destruct (Nat.leb_spec 20 (length m + 1)) as [Hcap | Hcap].
    + assert (E : (20 - length m = 1)%nat) by lia.
      destruct (Nat.ltb_spec (length m + S (length ds)) 20); [lia |].
      rewrite E. cbn [firstn]. rewrite <- app_assoc. reflexivity.
    + rewrite IH by (rewrite length_app; cbn [length]; lia).
      rewrite length_app. cbn [length].
      replace (length m + 1 + length ds)%nat
        with (length m + S (length ds))%nat by lia.
      destruct (Nat.ltb_spec (length m + S (length ds)) 20).
      * rewrite <- app_assoc. cbn [app].
        destruct ds; reflexivity.
      * replace (20 - length m)%nat with (S (20 - (length m + 1)))%nat by lia.
        cbn [firstn]. rewrite <- app_assoc. reflexivity.
Qed.

(** The returned list, in closed form. *)
Lemma validate_form_layout_closed cfg :
  let ds := all_diags (build_bounds_list 0 (field_entries cfg)) in
  validate_form_layout cfg =
  MsgRead (length (field_entries cfg))
  :: (if (length ds <? 19)%nat
      then ds ++ match ds with [] => [MsgSuccess] | _ => [] end
      else firstn 19 ds ++ [MsgAbort]).
Proof.
  intros ds. unfold validate_form_layout. cbv zeta.
  rewrite check_all_replay. fold ds.
  rewrite report_all_closed by (simpl; lia).
  cbn [length].
  replace (1 + length ds <? 20)%nat with (length ds <? 19)%nat
    by (destruct (Nat.ltb_spec (length ds) 19), (Nat.ltb_spec (1 + length ds) 20);
        lia || reflexivity).
  destruct (length ds <? 19)%nat.
  - destruct ds; simpl; [reflexivity |].
    rewrite app_nil_r. reflexivity.
  - reflexivity.
Qed.

Lemma filter_all_true {A : Type} (f : A -> bool) (l : list A) :
  Forall (fun x => f x = true) l -> filter f l = l.
Proof.
  induction 1 as [| x l Hx _ IH]; simpl.
  - reflexivity.
  - rewrite Hx, IH. reflexivity.
Qed.

Lemma overlap_message_not_abort bi bj : is_abort (overlap_message bi bj) = false.
Proof. unfold overlap_message. destruct (same_entry bi bj); reflexivity. Qed.

Lemma filter_abort_map_overlap bi l :
  filter is_abort (map (overlap_message bi) l) = [].
Proof.
  induction l as [| bj l IH]; simpl.
  - reflexivity.
  - rewrite overlap_message_not_abort. exact IH.
Qed.

Lemma height_diag_no_abort bi : filter is_abort (height_diag bi) = [].
Proof.
  unfold height_diag.
  destruct (btype bi); [reflexivity |].
  destruct (fe_text_content (entry bi)); [| reflexivity].
  cbv zeta. destruct (Qltb _ _); reflexivity.
Qed.

Lemma all_diags_no_abort l : filter is_abort (all_diags l) = [].
Proof.
  induction l as [| bi rest IH]; simpl.
  - reflexivity.
  - rewrite !filter_app. unfold pair_diags.
    rewrite filter_abort_map_overlap, height_diag_no_abort, IH. reflexivity.
Qed.

Lemma firstn_no_abort n l :
  filter is_abort l = [] -> filter is_abort (firstn n l) = [].
Proof.
  revert n. induction l as [| x l IH]; intros [| n] H; simpl in *;
    try reflexivity.
  destruct (is_abort x); [discriminate |]. apply IH, H.
Qed.

(** When the first box meets every later box, the inner loop alone
    already produces one finding per later box. *)
Lemma all_diags_first_meets_all bi rest :
  Forall (fun bj => overlap_hit bi bj = true) rest ->
  (length rest <= length (all_diags (bi :: rest)))%nat.
Proof.
  intros H. cbn [all_diags]. unfold pair_diags.
  rewrite (filter_all_true _ H), !length_app, length_map. lia.
Qed.

Lemma build_bounds_list_length ix entries :
  length (build_bounds_list ix entries) = (2 * length entries)%nat.
Proof.
  revert ix. induction entries as [| e rest IH]; intros ix; simpl.
  - reflexivity.
  - rewrite IH. lia.
Qed.

Lemma all_pairs_hit_sound l :
  all_pairs_hit l = true ->
  ForallOrdPairs (fun bi bj => overlap_hit bi bj = true) l.
Proof.
  induction l as [| bi rest IH]; simpl; intros H.
  - constructor.
  - apply andb_true_iff in H. destruct H as [H1 H2].
    constructor; [| apply IH, H2].
    apply Forall_forall. apply forallb_forall. exact H1.
Qed.

(** The two cases of the returned list: cap reached or not. *)
Lemma validate_form_layout_cases (cfg : config) :
  let out := validate_form_layout cfg in
  let findings := all_diags (build_bounds_list 0 (field_entries cfg)) in
  ((19 <= length findings)%nat ->
   out = MsgRead (length (field_entries cfg))
         :: firstn 19 findings ++ [MsgAbort]
   /\ length out = 21%nat /\ abort_count out = 1%nat)
  /\ ((length findings < 19)%nat ->
      out = MsgRead (length (field_entries cfg))
            :: findings ++ match findings with [] => [MsgSuccess] | _ => [] end
      /\ abort_count out = 0%nat /\ (length out <= 20)%nat).
Proof.
  intros out findings. subst out.
  rewrite validate_form_layout_closed. fold findings.
  pose proof (all_diags_no_abort (build_bounds_list 0 (field_entries cfg)))
    as Hfree.
  fold findings in Hfree.
  split; intros Hlen.
  - destruct (Nat.ltb_spec (length findings) 19); [lia |].
    split; [reflexivity |]. split.
    + cbn [length]. rewrite length_app, length_firstn. cbn [length]. lia.
    + unfold abort_count. cbn [filter is_abort].
      rewrite filter_app, (firstn_no_abort 19 _ Hfree). reflexivity.
  - destruct (Nat.ltb_spec (length findings) 19); [| lia].
    split; [reflexivity |]. split.
    + unfold abort_count. cbn [filter is_abort].
      rewrite filter_app, Hfree. destruct findings; reflexivity.
    + cbn [length]. rewrite length_app.
      destruct findings; cbn [length] in *; lia.
Qed.

(** C5.  The diagnostic list is capped: the returned list never has
    more than 21 messages and at most one truncation notice; the notice
    appears exactly when the list reaches 20 entries (the summary line
    and 19 findings), it is then the last message, directly after the
    first 19 findings, and nothing is evaluated after it.  Layouts with
    at least 25 boxes that all meet on one page, and the 25 overlapping
    entries of the test suite, yield 21 messages (at most 30), exactly
    one of them the truncation notice. *)
Theorem validate_form_layout_cap :
  (forall cfg : config,
      let out := validate_form_layout cfg in
      let findings := all_diags (build_bounds_list 0 (field_entries cfg)) in
      (length out <= 21)%nat
      /\ (abort_count out <= 1)%nat
      /\ ((19 <= length findings)%nat ->
          out = MsgRead (length (field_entries cfg))
                :: firstn 19 findings ++ [MsgAbort]
          /\ length out = 21%nat /\ abort_count out = 1%nat)
      /\ ((length findings < 19)%nat ->
          abort_count out = 0%nat /\ (length out <= 20)%nat))
  /\ (forall cfg : config,
         let out := validate_form_layout cfg in
         let boxes := build_bounds_list 0 (field_entries cfg) in
         (25 <= length boxes)%nat ->
         ForallOrdPairs (fun bi bj => overlap_hit bi bj = true) boxes ->
         (length out <= 30)%nat /\ abort_count out = 1%nat)
  /\ (length (validate_form_layout twenty_five_overlapping) = 21%nat
      /\ abort_count (validate_form_layout twenty_five_overlapping) = 1%nat).
Proof.
  pose proof validate_form_layout_cases as General.
  split; [| split].
  - intros cfg out findings.
    destruct (General cfg) as [Hcap Hfit]. fold out findings in Hcap, Hfit.
    destruct (Nat.le_gt_cases 19 (length findings)) as [H | H].
    + destruct (Hcap H) as (_ & Hl & Hc).
      repeat split; try lia; try (apply Hcap; assumption).
    + destruct (Hfit H) as (_ & Hc & Hl).
      repeat split; try lia; try (apply Hcap; lia).
  - intros cfg out boxes Hlen Hall.
    destruct (General cfg) as [Hcap _]. fold out boxes in Hcap.
    destruct boxes as [| bi rest] eqn:E; [cbn in Hlen; lia |].
    inversion Hall as [| ? ? Hfirst _]; subst.
    pose proof (all_diags_first_meets_all bi Hfirst) as Hmany.
    cbn [length] in Hlen.
    destruct Hcap as (_ & Hl & Hc); [lia |]. lia.
  - split; vm_compute; reflexivity.
Qed.

Lemma validate_form_layout_cap_witness :
  (length (validate_form_layout twenty_five_overlapping) <= 30)%nat
  /\ abort_count (validate_form_layout twenty_five_overlapping) = 1%nat.
Proof.
  apply (proj1 (proj2 validate_form_layout_cap) twenty_five_overlapping).
  - vm_compute. lia.
  - apply all_pairs_hit_sound. vm_compute. reflexivity.
Defined.

(** ** LayoutValidator: which pairs are reported *)

Lemma ordered_pair_cons l b bi bj :
  ordered_pair l bi bj -> ordered_pair (b :: l) bi bj.
Proof.
  intros (l1 & l2 & l3 & ->). exists (b :: l1), l2, l3. reflexivity.
Qed.

Lemma ordered_pair_inv b l bi bj :
  ordered_pair (b :: l) bi bj ->
  (b = bi /\ In bj l) \/ ordered_pair l bi bj.
Proof.
  intros (l1 & l2 & l3 & E). destruct l1 as [| x l1]; simpl in E.
  - injection E as -> ->. left. split; [reflexivity |].
    apply in_or_app. right. left. reflexivity.
  - injection E as -> ->. right. exists l1, l2, l3. reflexivity.
Qed.

Lemma height_diag_not_overlap bi m :
  In m (height_diag bi) -> is_overlap_message m = false.
Proof.
  unfold height_diag.
  destruct (btype bi); [intros [] |].
  destruct (fe_text_content (entry bi)); [| intros []].
  cbv zeta. destruct (Qltb _ _); [| intros []].
  intros [<- | []]. reflexivity.
Qed.

Lemma all_diags_overlap_sound l m :
  In m (all_diags l) -> is_overlap_message m = true ->
  exists bi bj,
    ordered_pair l bi bj /\ overlap_hit bi bj = true
    /\ m = overlap_message bi bj.
Proof.
  induction l as [| b rest IH]; simpl; intros Hin Hm; [contradiction |].
  apply in_app_or in Hin. destruct Hin as [Hin | Hin].
  - unfold pair_diags in Hin. apply in_map_iff in Hin.
    destruct Hin as (bj & <- & Hbj). apply filter_In in Hbj.
    destruct Hbj as [Hbj Hhit].
    exists b, bj. split; [| split; [exact Hhit | reflexivity]].
    apply in_split in Hbj. destruct Hbj as (l2 & l3 & ->).
    exists [], l2, l3. reflexivity.
  - apply in_app_or in Hin. destruct Hin as [Hin | Hin].
    + apply height_diag_not_overlap in Hin. congruence.
    + destruct (IH Hin Hm) as (bi & bj & Hord & Hhit & E).
      exists bi, bj. split; [apply ordered_pair_cons, Hord | tauto].
Qed.

Lemma all_diags_overlap_complete l bi bj :
  ordered_pair l bi bj -> overlap_hit bi bj = true ->
  In (overlap_message bi bj) (all_diags l).
Proof.
  induction l as [| b rest IH]; intros Hord Hhit.
  - destruct Hord as (l1 & l2 & l3 & E). destruct l1; discriminate E.
  - simpl. apply ordered_pair_inv in Hord.
    destruct Hord as [[-> Hbj] | Hord].
    + apply in_or_app. left. unfold pair_diags.
      apply in_map. apply filter_In. split; assumption.
    + apply in_or_app. right. apply in_or_app. right.
      apply IH; assumption.
Qed.

Lemma In_firstn {A : Type} (n : nat) (l : list A) (x : A) :
  In x (firstn n l) -> In x l.
Proof.
  revert n. induction l as [| y l IH]; intros [| n]; simpl; try tauto.
  intros [H | H]; [left; exact H | right; apply (IH n), H].
Qed.

(** Every finding of the returned list is a finding of the loops. *)
Lemma validate_form_layout_findings cfg m :
  In m (validate_form_layout cfg) ->
  In m (all_diags (build_bounds_list 0 (field_entries cfg)))
  \/ m = MsgRead (length (field_entries cfg))
  \/ m = MsgAbort \/ m = MsgSuccess.
Proof.
  rewrite validate_form_layout_closed. cbv zeta.
  set (ds := all_diags _).
  intros [<- | Hin]; [tauto |].
  destruct (length ds <? 19)%nat.
  - apply in_app_or in Hin. destruct Hin as [Hin | Hin]; [tauto |].
    destruct ds; [destruct Hin as [<- | []]; tauto | contradiction].
  - apply in_app_or in Hin. destruct Hin as [Hin | [<- | []]]; [| tauto].
    left. apply (In_firstn _ _ _ Hin).
Qed.

(** Without truncation every finding of the loops is returned. *)
Lemma validate_form_layout_untruncated cfg m :
  abort_count (validate_form_layout cfg) = 0%nat ->
  In m (all_diags (build_bounds_list 0 (field_entries cfg))) ->
  In m (validate_form_layout cfg).
Proof.
  intros Hno Hin.
  destruct (validate_form_layout_cases cfg) as [Hcap Hfit].
  destruct (Nat.le_gt_cases 19
              (length (all_diags (build_bounds_list 0 (field_entries cfg)))))
    as [H | H].
  - destruct (Hcap H) as (_ & _ & Hone). congruence.
  - destruct (Hfit H) as (-> & _). right. apply in_or_app. left. exact Hin.
Qed.

(** C4 (the formula as stated).  With the boxes stored as
    [left, top, right, bottom], the stated test
    "not (a.right <= b.left or a.left >= b.right or a.top <= b.bottom or
    a.bottom >= b.top)" disagrees with the code on [0,0,10,10] against
    [9,0,20,10]: the code reports an overlap, the stated test is false
    because a.top = 0 <= 10 = b.bottom. *)
Lemma stated_overlap_formula_fails :
  ~ (bounds_overlap (Bbox 0 0 10 10) (Bbox 9 0 20 10) = true <->
     ~ (right_of (Bbox 0 0 10 10) <= left_of (Bbox 9 0 20 10)
        \/ left_of (Bbox 0 0 10 10) >= right_of (Bbox 9 0 20 10)
        \/ top_of (Bbox 0 0 10 10) <= bottom_of (Bbox 9 0 20 10)
        \/ bottom_of (Bbox 0 0 10 10) >= top_of (Bbox 9 0 20 10))%Q).
Proof.
  intros [H _]. apply H; [reflexivity |].
  right. right. left. vm_compute. discriminate.
Qed.

(** C4 (amended).  With the boxes stored as [left, top, right, bottom]
    (image space, top < bottom), the overlap test holds iff
    not (a.right <= b.left or a.left >= b.right or a.bottom <= b.top or
    a.top >= b.bottom); boxes that touch at an edge do not overlap;
    [0,0,10,10] against [10,0,20,10] gives no overlap diagnostic and
    against [9,0,20,10] gives one.  Every overlap diagnostic returned
    names a pair of boxes of the same page for which the test holds, so
    pairs on different pages are never reported; and when the list is
    not truncated by the cap, every such pair is reported. *)
Theorem bounds_overlap_spec :
  (forall a b : bbox,
      bounds_overlap a b = true <->
      ~ (right_of a <= left_of b \/ left_of a >= right_of b
         \/ bottom_of a <= top_of b \/ top_of a >= bottom_of b)%Q)
  /\ (forall a b : bbox,
         (right_of a == left_of b \/ left_of a == right_of b
          \/ bottom_of a == top_of b \/ top_of a == bottom_of b)%Q ->
         bounds_overlap a b = false)
  /\ (forall (cfg : config) (m : message),
         In m (validate_form_layout cfg) -> is_overlap_message m = true ->
         exists bi bj,
           ordered_pair (build_bounds_list 0 (field_entries cfg)) bi bj
           /\ fe_page_num (entry bi) = fe_page_num (entry bj)
           /\ bounds_overlap (bounds bi) (bounds bj) = true
           /\ m = overlap_message bi bj)
  /\ (forall (cfg : config) (bi bj : BoundsAndEntry),
         abort_count (validate_form_layout cfg) = 0%nat ->
         ordered_pair (build_bounds_list 0 (field_entries cfg)) bi bj ->
         fe_page_num (entry bi) = fe_page_num (entry bj) ->
         bounds_overlap (bounds bi) (bounds bj) = true ->
         In (overlap_message bi bj) (validate_form_layout cfg))
  /\ validate_form_layout touching_layout = [MsgRead 1; MsgSuccess]
  /\ validate_form_layout overlapping_layout
     = [MsgRead 1; MsgOverlapSame "Name" (Bbox 0 0 10 10) (Bbox 9 0 20 10)]
  /\ validate_form_layout two_pages_layout = [MsgRead 2; MsgSuccess].
Proof.
  split; [| split; [| split; [| split; [| split; [| split]]]]].
  - intros a b. rewrite bounds_overlap_true_iff.
    unfold left_of, right_of, top_of, bottom_of.
    split.
    + intros (H1 & H2 & H3 & H4) [H | [H | [H | H]]]; lra.
    + intros H. repeat split.
      * destruct (Qlt_le_dec (b0 a) (b2 b)); [assumption | exfalso; tauto].
      * destruct (Qlt_le_dec (b0 b) (b2 a)); [assumption | exfalso; tauto].
      * destruct (Qlt_le_dec (b1 a) (b3 b)); [assumption | exfalso; tauto].
      * destruct (Qlt_le_dec (b1 b) (b3 a)); [assumption | exfalso; tauto].
  - intros a b H.
    destruct (bounds_overlap a b) eqn:E; [| reflexivity].
    apply bounds_overlap_true_iff in E.
    unfold left_of, right_of, top_of, bottom_of in H.
    destruct E as (H1 & H2 & H3 & H4).
    destruct H as [H | [H | [H | H]]]; lra.
  - intros cfg m Hin Hm.
    apply validate_form_layout_findings in Hin.
    destruct Hin as [Hin | [-> | [-> | ->]]]; try discriminate Hm.
    destruct (all_diags_overlap_sound _ _ Hin Hm) as (bi & bj & Hord & Hhit & E).
    exists bi, bj. unfold overlap_hit in Hhit.
    apply andb_true_iff in Hhit. destruct Hhit as [Hp Hb].
    apply Z.eqb_eq in Hp. tauto.
  - intros cfg bi bj Hno Hord Hp Hb.
    apply validate_form_layout_untruncated; [exact Hno |].
    apply all_diags_overlap_complete; [exact Hord |].
    unfold overlap_hit. rewrite Hp, Z.eqb_refl, Hb. reflexivity.
  - reflexivity.
  - reflexivity.
  - reflexivity.
Qed.

Lemma bounds_overlap_spec_witness :
  In (overlap_message
        (MkBoundsAndEntry (Bbox 0 0 10 10) BLabel 0
           (FieldEntry "Name" 1 (Bbox 0 0 10 10) (Bbox 9 0 20 10) None))
        (MkBoundsAndEntry (Bbox 9 0 20 10) BEntry 0
           (FieldEntry "Name" 1 (Bbox 0 0 10 10) (Bbox 9 0 20 10) None)))
     (validate_form_layout overlapping_layout).
Proof.
  apply (proj1 (proj2 (proj2 (proj2 bounds_overlap_spec)))).
  - reflexivity.
  - exists [], [], []. reflexivity.
  - reflexivity.
  - reflexivity.
Defined.

(** ** LayoutValidator: the cases of the repository's test suite *)

Example test_no_overlaps :
  validate_form_layout
    (Config [FieldEntry "Name" 1 (Bbox 10 10 50 30) (Bbox 60 10 150 30) None;
             FieldEntry "Email" 1 (Bbox 10 40 50 60) (Bbox 60 40 150 60) None]
            [])
  = [MsgRead 2; MsgSuccess].
Proof. reflexivity. Qed.

Example test_label_entry_overlap_same_field :
  validate_form_layout
    (Config [FieldEntry "Name" 1 (Bbox 10 10 60 30) (Bbox 50 10 150 30) None]
            [])
  = [MsgRead 1;
     MsgOverlapSame "Name" (Bbox 10 10 60 30) (Bbox 50 10 150 30)].
Proof. reflexivity. Qed.

Example test_overlap_between_different_fields :
  validate_form_layout
    (Config [FieldEntry "Name" 1 (Bbox 10 10 50 30) (Bbox 60 10 150 30) None;
             FieldEntry "Email" 1 (Bbox 40 20 80 40) (Bbox 160 10 250 30) None]
            [])
  = [MsgRead 2;
     MsgOverlapOther "Name" BLabel (Bbox 10 10 50 30)
                     "Email" BLabel (Bbox 40 20 80 40);
     MsgOverlapOther "Name" BEntry (Bbox 60 10 150 30)
                     "Email" BLabel (Bbox 40 20 80 40)].
Proof. reflexivity. Qed.

Example test_entry_height_too_small :
  validate_form_layout
    (Config [FieldEntry "Name" 1 (Bbox 10 10 50 30) (Bbox 60 10 150 20)
               (Some (TextContent None None (Some 14%Q) None))] [])
  = [MsgRead 1; MsgHeight "Name" (20 - 10) 14].
Proof. reflexivity. Qed.

Example test_entry_height_adequate :
  validate_form_layout
    (Config [FieldEntry "Name" 1 (Bbox 10 10 50 30) (Bbox 60 10 150 30)
               (Some (TextContent None None (Some 14%Q) None))] [])
  = [MsgRead 1; MsgSuccess].
Proof. reflexivity. Qed.

Example test_no_text_content :
  validate_form_layout
    (Config [FieldEntry "Name" 1 (Bbox 10 10 50 30) (Bbox 60 10 150 20) None]
            [])
  = [MsgRead 1; MsgSuccess].
Proof. reflexivity. Qed.

Example test_edge_touching_boxes :
  validate_form_layout
    (Config [FieldEntry "Name" 1 (Bbox 10 10 50 30) (Bbox 50 10 150 30) None]
            [])
  = [MsgRead 1; MsgSuccess].
Proof. reflexivity. Qed.

(** Height 9 against text size 10 fails, height 10 passes. *)
Example height_nine_fails :
  validate_form_layout
    (Config [FieldEntry "Name" 1 (Bbox 10 10 50 30) (Bbox 60 10 150 19)
               (Some (TextContent None None (Some 10%Q) None))] [])
  = [MsgRead 1; MsgHeight "Name" (19 - 10) 10].
Proof. reflexivity. Qed.

Example height_ten_passes :
  validate_form_layout
    (Config [FieldEntry "Name" 1 (Bbox 10 10 50 30) (Bbox 60 10 150 20)
               (Some (TextContent None None (Some 10%Q) None))] [])
  = [MsgRead 1; MsgSuccess].
Proof. reflexivity. Qed.

(** ** OverlayRenderer: invariants of the two rendering loops *)

Lemma list_update_Forall {A : Type} (P : A -> Prop) (f : A -> A) :
  (forall p, P p -> P (f p)) ->
  forall l ix l', Forall P l -> list_update l ix f = Ok l' -> Forall P l'.
Proof.
  intros Hf. induction l as [| p rest IH]; intros ix l' Hl Hup.
  - destruct ix; discriminate Hup.
  - inversion Hl as [| ? ? Hp Hrest]; subst.
    destruct ix as [| ix]; simpl in Hup.
    + injection Hup as <-. constructor; auto.
    + destruct (list_update rest ix f) as [rest' |] eqn:E; [| discriminate Hup].
      injection Hup as <-. constructor; [assumption |].
      apply (IH ix); [assumption | exact E].
Qed.

Section AnnotationLoop.
Variables (reader : reader_pages) (cfg : config).
Variables (P : out_page -> Prop) (G : free_text -> Prop)
          (E : field_entry -> Prop).

Hypothesis P_add : forall p a,
  P p -> G a -> P (OutPage (op_annotations p ++ [a]) (op_merged p)).

Hypothesis G_built : forall e tc c content rect,
  E e -> fe_text_content e = Some tc -> tc_content tc = Some (c :: content) ->
  G (FreeText (c :: content) rect
       (from_option (tc_font tc) "Arial"%string)
       (from_option (tc_text_size tc) 14%Q)
       (from_option (tc_text_color tc) "000000"%string)).

Lemma annotate_entries_invariant :
  forall entries w count w' count',
    Forall E entries ->
    Forall P w ->
    annotate_entries reader cfg entries w count = Ok (w', count') ->
    Forall P w'.
Proof.
  induction entries as [| e rest IH]; intros w count w' count' He Hw Hrun.
  - injection Hrun as <- _. exact Hw.
  - inversion He as [| ? ? He1 Hrest]; subst.
    cbn [annotate_entries] in Hrun.
    destruct (next_page_info _ _) as [page_info |]; [| discriminate Hrun].
    cbn [bind] in Hrun.
    destruct (pdf_dims_get _ _) as [[pw ph] |]; [| discriminate Hrun].
    cbn [bind] in Hrun.
    destruct (convert_image_to_pdf_coords _ _ _ _ _) as [rect |];
      [| discriminate Hrun].
    cbn [bind] in Hrun.
    destruct (fe_text_content e) as [tc |] eqn:Etc; [| eauto].
    destruct (tc_content tc) as [[| c content] |] eqn:Ec; eauto.
    destruct (add_annotation _ _ _) as [w1 |] eqn:Eadd; [| discriminate Hrun].
    cbn [bind] in Hrun.
    apply (IH _ _ _ _ Hrest) with (2 := Hrun).
    unfold add_annotation in Eadd.
    destruct (py_index w _) as [ix |]; [| discriminate Eadd].
    cbn [bind] in Eadd.
    eapply list_update_Forall with (P := P); [| exact Hw | exact Eadd].
    intros p Hp. apply P_add; [exact Hp |].
    apply (G_built (e := e)); assumption.
Qed.
End AnnotationLoop.

Section EmbeddedLoop.
Variables (env : platform) (cjk_font_name : string).
Variables (reader : reader_pages) (cfg : config).
Variables (P : out_page -> Prop) (G : draw -> Prop)
          (E : field_entry -> Prop).

Hypothesis P_merge : forall p canvas,
  P p -> Forall G canvas ->
  P (OutPage (op_annotations p) (op_merged p ++ [canvas])).

Hypothesis G_drawn : forall e tc content font color x y,
  E e -> fe_text_content e = Some tc -> tc_content tc = Some content ->
  G (DrawString font (from_option (tc_text_size tc) 14%Q) color x y content).

Lemma draw_entries_invariant iw ih pw ph :
  forall entries canvas canvas',
    Forall E entries -> Forall G canvas ->
    draw_entries env cjk_font_name iw ih pw ph entries canvas = Ok canvas' ->
    Forall G canvas'.
Proof.
  induction entries as [| e rest IH]; intros canvas canvas' He Hc Hrun.
  - injection Hrun as <-. exact Hc.
  - inversion He as [| ? ? He1 Hrest]; subst.
    cbn [draw_entries] in Hrun.
    destruct (fe_text_content e) as [tc |] eqn:Etc; [| discriminate Hrun].
    cbn [getitem bind] in Hrun.
    destruct (tc_content tc) as [content |] eqn:Ec; [| discriminate Hrun].
    cbn [getitem bind] in Hrun.
    destruct (convert_image_to_pdf_coords _ _ _ _ _) as [[[[x y] r] t] |];
      [| discriminate Hrun].
    cbn [bind] in Hrun.
    apply (IH _ _ Hrest) with (2 := Hrun).
    apply Forall_app. split; [exact Hc |].
    constructor; [| constructor].
    apply (G_drawn (e := e)); assumption.
Qed.

Lemma overlay_pages_invariant :
  forall groups w total w' total',
    Forall (fun g => Forall E (snd g)) groups ->
    Forall P w ->
    overlay_pages env cjk_font_name reader cfg groups w total = Ok (w', total') ->
    Forall P w'.
Proof.
  induction groups as [| [page_num entries] rest IH];
    intros w total w' total' Hg Hw Hrun.
  - injection Hrun as <- _. exact Hw.
  - inversion Hg as [| ? ? Hg1 Hrest]; subst. cbn [snd] in Hg1.
    cbn [overlay_pages] in Hrun.
    destruct (pdf_dims_get _ _) as [[pw ph] |]; [| discriminate Hrun].
    cbn [bind] in Hrun.
    destruct (next_page_info _ _) as [page_info |]; [| discriminate Hrun].
    cbn [bind] in Hrun.
    destruct (draw_entries _ _ _ _ _ _ _ _) as [canvas |] eqn:Ed;
      [| discriminate Hrun].
    cbn [bind] in Hrun.
    destruct (merge_page _ _ _) as [w1 |] eqn:Em; [| discriminate Hrun].
    cbn [bind] in Hrun.
    apply (IH _ _ _ _ Hrest) with (2 := Hrun).
    unfold merge_page in Em.
    destruct (py_index w _) as [ix |]; [| discriminate Em].
    cbn [bind] in Em.
    eapply list_update_Forall with (P := P); [| exact Hw | exact Em].
    intros p Hp. apply P_merge; [exact Hp |].
    apply (draw_entries_invariant _ _ _ _ Hg1 (Forall_nil G) Ed).
Qed.
End EmbeddedLoop.

(** Every grouped entry is an entry of the layout that has content. *)
Lemma group_add_members (E : field_entry -> Prop) page_num e :
  E e -> forall d,
    Forall (fun g => Forall E (snd g)) d ->
    Forall (fun g => Forall E (snd g)) (group_add page_num e d).
Proof.
  intros He. induction d as [| [p es] d IH]; intros Hd; simpl.
  - repeat constructor. exact He.
  - inversion Hd as [| ? ? H1 H2]; subst. cbn [snd] in H1.
    destruct (p =? page_num)%Z; constructor; cbn [snd]; auto.
    apply Forall_app. split; [exact H1 | repeat constructor; exact He].
Qed.

Lemma group_entries_members (E : field_entry -> Prop) :
  forall entries d,
    Forall E entries ->
    Forall (fun g => Forall E (snd g)) d ->
    Forall (fun g => Forall E (snd g)) (group_entries entries d).
Proof.
  induction entries as [| e rest IH]; intros d He Hd; simpl.
  - exact Hd.
  - inversion He as [| ? ? He1 Hrest]; subst.
    destruct (entry_content e) as [[| c content] |]; auto.
    apply IH; [exact Hrest |]. apply group_add_members; assumption.
Qed.

Lemma copy_pages_blank reader :
  Forall (fun p => op_annotations p = [] /\ op_merged p = [])
         (copy_pages reader).
Proof.
  unfold copy_pages. apply Forall_forall. intros p Hin.
  apply in_map_iff in Hin. destruct Hin as (? & <- & _). split; reflexivity.
Qed.

(** ** OverlayRenderer: strategy selection *)

Lemma is_cjk_code_iff c : is_cjk_code c = true <-> wide_glyph c.
Proof.
  unfold is_cjk_code, wide_glyph, in_range.
  rewrite !orb_true_iff, !andb_true_iff, !Z.leb_le. tauto.
Qed.

Lemma has_cjk_characters_iff text :
  has_cjk_characters text = true <-> exists c, In c text /\ wide_glyph c.
Proof.
  induction text as [| code rest IH]; simpl.
  - split; [discriminate | intros (c & [] & _)].
  - destruct (is_cjk_code code) eqn:E.
    + split; [intros _ | reflexivity].
      exists code. split; [left; reflexivity | apply is_cjk_code_iff, E].
    + rewrite IH. split.
      * intros (c & Hin & Hc). exists c. split; [right; exact Hin | exact Hc].
      * intros (c & [-> | Hin] & Hc).
        -- apply is_cjk_code_iff in Hc. congruence.
        -- exists c. split; assumption.
Qed.

Lemma scan_has_cjk_iff entries :
  scan_has_cjk entries = true <->
  exists e tc content c,
    In e entries /\ fe_text_content e = Some tc /\ tc_content tc = Some content
    /\ In c content /\ wide_glyph c.
Proof.
  induction entries as [| e rest IH]; simpl.
  - split; [discriminate | intros (? & ? & ? & ? & [] & _)].
  - assert (Later :
      (exists e' tc content c,
          In e' rest /\ fe_text_content e' = Some tc
          /\ tc_content tc = Some content /\ In c content /\ wide_glyph c) ->
      exists e' tc content c,
        (e = e' \/ In e' rest) /\ fe_text_content e' = Some tc
        /\ tc_content tc = Some content /\ In c content /\ wide_glyph c).
    { intros (e' & tc & content & c & Hin & H). exists e', tc, content, c.
      split; [right; exact Hin | exact H]. }
    unfold entry_content.
    destruct (fe_text_content e) as [tc |] eqn:Etc.
    + destruct (tc_content tc) as [content |] eqn:Ec.
      * destruct (has_cjk_characters content) eqn:Eh.
        -- split; [intros _ | reflexivity].
           apply has_cjk_characters_iff in Eh. destruct Eh as (c & Hin & Hc).
           exists e, tc, content, c. tauto.
        -- rewrite IH. split; [exact Later |].
           intros (e' & tc' & content' & c & [<- | Hin] & Ht & Hcn & Hc).
           ++ assert (content' = content) as -> by congruence.
              assert (has_cjk_characters content = true)
                by (apply has_cjk_characters_iff; exists c; exact Hc).
              congruence.
           ++ exists e', tc', content', c. tauto.
      * rewrite IH. split; [exact Later |].
        intros (e' & tc' & content' & c & [<- | Hin] & Ht & Hcn & Hc).
        -- congruence.
        -- exists e', tc', content', c. tauto.
    + rewrite IH. split; [exact Later |].
      intros (e' & tc' & content' & c & [<- | Hin] & Ht & Hcn & Hc).
      * congruence.
      * exists e', tc', content', c. tauto.
Qed.

Lemma scan_has_cjk_needs cfg :
  scan_has_cjk (field_entries cfg) = true <-> needs_wide_glyphs cfg.
Proof. apply scan_has_cjk_iff. Qed.

(** The annotation strategy merges no overlay page and prints no line
    of the embedded-glyph path. *)
Lemma annotation_strategy_pure reader cfg :
  forallb (fun l => negb (is_font_line l))
          (fst (annotation_strategy reader cfg)) = true
  /\ forall w, snd (annotation_strategy reader cfg) = Ok w ->
               Forall (fun p => op_merged p = []) w.
Proof.
  unfold annotation_strategy.
  destruct (annotate_entries _ _ _ _ _) as [[w count] |] eqn:E.
  - split; [reflexivity |]. intros w0 [= <-].
    eapply (@annotate_entries_invariant reader cfg
              (fun p => op_merged p = []) (fun _ => True) (fun _ => True));
      [| | | | exact E].
    + intros p a Hp _. exact Hp.
    + intros. exact I.
    + apply Forall_forall. intros. exact I.
    + eapply Forall_impl; [| apply copy_pages_blank]. intros p H. apply H.
  - split; [reflexivity |]. intros w [=].
Qed.

(** The embedded-glyph renderer attaches no annotation. *)
Lemma reportlab_no_annotation env reader cfg name w :
  snd (apply_text_overlays_with_reportlab env reader (copy_pages reader)
         cfg name) = Ok w ->
  Forall (fun p => op_annotations p = []) w.
Proof.
  unfold apply_text_overlays_with_reportlab. cbv zeta.
  destruct (overlay_pages _ _ _ _ _ _ _) as [[w' total] |] eqn:E;
    [| intros [=]].
  intros [= <-].
  eapply (@overlay_pages_invariant env name reader cfg
            (fun p => op_annotations p = [])
            (fun _ => True) (fun _ => True));
    [| | | | exact E].
  - intros p canvas Hp _. exact Hp.
  - intros. exact I.
  - apply group_entries_members; [| constructor].
    apply Forall_forall. intros. exact I.
  - eapply Forall_impl; [| apply copy_pages_blank]. intros p H. apply H.
Qed.

(** *** Every text entry is rendered, by the selected strategy *)

Lemma list_update_sum {A : Type} (mu : A -> nat) (f : A -> A) (n : nat) :
  (forall p, mu (f p) = (mu p + n)%nat) ->
  forall l ix l',
    list_update l ix f = Ok l' ->
    list_sum (map mu l') = (list_sum (map mu l) + n)%nat.
Proof.
  intros Hf. induction l as [| p rest IH]; intros ix l' Hup.
  - destruct ix; discriminate Hup.
  - destruct ix as [| ix]; simpl in Hup.
    + injection Hup as <-. simpl. rewrite Hf. lia.
    + destruct (list_update rest ix f) as [rest' |] eqn:E; [| discriminate Hup].
      injection Hup as <-. simpl. rewrite (IH ix rest' E). lia.
Qed.

Lemma page_draws_merge p canvas :
  page_draws (OutPage (op_annotations p) (op_merged p ++ [canvas]))
  = (page_draws p + length canvas)%nat.
Proof.
  unfold page_draws. cbn [op_merged].
  rewrite map_app, list_sum_app. simpl. lia.
Qed.

Lemma draw_entries_length env name iw ih pw ph :
  forall entries canvas canvas',
    draw_entries env name iw ih pw ph entries canvas = Ok canvas' ->
    length canvas' = (length canvas + length entries)%nat.
Proof.
  induction entries as [| e rest IH]; intros canvas canvas' Hrun.
  - injection Hrun as <-. simpl. lia.
  - cbn [draw_entries] in Hrun.
    destruct (fe_text_content e) as [tc |]; [| discriminate Hrun].
    cbn [getitem bind] in Hrun.
    destruct (tc_content tc) as [content |]; [| discriminate Hrun].
    cbn [getitem bind] in Hrun.
    destruct (convert_image_to_pdf_coords _ _ _ _ _) as [[[[x y] r] t] |];
      [| discriminate Hrun].
    cbn [bind] in Hrun.
    rewrite (IH _ _ Hrun), length_app. simpl. lia.
Qed.

Lemma overlay_pages_total env name reader cfg :
  forall groups w total w' total',
    overlay_pages env name reader cfg groups w total = Ok (w', total') ->
    draw_total w' = (draw_total w + group_size groups)%nat
    /\ total' = (total + group_size groups)%nat.
Proof.
  induction groups as [| [page_num entries] rest IH];
    intros w total w' total' Hrun.
  - injection Hrun as <- <-. unfold group_size. simpl. lia.
  - cbn [overlay_pages] in Hrun.
    destruct (pdf_dims_get _ _) as [[pw ph] |]; [| discriminate Hrun].
    cbn [bind] in Hrun.
    destruct (next_page_info _ _) as [page_info |]; [| discriminate Hrun].
    cbn [bind] in Hrun.
    destruct (draw_entries _ _ _ _ _ _ _ _) as [canvas |] eqn:Ed;
      [| discriminate Hrun].
    cbn [bind] in Hrun.
    destruct (merge_page _ _ _) as [w1 |] eqn:Em; [| discriminate Hrun].
    cbn [bind] in Hrun.
    destruct (IH _ _ _ _ Hrun) as [Hd Ht].
    apply draw_entries_length in Ed. cbn [length] in Ed.
    unfold merge_page in Em.
    destruct (py_index w _) as [ix |]; [| discriminate Em].
    cbn [bind] in Em.
    apply (@list_update_sum _ page_draws _ (length canvas)) in Em;
      [| intros p; apply page_draws_merge].
    unfold draw_total in *. unfold group_size in *. cbn [map list_sum snd].
    rewrite Hd, Ht, Em, Ed.
    assert (Hcons : forall a l, list_sum (a :: l) = (a + list_sum l)%nat)
      by reflexivity.
    rewrite !Hcons. split; lia.
Qed.

Lemma group_add_size page_num e d :
  group_size (group_add page_num e d) = S (group_size d).
Proof.
  unfold group_size. induction d as [| [p es] d IH]; simpl.
  - reflexivity.
  - destruct (p =? page_num)%Z; simpl.
    + rewrite length_app. simpl. lia.
    + rewrite IH. lia.
Qed.

Lemma group_entries_size entries :
  forall d,
    group_size (group_entries entries d)
    = (group_size d + length (filter has_text entries))%nat.
Proof.
  induction entries as [| e rest IH]; intros d; simpl.
  - lia.
  - unfold has_text at 1.
    destruct (entry_content e) as [[| c content] |]; rewrite IH; simpl;
      try lia.
    rewrite group_add_size. lia.
Qed.

Lemma annotate_entries_total reader cfg :
  forall entries w count w' count',
    annotate_entries reader cfg entries w count = Ok (w', count') ->
    annotation_total w'
    = (annotation_total w + length (filter has_text entries))%nat
    /\ count' = (count + length (filter has_text entries))%nat.
Proof.
  induction entries as [| e rest IH]; intros w count w' count' Hrun.
  - injection Hrun as <- <-. simpl. lia.
  - cbn [annotate_entries] in Hrun.
    destruct (next_page_info _ _) as [page_info |]; [| discriminate Hrun].
    cbn [bind] in Hrun.
    destruct (pdf_dims_get _ _) as [[pw ph] |]; [| discriminate Hrun].
    cbn [bind] in Hrun.
    destruct (convert_image_to_pdf_coords _ _ _ _ _) as [rect |];
      [| discriminate Hrun].
    cbn [bind] in Hrun.
    assert (Hh : has_text e
                 = match fe_text_content e with
                   | Some tc => match tc_content tc with
                                | Some (_ :: _) => true
                                | _ => false
                                end
                   | None => false
                   end)
      by (unfold has_text, entry_content;
          destruct (fe_text_content e); reflexivity).
    cbn [filter]. rewrite Hh. clear Hh.
    destruct (fe_text_content e) as [tc |]; [| apply (IH _ _ _ _ Hrun)].
    destruct (tc_content tc) as [[| c content] |];
      try apply (IH _ _ _ _ Hrun).
    destruct (add_annotation _ _ _) as [w1 |] eqn:Eadd; [| discriminate Hrun].
    cbn [bind] in Hrun.
    destruct (IH _ _ _ _ Hrun) as [Ha Hc].
    unfold add_annotation in Eadd.
    destruct (py_index w _) as [ix |]; [| discriminate Eadd].
    cbn [bind] in Eadd.
    apply (@list_update_sum _ (fun p => length (op_annotations p)) _ 1%nat)
      in Eadd;
      [| intros p; cbn [op_annotations]; rewrite length_app; reflexivity].
    unfold annotation_total in *. cbn [length].
    rewrite Ha, Hc, Eadd. lia.
Qed.

Lemma blank_totals w :
  Forall (fun p => op_annotations p = [] /\ op_merged p = []) w ->
  annotation_total w = 0%nat /\ draw_total w = 0%nat.
Proof.
  unfold annotation_total, draw_total, page_draws.
  induction 1 as [| p w [Ha Hm] _ [IH1 IH2]]; simpl.
  - split; reflexivity.
  - rewrite Ha, Hm, IH1, IH2. split; reflexivity.
Qed.

Lemma no_annotation_total w :
  Forall (fun p => op_annotations p = []) w -> annotation_total w = 0%nat.
Proof.
  unfold annotation_total.
  induction 1 as [| p w Ha _ IH]; simpl; [reflexivity |].
  rewrite Ha, IH. reflexivity.
Qed.

Lemma no_merge_total w :
  Forall (fun p => op_merged p = []) w -> draw_total w = 0%nat.
Proof.
  unfold draw_total, page_draws.
  induction 1 as [| p w Hm _ IH]; simpl; [reflexivity |].
  rewrite Hm, IH. reflexivity.
Qed.

(** A document written by the embedded-glyph renderer holds one
    reportlab drawing per text entry of the layout. *)
Lemma reportlab_draws_all env reader cfg name w :
  snd (apply_text_overlays_with_reportlab env reader (copy_pages reader)
         cfg name) = Ok w ->
  draw_total w = length (text_entries cfg).
Proof.
  unfold apply_text_overlays_with_reportlab. cbv zeta.
  destruct (overlay_pages _ _ _ _ _ _ _) as [[w' total] |] eqn:E;
    [| intros [=]].
  intros [= <-].
  destruct (overlay_pages_total _ _ _ _ _ _ _ E) as [Hd _].
  rewrite Hd, group_entries_size.
  destruct (blank_totals (copy_pages_blank reader)) as [_ ->].
  unfold group_size, text_entries. simpl. lia.
Qed.

(** A document written by the annotation strategy holds one free-text
    annotation per text entry of the layout. *)
Lemma annotation_strategy_all reader cfg w :
  snd (annotation_strategy reader cfg) = Ok w ->
  annotation_total w = length (text_entries cfg).
Proof.
  unfold annotation_strategy.
  destruct (annotate_entries _ _ _ _ _) as [[w' count] |] eqn:E;
    [| intros [=]].
  intros [= <-].
  destruct (annotate_entries_total _ _ _ _ _ E) as [Ha _].
  rewrite Ha.
  destruct (blank_totals (copy_pages_blank reader)) as [-> _].
  reflexivity.
Qed.



(** The two runs of the specification's examples. *)
Example cjk_layout_run :
  apply_text_overlays noto_only one_page cjk_layout
  = ([LUsingFont "NotoSansCJK"; LSaved; LCountEmbedded 2],
     Ok [OutPage []
           [[DrawString "Helvetica" 14 "000000"
               (20 * (400 / 200)) (200 - 20 * (200 / 100)) [72%Z; 105%Z];
             DrawString "NotoSansCJK" 14 "000000"
               (20 * (400 / 200)) (200 - 20 * (200 / 100)) [0x4E2D%Z]]]])%Q.
Proof. reflexivity. Qed.

Example ascii_layout_run :
  apply_text_overlays no_fonts one_page ascii_layout
  = ([LSaved; LCountAnnotations 1],
     Ok [OutPage
           [FreeText [72%Z; 105%Z]
              (20 * (400 / 200), 200 - 20 * (200 / 100),
               100 * (400 / 200), 200 - 0 * (200 / 100))
              "Arial" 14 "000000"]
           []])%Q.
Proof. reflexivity. Qed.

(** ** OverlayRenderer: no font, no output *)

Lemma find_in_table_none env table :
  find_in_table env table = None <->
  forall path name, In (path, name) table -> path_exists env path = false.
Proof.
  induction table as [| [p n] rest IH]; simpl.
  - split; [intros _ ? ? [] | reflexivity].
  - destruct (path_exists env p) eqn:E.
    + split; [discriminate |]. intros H.
      rewrite (H p n) in E by (left; reflexivity). discriminate E.
    + rewrite IH. split.
      * intros H path name [[= <- <-] | Hin]; [exact E | apply (H _ _ Hin)].
      * intros H path name Hin. apply (H path name). right. exact Hin.
Qed.

(** C3.  When the layout holds wide-glyph text and no capable font is
    available -- none of the listed font files exists, or the first
    existing one fails to register -- the run ends with [sys.exit(1)]
    after printing the guidance (the error line, the install hints and
    every supported font path), and no output document is written. *)
Theorem no_font_aborts :
  forall (env : platform) (reader : reader_pages) (cfg : config),
    needs_wide_glyphs cfg ->
    ((forall path name,
         In (path, name) CJK_FONT_PATHS -> path_exists env path = false)
     \/ (exists path name,
            find_cjk_font env = Some (path, name)
            /\ register_ok env name path = false)) ->
    snd (apply_text_overlays env reader cfg) = Raise (SystemExit 1)
    /\ exists warnings,
         fst (apply_text_overlays env reader cfg) = warnings ++ fatal_guidance
         /\ forallb (fun l => match l with
                              | LRegisterWarning _ => true
                              | _ => false
                              end) warnings = true.
Proof.
  intros env reader cfg Hwide Hfont.
  unfold apply_text_overlays.
  apply scan_has_cjk_needs in Hwide. rewrite Hwide.
  unfold embedded_glyph_strategy, register_cjk_font.
  destruct Hfont as [Hnone | (path & name & Hfound & Hreg)].
  - apply find_in_table_none in Hnone. unfold find_cjk_font. rewrite Hnone.
    split; [reflexivity |]. exists []. split; reflexivity.
  - rewrite Hfound. destruct (nonempty path).
    + rewrite Hreg. split; [reflexivity |].
      exists [LRegisterWarning name]. split; reflexivity.
    + split; [reflexivity |]. exists []. split; reflexivity.
Qed.

Lemma no_font_aborts_witness :
  snd (apply_text_overlays no_fonts one_page cjk_layout)
  = Raise (SystemExit 1)
  /\ exists warnings,
       fst (apply_text_overlays no_fonts one_page cjk_layout)
       = warnings ++ fatal_guidance
       /\ forallb (fun l => match l with
                            | LRegisterWarning _ => true
                            | _ => false
                            end) warnings = true.
Proof.
  apply (no_font_aborts no_fonts one_page (cfg := cjk_layout)).
  - exists cjk_entry, (TextContent (Some [0x4E2D%Z]) None None None),
      [0x4E2D%Z], 0x4E2D%Z.
    repeat split; try reflexivity.
    + right. left. reflexivity.
    + left. reflexivity.
    + unfold wide_glyph. lia.
  - left. intros path name _. reflexivity.
Defined.

Example broken_font_run :
  apply_text_overlays broken_font one_page cjk_layout
  = (LRegisterWarning "PingFang" :: fatal_guidance, Raise (SystemExit 1)).
Proof. reflexivity. Qed.

(** ** The default text size *)












(** ** FieldModelExtractor: the shape of published elements *)

Section DictFacts.
Variables (K V : Type) (eqb : K -> K -> bool) (P : V -> Prop).

Lemma dict_get_In (d : dict K V) k v :
  dict_get eqb d k = Some v -> In v (dict_values d).
Proof.
  induction d as [| [k' v'] d IH]; simpl; [discriminate |].
  destruct (eqb k' k); [intros [= <-]; left; reflexivity |].
  intros H. right. apply IH, H.
Qed.

Lemma dict_get_Forall (d : dict K V) k v :
  Forall P (dict_values d) -> dict_get eqb d k = Some v -> P v.
Proof.
  intros Hd Hget. rewrite Forall_forall in Hd.
  apply Hd. apply (dict_get_In _ _ Hget).
Qed.

Lemma dict_set_Forall (d : dict K V) k v :
  Forall P (dict_values d) -> P v -> Forall P (dict_values (dict_set eqb d k v)).
Proof.
  intros Hd Hv. induction d as [| [k' v'] d IH]; simpl.
  - repeat constructor. exact Hv.
  - inversion Hd as [| ? ? H1 H2]; subst.
    destruct (eqb k' k); simpl; constructor; auto.
Qed.
End DictFacts.

Lemma build_element_dict_shape fld element_id :
  shape_ok (build_element_dict fld element_id) = true
  /\ el_available_options (build_element_dict fld element_id) = None
  /\ el_element_id (build_element_dict fld element_id) = element_id.
Proof.
  unfold build_element_dict. cbv zeta.
  destruct (opt_str_eqb (fld_FT fld) "/Tx"); [repeat split |].
  destruct (opt_str_eqb (fld_FT fld) "/Btn").
  - destruct (from_option (fld_States fld) []) as [| s0 [| s1 [| s2 l]]];
      try (destruct (str_in _ _)); repeat split.
  - destruct (opt_str_eqb (fld_FT fld) "/Ch"); repeat split.
Qed.

Lemma set_location_leaf e page_num rect :
  leaf_ok e -> leaf_ok (set_location e page_num rect).
Proof. intros H. exact H. Qed.

Lemma append_option_new element_id page_num o :
  group_ok (append_option (new_option_group element_id page_num) o).
Proof. repeat split. Qed.

Lemma append_option_group g o :
  group_ok g -> group_ok (append_option g o).
Proof.
  intros (Hc & Hty & Hp). unfold group_ok, carries_required in *.
  unfold append_option. cbn. rewrite Hty in *.
  repeat split; try assumption.
  destruct (is_none (el_on_value g)), (is_none (el_off_value g)),
    (is_none (el_menu_items g)); try discriminate Hc.
  destruct (from_option (el_available_options g) []); reflexivity.
Qed.

Lemma collect_fields_inv fields :
  forall elements_by_id groups,
    Forall leaf_ok (dict_values elements_by_id) ->
    Forall leaf_ok (dict_values (fst (collect_fields fields elements_by_id groups))).
Proof.
  induction fields as [| [element_id fld] rest IH];
    intros elements_by_id groups H; simpl.
  - exact H.
  - destruct (fld_Kids fld).
    + destruct (opt_str_eqb _ _); apply IH, H.
    + apply IH. apply dict_set_Forall; [exact H |].
      destruct (build_element_dict_shape fld element_id) as (Hs & Ho & _).
      split; assumption.
Qed.

Lemma visit_annotation_inv groups page_idx ann st :
  extract_inv st -> extract_inv (visit_annotation groups page_idx ann st).
Proof.
  intros Hinv. unfold visit_annotation.
  destruct st as [elements_by_id option_groups_by_id].
  destruct Hinv as [He Hg]. cbn [fst snd] in He, Hg.
  destruct (build_complete_element_id ann) as [element_id |];
    [| split; assumption].
  destruct (dict_get String.eqb elements_by_id element_id) as [e |] eqn:Eget.
  - split; [| exact Hg]. cbn [fst].
    apply dict_set_Forall; [exact He |].
    apply set_location_leaf. apply (dict_get_Forall _ _ _ He Eget).
  - destruct (str_in element_id groups); [| split; assumption].
    destruct (ann_AP_N ann) as [names |]; [| split; assumption].
    destruct (filter _ names) as [| active [| ? ?]]; try (split; assumption).
    split; [exact He |]. cbn [snd].
    apply dict_set_Forall; [exact Hg |].
    destruct (dict_get String.eqb option_groups_by_id element_id) as [g |]
      eqn:Eg.
    + apply append_option_group. apply (dict_get_Forall _ _ _ Hg Eg).
    + apply append_option_new.
Qed.

Lemma visit_pages_inv groups pgs :
  forall page_idx st,
    extract_inv st -> extract_inv (visit_pages groups page_idx pgs st).
Proof.
  induction pgs as [| annotations rest IH]; intros page_idx st Hinv; simpl.
  - exact Hinv.
  - apply IH. revert st Hinv.
    induction annotations as [| ann anns IHa]; intros st Hinv; simpl.
    + exact Hinv.
    + apply IHa. apply visit_annotation_inv, Hinv.
Qed.

(** ** FieldModelExtractor: the order of the published list *)

Lemma key_lt_iff k1 k2 : key_lt k1 k2 = true <-> key_less k1 k2.
Proof.
  destruct k1 as [p1 [y1 x1]], k2 as [p2 [y2 x2]].
  unfold key_lt, key_less. cbn [fst snd].
  destruct (Z.eqb_spec p1 p2) as [-> | Hp]; cbn [negb].
  - destruct (Qeq_bool y1 y2) eqn:Ey; cbn [negb].
    + apply Qeq_bool_iff in Ey.
      destruct (Qeq_bool x1 x2) eqn:Ex; cbn [negb].
      * apply Qeq_bool_iff in Ex. split; [discriminate |].
        intros [H | [_ [H | [_ H]]]]; [lia | lra | lra].
      * rewrite Qltb_spec. split.
        -- intros H. right. split; [reflexivity |]. right. tauto.
        -- intros [H | [_ [H | [_ H]]]]; [lia | lra | exact H].
    + apply Qeq_bool_false_neq in Ey. rewrite Qltb_spec. split.
      * intros H. right. split; [reflexivity |]. left. exact H.
      * intros [H | [_ [H | [H _]]]]; [lia | exact H | contradiction].
  - rewrite Z.ltb_lt. split.
    + intros H. left. exact H.
    + intros [H | [H _]]; [exact H | contradiction].
Qed.

Lemma key_lt_false_iff k1 k2 : key_lt k2 k1 = false <-> key_le k1 k2.
Proof.
  rewrite <- not_true_iff_false, key_lt_iff.
  destruct k1 as [p1 [y1 x1]], k2 as [p2 [y2 x2]].
  unfold key_less, key_le. cbn [fst snd].
  split.
  - intros H.
    destruct (Z.lt_trichotomy p1 p2) as [Hp | [Hp | Hp]].
    + left. exact Hp.
    + right. split; [exact Hp |].
      destruct (Q_dec y1 y2) as [[Hy | Hy] | Hy].
      * left. exact Hy.
      * exfalso. apply H. right. split; [symmetry; exact Hp |]. left. exact Hy.
      * right. split; [exact Hy |].
        destruct (Qlt_le_dec x2 x1) as [Hx | Hx]; [| exact Hx].
        exfalso. apply H. right. split; [symmetry; exact Hp |].
        right. split; [symmetry; exact Hy | exact Hx].
    + exfalso. apply H. left. exact Hp.
  - intros [Hp | [Hp [Hy | [Hy Hx]]]] [Hq | [Hq [Hz | [Hz Hw]]]];
      try lia; lra.
Qed.

Lemma key_le_refl k : key_le k k.
Proof.
  right. split; [reflexivity |]. right. split; [reflexivity | apply Qle_refl].
Qed.

Lemma key_le_trans k1 k2 k3 : key_le k1 k2 -> key_le k2 k3 -> key_le k1 k3.
Proof.
  destruct k1 as [p1 [y1 x1]], k2 as [p2 [y2 x2]], k3 as [p3 [y3 x3]].
  unfold key_le. cbn [fst snd].
  intros [Hp | [Hp [Hy | [Hy Hx]]]] [Hq | [Hq [Hz | [Hz Hw]]]];
    try (left; lia); right; (split; [lia |]);
    try (left; lra); right; split; lra.
Qed.

Lemma key_le_total k1 k2 : key_le k1 k2 \/ key_le k2 k1.
Proof.
  destruct (key_lt k2 k1) eqn:E.
  - right. apply key_lt_iff in E.
    destruct k1 as [p1 [y1 x1]], k2 as [p2 [y2 x2]].
    unfold key_less, key_le in *. cbn [fst snd] in *.
    destruct E as [H | [H [Hy | [Hy Hx]]]].
    + left. exact H.
    + right. split; [exact H |]. left. exact Hy.
    + right. split; [exact H |]. right. split; [exact Hy | lra].
  - left. apply key_lt_false_iff, E.
Qed.

Lemma insert_sorted_perm x l : Permutation (x :: l) (insert_sorted x l).
Proof.
  induction l as [| y l IH]; simpl.
  - apply Permutation_refl.
  - destruct (key_lt (fst y) (fst x)).
    + eapply perm_trans; [apply perm_swap |]. apply perm_skip, IH.
    + apply Permutation_refl.
Qed.

Lemma stable_sort_perm l : Permutation l (stable_sort l).
Proof.
  induction l as [| x l IH]; simpl.
  - apply perm_nil.
  - eapply perm_trans; [apply perm_skip, IH | apply insert_sorted_perm].
Qed.

Lemma insert_sorted_hd x y l :
  keyed_le y x -> HdRel keyed_le y l -> HdRel keyed_le y (insert_sorted x l).
Proof.
  intros Hyx Hhd. destruct l as [| z l]; simpl.
  - constructor. exact Hyx.
  - destruct (key_lt (fst z) (fst x)); constructor.
    + inversion Hhd; assumption.
    + exact Hyx.
Qed.

Lemma insert_sorted_sorted x l :
  Sorted keyed_le l -> Sorted keyed_le (insert_sorted x l).
Proof.
  induction 1 as [| y l Hl IH Hhd]; simpl.
  - repeat constructor.
  - destruct (key_lt (fst y) (fst x)) eqn:E.
    + constructor; [exact IH |].
      apply insert_sorted_hd; [| exact Hhd].
      unfold keyed_le. apply key_lt_iff in E.
      destruct (key_le_total (fst y) (fst x)) as [H | H]; [exact H |].
      apply key_lt_false_iff in H.
      apply key_lt_iff in E. congruence.
    + constructor; [constructor; assumption |].
      constructor. unfold keyed_le. apply key_lt_false_iff, E.
Qed.

Lemma stable_sort_sorted l : StronglySorted keyed_le (stable_sort l).
Proof.
  apply Sorted_StronglySorted.
  - intros a b c. apply key_le_trans.
  - induction l as [| x l IH]; simpl.
    + constructor.
    + apply insert_sorted_sorted, IH.
Qed.

Lemma decorate_spec l :
  forall dl, decorate l = Ok dl ->
             map snd dl = l
             /\ Forall (fun ke => sort_key (snd ke) = Ok (fst ke)) dl.
Proof.
  induction l as [| e rest IH]; intros dl H; simpl in H.
  - injection H as <-. split; constructor.
  - destruct (sort_key e) as [k |] eqn:Ek; [| discriminate H].
    cbn [bind] in H.
    destruct (decorate rest) as [rest' |]; [| discriminate H].
    cbn [bind] in H. injection H as <-.
    destruct (IH rest' eq_refl) as [Hm Hf].
    split; [simpl; rewrite Hm; reflexivity |].
    constructor; [exact Ek | exact Hf].
Qed.

Lemma keyed_sorted_elements dl :
  Forall (fun ke => sort_key (snd ke) = Ok (fst ke)) dl ->
  StronglySorted keyed_le dl ->
  StronglySorted element_le (map snd dl).
Proof.
  intros Hk Hs. induction Hs as [| x l Hl IH Hall]; simpl.
  - constructor.
  - inversion Hk as [| ? ? Hx Hrest]; subst.
    constructor; [apply IH, Hrest |].
    apply Forall_forall. intros e Hin.
    apply in_map_iff in Hin. destruct Hin as (y & <- & Hy).
    rewrite Forall_forall in Hall, Hrest.
    exists (fst x), (fst y). repeat split; auto. apply Hall, Hy.
Qed.

Lemma sort_elements_spec l l' :
  sort_elements l = Ok l' ->
  Permutation l l' /\ StronglySorted element_le l'.
Proof.
  unfold sort_elements.
  destruct (decorate l) as [dl |] eqn:E; [| discriminate].
  cbn [bind]. intros [= <-].
  destruct (decorate_spec _ E) as [Hm Hk].
  split.
  - rewrite <- Hm. apply Permutation_map, stable_sort_perm.
  - apply keyed_sorted_elements; [| apply stable_sort_sorted].
    rewrite Forall_forall in *. intros ke Hin. apply Hk.
    apply (Permutation_in _ (Permutation_sym (stable_sort_perm dl)) Hin).
Qed.

Lemma merged_elements_publishable fields pgs :
  Forall (fun e => publishable e = true) (merged_elements fields pgs).
Proof.
  unfold merged_elements.
  pose proof (@collect_fields_inv fields [] [] (Forall_nil _)) as Hc.
  destruct (collect_fields fields [] []) as [elements_by_id groups].
  cbn [fst] in Hc.
  assert (Hinv : extract_inv (elements_by_id, [])) by (split; [exact Hc | constructor]).
  apply (visit_pages_inv groups pgs 0) in Hinv.
  destruct (visit_pages groups 0 pgs (elements_by_id, []))
    as [elements_by_id' option_groups_by_id].
  destruct Hinv as [He Hg]. cbn [fst snd] in He, Hg.
  apply Forall_app. split.
  - unfold elements_with_location. apply Forall_forall. intros e Hin.
    apply filter_In in Hin. destruct Hin as [Hin Hp].
    rewrite Forall_forall in He. destruct (He e Hin) as [Hs _].
    unfold publishable. rewrite Hs.
    destruct (el_page_num e); [reflexivity | discriminate Hp].
  - eapply Forall_impl; [| exact Hg].
    intros g (Hc' & _ & Hp). unfold publishable, shape_ok.
    rewrite Hc', Hp. reflexivity.
Qed.




Lemma parse_form_elements_spec reader elements :
  parse_form_elements reader = Ok elements ->
  exists fields,
    get_fields reader = Some fields
    /\ Permutation (merged_elements fields (pages reader)) elements
    /\ StronglySorted element_le elements
    /\ Forall (fun e => publishable e = true) elements.
Proof.
  unfold parse_form_elements.
  destruct (get_fields reader) as [fields |]; [| discriminate].
  intros Hs. exists fields. split; [reflexivity |].
  destruct (sort_elements_spec _ Hs) as [Hperm Hsorted].
  repeat split; try assumption.
  apply Forall_forall. intros e Hin.
  pose proof (merged_elements_publishable fields (pages reader)) as Hm.
  rewrite Forall_forall in Hm. apply Hm.
  apply (Permutation_in _ (Permutation_sym Hperm) Hin).
Qed.

(** *** Ties keep their order *)










(** ** FieldModelExtractor: button fields without two states *)

(** Every published element has the attributes of its type, except
    that a toggle_box may come without [on_value] and [off_value]. *)
Lemma published_shape reader elements :
  parse_form_elements reader = Ok elements ->
  Forall (fun e => carries_required e = true \/ bare_toggle e = true) elements.
Proof.
  intros Hp.
  destruct (parse_form_elements_spec reader Hp) as (_ & _ & _ & _ & Hpub).
  eapply Forall_impl; [| exact Hpub].
  intros e He. unfold publishable, shape_ok in He.
  apply andb_true_iff in He. destruct He as [He _].
  apply orb_true_iff in He. exact He.
Qed.

(** C9 (evaluation at the failing input).  For a button field without
    exactly two declared states the extractor publishes a toggle_box
    that carries neither [on_value] nor [off_value], so the shape
    invariant fails on the published model, and validating any fill
    value against that element raises [KeyError] instead of returning a
    diagnostic. *)
Theorem toggle_without_two_states :
  parse_form_elements pushbutton_reader = Ok [published_pushbutton]
  /\ carries_required published_pushbutton = false
  /\ el_on_value published_pushbutton = None
  /\ el_off_value published_pushbutton = None
  /\ validate_element_value published_pushbutton "/Yes" = Raise KeyError
  /\ (exists e, parse_form_elements three_state_reader = Ok [e]
                /\ el_element_type e = toggle_box
                /\ carries_required e = false).
Proof.
  repeat split. eexists. repeat split.
Qed.

(** ** FormFiller: fill-value validation *)

Lemma str_in_iff s l : str_in s l = true <-> In s l.
Proof.
  unfold str_in. rewrite existsb_exists. split.
  - intros (x & Hin & Heq). apply String.eqb_eq in Heq. subst. exact Hin.
  - intros Hin. exists s. split; [exact Hin | apply String.eqb_refl].
Qed.

Lemma str_in_false_iff s l : str_in s l = false <-> ~ In s l.
Proof.
  rewrite <- str_in_iff. destruct (str_in s l); split; congruence.
Qed.



(** ** FormFiller: all-or-nothing filling *)

Section DictLookup.
Variables (K V : Type) (eqb : K -> K -> bool).
Hypothesis eqb_eq : forall a b, eqb a b = true <-> a = b.

Lemma dict_get_set (d : dict K V) k v q :
  dict_get eqb (dict_set eqb d k v) q
  = if eqb k q then Some v else dict_get eqb d q.
Proof.
  induction d as [| [k' v'] d IH]; simpl.
  - reflexivity.
  - destruct (eqb k' k) eqn:Ek; simpl.
    + apply eqb_eq in Ek. subst k'.
      destruct (eqb k q); reflexivity.
    + rewrite IH. destruct (eqb k' q) eqn:Eq; [| reflexivity].
      apply eqb_eq in Eq. subst q.
      destruct (eqb k k') eqn:Ek'; [| reflexivity].
      apply eqb_eq in Ek'. subst k'.
      assert (eqb k k = true) by (apply eqb_eq; reflexivity). congruence.
Qed.
End DictLookup.

Lemma index_by_id_none elements id :
  dict_get String.eqb (index_by_id elements) id = None <->
  forall e, In e elements -> el_element_id e <> id.
Proof.
  unfold index_by_id.
  assert (G : forall d,
             dict_get String.eqb
               (fold_left (fun d e => dict_set String.eqb d (el_element_id e) e)
                          elements d) id = None
             <-> dict_get String.eqb d id = None
                 /\ forall e, In e elements -> el_element_id e <> id).
  { induction elements as [| e rest IH]; intros d; simpl.
    - split; [intros H; split; [exact H | intros ? []] | intros [H _]; exact H].
    - rewrite IH, (@dict_get_set _ _ String.eqb String.eqb_eq).
      destruct (String.eqb_spec (el_element_id e) id) as [Heq | Hne].
      + split; [intros [H _]; discriminate H |].
        intros [_ H]. exfalso. apply (H e); [left; reflexivity | exact Heq].
      + split.
        * intros [Hd Hr]. split; [exact Hd |].
          intros e' [<- | Hin]; [exact Hne | apply Hr, Hin].
        * intros [Hd Hr]. split; [exact Hd |].
          intros e' Hin. apply Hr. right. exact Hin. }
  rewrite G. simpl. tauto.
Qed.

Lemma rejected_not_passes d entry : rejected d entry -> ~ passes d entry.
Proof.
  intros [Hn | [(e & He & Hp) | (e & v & He & Hv & Hr)]] (e' & He' & Hp' & Hv').
  - congruence.
  - assert (e' = e) as -> by congruence. contradiction.
  - assert (e' = e) as -> by congruence. apply Hr, Hv', Hv.
Qed.

Lemma validate_element_value_raises e v x :
  validate_element_value e v = Raise x -> x = KeyError.
Proof.
  unfold validate_element_value.
  destruct (el_element_type e); try discriminate.
  - destruct (el_on_value e); cbn [getitem bind]; [| intros [= <-]; reflexivity].
    destruct (el_off_value e); cbn [getitem bind]; [| intros [= <-]; reflexivity].
    destruct (_ && _); discriminate.
  - destruct (el_available_options e); cbn [getitem bind];
      [| intros [= <-]; reflexivity].
    destruct (negb _); discriminate.
  - destruct (el_menu_items e); cbn [getitem bind];
      [| intros [= <-]; reflexivity].
    destruct (negb _); discriminate.
Qed.

Lemma check_instructions_outcome d form_data :
  forall printed has_errors,
    let r := check_instructions d form_data printed has_errors in
    (snd r = Ok false /\ has_errors = false /\ fst r = printed
     /\ Forall (passes d) form_data)
    \/ snd r = Ok true
    \/ snd r = Raise KeyError.
Proof.
  induction form_data as [| entry rest IH]; intros printed has_errors;
    cbn [check_instructions].
  - destruct has_errors; cbn [fst snd];
      [right; left; reflexivity | left; repeat split; constructor].
  - destruct (dict_get String.eqb d (in_element_id entry)) as [e |] eqn:Eget.
    + destruct (el_page_num e) as [expected |] eqn:Ep; [| cbn; auto].
      destruct (Z.eqb_spec (in_page_num entry) expected) as [Heq | Hne];
        cbn [negb].
      * destruct (in_fill_value entry) as [v |] eqn:Ev.
        -- destruct (validate_element_value e v) as [[err |] | x] eqn:Eval.
           ++ destruct (IH (printed ++ [err]) true)
                as [(_ & Hbad & _) | H]; [discriminate Hbad | auto].
           ++ destruct (IH printed has_errors)
                as [(H1 & H2 & H3 & H4) | H]; [| auto].
              left. repeat split; try assumption.
              constructor; [| exact H4].
              exists e. repeat split; try congruence.
           ++ apply validate_element_value_raises in Eval. subst x. cbn. auto.
        -- destruct (IH printed has_errors)
             as [(H1 & H2 & H3 & H4) | H]; [| auto].
           left. repeat split; try assumption.
           constructor; [| exact H4].
           exists e. repeat split; congruence.
      * destruct (IH (printed ++ [DiagWrongPage (in_element_id entry)
                                    (in_page_num entry) expected]) true)
          as [(_ & Hbad & _) | H]; [discriminate Hbad | auto].
    + destruct (IH (printed ++ [DiagUnknownId (in_element_id entry)]) true)
        as [(_ & Hbad & _) | H]; [discriminate Hbad | auto].
Qed.

(** The outcome of a run, once the model is extracted. *)
Lemma populate_form_fields_outcome reader form_data elements :
  parse_form_elements reader = Ok elements ->
  (Forall (passes (index_by_id elements)) form_data
   /\ fst (populate_form_fields reader form_data) = []
   /\ snd (populate_form_fields reader form_data)
      = (w <- write_pages (group_by_page form_data []) (clone_from reader) ;;
         Ok (FormWriter (fw_pages w) true))%py)
  \/ snd (populate_form_fields reader form_data) = Raise (SystemExit 1)
  \/ snd (populate_form_fields reader form_data) = Raise KeyError.
Proof.
  intros Hp. unfold populate_form_fields. rewrite Hp.
  pose proof (check_instructions_outcome (index_by_id elements) form_data
                [] false) as H.
  cbv zeta in H.
  destruct (check_instructions (index_by_id elements) form_data [] false)
    as [printed [[|] | x]]; cbn [fst snd] in *.
  - right. left. reflexivity.
  - destruct H as [(_ & _ & -> & Hall) | [H | H]]; try discriminate H.
    left. repeat split. exact Hall.
  - destruct H as [(H & _) | [H | H]]; try discriminate H.
    injection H as ->. right. right. reflexivity.
Qed.

(** C1.  Filling is all-or-nothing.  Once the model is extracted, if
    any instruction of the batch names an [element_id] absent from the
    model, or a [page_num] other than the one recorded for that id, or
    a [fill_value] that validation does not accept, the run ends in an
    exception ([sys.exit(1)], or the [KeyError] of a validation that
    could not complete) and no document is written; conversely a
    document is written only when every instruction passes every
    check.  An id is absent from the lookup table exactly when no
    published element has it.  When the extraction itself fails, no
    document is written either. *)
Theorem populate_form_fields_atomic :
  (forall (reader : pdf_reader) (form_data : list instruction) (x : exn),
      parse_form_elements reader = Raise x ->
      populate_form_fields reader form_data = ([], Raise x))
  /\
  forall (reader : pdf_reader) (form_data : list instruction)
         (elements : list element),
    parse_form_elements reader = Ok elements ->
    (forall entry,
        In entry form_data ->
        rejected (index_by_id elements) entry ->
        snd (populate_form_fields reader form_data) = Raise (SystemExit 1)
        \/ snd (populate_form_fields reader form_data) = Raise KeyError)
    /\ (forall w,
           snd (populate_form_fields reader form_data) = Ok w ->
           Forall (passes (index_by_id elements)) form_data)
    /\ (forall id,
           dict_get String.eqb (index_by_id elements) id = None
           <-> forall e, In e elements -> el_element_id e <> id).
Proof.
  split.
  { intros reader form_data x Hp. unfold populate_form_fields.
    rewrite Hp. reflexivity. }
  intros reader form_data elements Hp.
  pose proof (populate_form_fields_outcome reader form_data Hp) as Hout.
  split; [| split].
  - intros entry Hin Hrej.
    destruct Hout as [(Hall & _) | Hout]; [| exact Hout].
    exfalso. rewrite Forall_forall in Hall.
    apply (rejected_not_passes Hrej), Hall, Hin.
  - intros w Hw.
    destruct Hout as [(Hall & _) | [Hout | Hout]];
      [exact Hall | congruence | congruence].
  - intros id. apply index_by_id_none.
Qed.

Lemma populate_form_fields_atomic_witness :
  snd (populate_form_fields radio_reader unknown_id_batch)
  = Raise (SystemExit 1)
  \/ snd (populate_form_fields radio_reader unknown_id_batch) = Raise KeyError.
Proof.
  refine (proj1 (proj2 populate_form_fields_atomic radio_reader
                   unknown_id_batch _ _)
                (Instruction "nope" 1 (Some "x"%string)) _ _).
  - reflexivity.
  - right. left. reflexivity.
  - left. reflexivity.
Defined.

(** A batch that passes every check is written, page by page. *)
Example good_batch_run :
  populate_form_fields radio_reader
    [Instruction "name" 2 (Some "Alice"%string);
     Instruction "color" 2 (Some "/Blue"%string)]
  = ([],
     Ok (FormWriter
           [[];
            [(Annotation None (Some (Node (Some "color"%string) None))
                (Some (Bbox 300 500 310 510)) (Some ["/Red"; "/Off"]%string),
              Some "/Blue"%string);
             (Annotation None (Some (Node (Some "color"%string) None))
                (Some (Bbox 320 600 330 610)) (Some ["/Blue"; "/Off"]%string),
              Some "/Blue"%string);
             (Annotation (Some "name"%string) None
                (Some (Bbox 50 400 150 420)) None,
              Some "Alice"%string)]]
           true)).
Proof. reflexivity. Qed.

(** One bad instruction anywhere in the batch stops the whole run. *)
Example bad_batch_run :
  populate_form_fields radio_reader
    [Instruction "name" 2 (Some "Alice"%string);
     Instruction "color" 2 (Some "/Green"%string);
     Instruction "name" 1 None]
  = ([DiagOptionGroup "color" "/Green" ["/Red"; "/Blue"]%string;
      DiagWrongPage "name" 1 2],
     Raise (SystemExit 1)).
Proof. reflexivity. Qed.

(** Filling the push button of [pushbutton_reader] ends in [KeyError]. *)
Example pushbutton_fill_run :
  populate_form_fields pushbutton_reader
    [Instruction "submit" 1 (Some "/Yes"%string)]
  = ([], Raise KeyError).
Proof. reflexivity. Qed.

(** * Further properties of the utilities *)

(** ** LayoutValidator: the pass signal and the overlap test *)








(** X2.  Whether two boxes are reported does not depend on which of
    them comes first: the page test and the overlap test are
    symmetric.  Two boxes with the same coordinates (a label drawn
    exactly over its entry) are reported exactly when the box has
    positive width and height. *)
Theorem overlap_hit_symmetric :
  (forall bi bj : BoundsAndEntry, overlap_hit bi bj = overlap_hit bj bi)
  /\ (forall a b : bbox, bounds_overlap a b = bounds_overlap b a)
  /\ (forall a : bbox,
         bounds_overlap a a = true <-> (b0 a < b2 a /\ b1 a < b3 a)%Q).
Proof.
  assert (Sym : forall a b, bounds_overlap a b = true ->
                            bounds_overlap b a = true).
  { intros a b H. apply bounds_overlap_true_iff in H.
    apply bounds_overlap_true_iff. tauto. }
  assert (Eq : forall a b, bounds_overlap a b = bounds_overlap b a).
  { intros a b.
    destruct (bounds_overlap a b) eqn:E1, (bounds_overlap b a) eqn:E2;
      try reflexivity.
    - apply Sym in E1. congruence.
    - apply Sym in E2. congruence. }
  split; [| split].
  - intros bi bj. unfold overlap_hit.
    rewrite (Eq (bounds bi) (bounds bj)), Z.eqb_sym. reflexivity.
  - exact Eq.
  - intros a. rewrite bounds_overlap_true_iff. tauto.
Qed.

(** ** CoordinateMapper: boxes stay on the page *)




(** ** OverlayRenderer: which text selects the embedded-glyph strategy *)



(** ** OverlayRenderer: the font probe *)




(** ** OverlayRenderer: what a written document guarantees *)






Lemma draw_entries_fonts env name iw ih pw ph :
  forall entries canvas canvas',
    Forall (draw_font_ok env name) canvas ->
    draw_entries env name iw ih pw ph entries canvas = Ok canvas' ->
    Forall (draw_font_ok env name) canvas'.
Proof.
  induction entries as [| e rest IH]; intros canvas canvas' Hc Hrun.
  - injection Hrun as <-. exact Hc.
  - cbn [draw_entries] in Hrun.
    destruct (fe_text_content e) as [tc |]; [| discriminate Hrun].
    cbn [getitem bind] in Hrun.
    destruct (tc_content tc) as [content |]; [| discriminate Hrun].
    cbn [getitem bind] in Hrun.
    destruct (convert_image_to_pdf_coords _ _ _ _ _) as [[[[x y] r] t] |];
      [| discriminate Hrun].
    cbn [bind] in Hrun.
    apply (IH _ _) with (2 := Hrun).
    apply Forall_app. split; [exact Hc |].
    constructor; [| constructor].
    unfold draw_font_ok. cbn [ds_text ds_font ds_color].
    destruct (has_cjk_characters content).
    + split; [reflexivity |]. split; [discriminate |].
      destruct (hex_ok env _) eqn:Eh; [right; exact Eh | left; reflexivity].
    + split; [discriminate |]. split.
      * intros _. destruct (font_known env _) eqn:Ef;
          [right; exact Ef | left; reflexivity].
      * destruct (hex_ok env _) eqn:Eh; [right; exact Eh | left; reflexivity].
Qed.

Lemma overlay_pages_fonts env name reader cfg :
  forall groups w total w' total',
    Forall (fun p => Forall (Forall (draw_font_ok env name)) (op_merged p)) w ->
    overlay_pages env name reader cfg groups w total = Ok (w', total') ->
    Forall (fun p => Forall (Forall (draw_font_ok env name)) (op_merged p)) w'.
Proof.
  induction groups as [| [page_num entries] rest IH];
    intros w total w' total' Hw Hrun.
  - injection Hrun as <- _. exact Hw.
  - cbn [overlay_pages] in Hrun.
    destruct (pdf_dims_get _ _) as [[pw ph] |]; [| discriminate Hrun].
    cbn [bind] in Hrun.
    destruct (next_page_info _ _) as [page_info |]; [| discriminate Hrun].
    cbn [bind] in Hrun.
    destruct (draw_entries _ _ _ _ _ _ _ _) as [canvas |] eqn:Ed;
      [| discriminate Hrun].
    cbn [bind] in Hrun.
    destruct (merge_page _ _ _) as [w1 |] eqn:Em; [| discriminate Hrun].
    cbn [bind] in Hrun.
    apply (IH _ _ _ _) with (2 := Hrun).
    unfold merge_page in Em.
    destruct (py_index w _) as [ix |]; [| discriminate Em].
    cbn [bind] in Em.
    eapply list_update_Forall
      with (P := fun p => Forall (Forall (draw_font_ok env name)) (op_merged p));
      [| exact Hw | exact Em].
    intros p Hp. cbn [op_merged]. apply Forall_app. split; [exact Hp |].
    constructor; [| constructor].
    eapply draw_entries_fonts; [| exact Ed]. constructor.
Qed.

(** X7.  The embedded-glyph renderer never draws wide-glyph text with
    a font that lacks the glyphs: in a written document every drawing
    whose text holds a wide glyph uses the registered CJK font, every
    other drawing uses Helvetica or a font reportlab knows, and every
    colour is the fallback 000000 or one reportlab accepts. *)
Theorem embedded_fonts_cover_text :
  forall (env : platform) (reader : reader_pages) (cfg : config)
         (warnings : list line) (name : string) (w : writer),
    needs_wide_glyphs cfg ->
    register_cjk_font env = (warnings, Some name) ->
    snd (apply_text_overlays env reader cfg) = Ok w ->
    Forall (fun p => Forall (Forall (draw_font_ok env name)) (op_merged p)) w.
Proof.
  intros env reader cfg warnings name w Hwide Hreg.
  unfold apply_text_overlays.
  apply scan_has_cjk_needs in Hwide. rewrite Hwide.
  unfold embedded_glyph_strategy. rewrite Hreg.
  destruct (nonempty name); [| intros [=]].
  unfold apply_text_overlays_with_reportlab. cbv zeta.
  destruct (overlay_pages _ _ _ _ _ _ _) as [[w' total] |] eqn:E;
    [| intros [=]].
  intros [= <-].
  eapply overlay_pages_fonts; [| exact E].
  eapply Forall_impl; [| apply copy_pages_blank].
  intros p [_ Hm]. rewrite Hm. constructor.
Qed.

Lemma embedded_fonts_cover_text_witness :
  Forall (fun p => Forall (Forall (draw_font_ok noto_only "NotoSansCJK"))
                          (op_merged p))
    [OutPage []
       [[DrawString "Helvetica" 14 "000000"
           (20 * (400 / 200)) (200 - 20 * (200 / 100)) [72%Z; 105%Z];
         DrawString "NotoSansCJK" 14 "000000"
           (20 * (400 / 200)) (200 - 20 * (200 / 100)) [0x4E2D%Z]]]]%Q.
Proof.
  apply (embedded_fonts_cover_text noto_only one_page (cfg := cjk_layout)
           (warnings := [])).
  - exists cjk_entry, (TextContent (Some [0x4E2D%Z]) None None None),
      [0x4E2D%Z], 0x4E2D%Z.
    repeat split; try reflexivity.
    + right. left. reflexivity.
    + left. reflexivity.
    + unfold wide_glyph. lia.
  - reflexivity.
  - reflexivity.
Defined.

Lemma convert_ok_nonzero b iw ih pw ph r :
  convert_image_to_pdf_coords b iw ih pw ph = Ok r ->
  ~ (iw == 0)%Q /\ ~ (ih == 0)%Q.
Proof.
  unfold convert_image_to_pdf_coords, pydiv.
  destruct (Qeq_bool iw 0) eqn:Ew; [discriminate |].
  cbn [bind]. destruct (Qeq_bool ih 0) eqn:Eh; [discriminate |].
  intros _. split; apply Qeq_bool_false_neq; assumption.
Qed.

Lemma annotate_entries_resolvable reader cfg :
  forall entries w count r,
    annotate_entries reader cfg entries w count = Ok r ->
    Forall (page_resolvable reader cfg) entries.
Proof.
  induction entries as [| e rest IH]; intros w count r Hrun; [constructor |].
  cbn [annotate_entries] in Hrun.
  destruct (next_page_info _ _) as [page_info |] eqn:Ei; [| discriminate Hrun].
  cbn [bind] in Hrun.
  destruct (pdf_dims_get _ _) as [[pw ph] |] eqn:Ed; [| discriminate Hrun].
  cbn [bind] in Hrun.
  destruct (convert_image_to_pdf_coords _ _ _ _ _) as [rect |] eqn:Ec;
    [| discriminate Hrun].
  cbn [bind] in Hrun.
  destruct (@convert_ok_nonzero _ _ _ _ _ _ Ec) as [Hw Hh].
  constructor.
  - exists page_info, (pw, ph). repeat split; assumption.
  - destruct (fe_text_content e) as [tc |]; [| eauto].
    destruct (tc_content tc) as [[| c content] |]; eauto.
    destruct (add_annotation _ _ _) as [w1 |]; [| discriminate Hrun].
    cbn [bind] in Hrun. eauto.
Qed.

Lemma draw_entries_nonzero env name iw ih pw ph :
  forall entries canvas canvas',
    entries <> [] ->
    draw_entries env name iw ih pw ph entries canvas = Ok canvas' ->
    ~ (iw == 0)%Q /\ ~ (ih == 0)%Q.
Proof.
  intros [| e rest] canvas canvas' Hne Hrun; [contradiction |].
  cbn [draw_entries] in Hrun.
  destruct (fe_text_content e) as [tc |]; [| discriminate Hrun].
  cbn [getitem bind] in Hrun.
  destruct (tc_content tc) as [content |]; [| discriminate Hrun].
  cbn [getitem bind] in Hrun.
  destruct (convert_image_to_pdf_coords _ _ _ _ _) as [r |] eqn:Ec;
    [| discriminate Hrun].
  eapply convert_ok_nonzero. exact Ec.
Qed.

Lemma group_add_keyed e d :
  Forall group_keyed d -> Forall group_keyed (group_add (fe_page_num e) e d).
Proof.
  induction d as [| [p es] d IH]; intros Hd; simpl.
  - constructor; [| constructor].
    split; cbn [fst snd]; [discriminate |].
    constructor; [reflexivity | constructor].
  - inversion Hd as [| ? ? [H1 H2] H3]; subst. cbn [fst snd] in *.
    destruct (Z.eqb_spec p (fe_page_num e)) as [-> | Hne].
    + constructor; [| exact H3]. split; cbn [fst snd].
      * destruct es; discriminate.
      * apply Forall_app. split; [exact H2 | repeat constructor].
    + constructor; [split; assumption | apply IH, H3].
Qed.

Lemma group_add_member e d q es x :
  In (q, es) d -> In x es ->
  exists es', In (q, es') (group_add (fe_page_num e) e d) /\ In x es'.
Proof.
  induction d as [| [p ps] d IH]; intros Hin Hx; [destruct Hin |].
  simpl. destruct Hin as [[= -> ->] | Hin].
  - destruct (q =? fe_page_num e)%Z.
    + exists (es ++ [e]). split; [left; reflexivity |].
      apply in_or_app. left. exact Hx.
    + exists es. split; [left; reflexivity | exact Hx].
  - destruct (IH Hin Hx) as (es' & H1 & H2).
    destruct (p =? fe_page_num e)%Z.
    + exists es. split; [right; exact Hin | exact Hx].
    + exists es'. split; [right; exact H1 | exact H2].
Qed.

Lemma group_add_new e d :
  exists es, In (fe_page_num e, es) (group_add (fe_page_num e) e d) /\ In e es.
Proof.
  induction d as [| [p ps] d IH]; simpl.
  - exists [e]. split; left; reflexivity.
  - destruct (Z.eqb_spec p (fe_page_num e)) as [-> | Hne].
    + exists (ps ++ [e]). split; [left; reflexivity |].
      apply in_or_app. right. left. reflexivity.
    + destruct IH as (es & H1 & H2). exists es.
      split; [right; exact H1 | exact H2].
Qed.

Lemma group_entries_keyed entries :
  forall d, Forall group_keyed d -> Forall group_keyed (group_entries entries d).
Proof.
  induction entries as [| e rest IH]; intros d Hd; simpl; [exact Hd |].
  destruct (entry_content e) as [[| c content] |]; auto.
  apply IH, group_add_keyed, Hd.
Qed.

Lemma group_entries_keeps entries :
  forall d q es x,
    In (q, es) d -> In x es ->
    exists es', In (q, es') (group_entries entries d) /\ In x es'.
Proof.
  induction entries as [| e rest IH]; intros d q es x Hin Hx; simpl.
  - exists es. split; assumption.
  - destruct (entry_content e) as [[| c content] |]; eauto.
    destruct (@group_add_member e d q es x Hin Hx) as (es' & H1 & H2). eauto.
Qed.

Lemma group_entries_complete entries :
  forall d e,
    In e entries -> has_text e = true ->
    exists es, In (fe_page_num e, es) (group_entries entries d) /\ In e es.
Proof.
  induction entries as [| e' rest IH]; intros d e Hin Ht; [destruct Hin |].
  simpl. destruct Hin as [-> | Hin].
  - unfold has_text in Ht.
    destruct (entry_content e) as [[| c content] |]; try discriminate Ht.
    destruct (group_add_new e d) as (es & H1 & H2).
    apply (@group_entries_keeps rest _ _ _ _ H1 H2).
  - destruct (entry_content e') as [[| c content] |]; eauto.
Qed.

Lemma overlay_pages_resolvable env name reader cfg :
  forall groups w total r,
    Forall group_keyed groups ->
    overlay_pages env name reader cfg groups w total = Ok r ->
    forall q es e, In (q, es) groups -> In e es ->
                   page_resolvable reader cfg e.
Proof.
  induction groups as [| [page_num entries] rest IH];
    intros w total r Hk Hrun q es e Hin He; [destruct Hin |].
  inversion Hk as [| ? ? [Hne Hpages] Hrest]; subst. cbn [fst snd] in *.
  cbn [overlay_pages] in Hrun.
  destruct (pdf_dims_get _ _) as [[pw ph] |] eqn:Ed; [| discriminate Hrun].
  cbn [bind] in Hrun.
  destruct (next_page_info _ _) as [page_info |] eqn:Ei; [| discriminate Hrun].
  cbn [bind] in Hrun.
  destruct (draw_entries _ _ _ _ _ _ _ _) as [canvas |] eqn:Edr;
    [| discriminate Hrun].
  cbn [bind] in Hrun.
  destruct (merge_page _ _ _) as [w1 |]; [| discriminate Hrun].
  cbn [bind] in Hrun.
  destruct Hin as [[= <- <-] | Hin].
  - rewrite Forall_forall in Hpages. specialize (Hpages e He).
    destruct (@draw_entries_nonzero _ _ _ _ _ _ _ _ _ Hne Edr) as [Hw Hh].
    exists page_info, (pw, ph). rewrite Hpages. repeat split; assumption.
  - eapply IH; [exact Hrest | exact Hrun | exact Hin | exact He].
Qed.

(** X8.  A document is written only if every rendered entry can be
    placed: its page is a page of the PDF and has a [page_dimensions]
    record with a non-zero image size.  Under the annotation strategy
    this is required of every entry of the layout, with or without
    text, because the lookup comes before the test for empty content;
    under the embedded-glyph strategy only of the entries with text. *)
Theorem written_overlay_pages_resolvable :
  forall (env : platform) (reader : reader_pages) (cfg : config) (w : writer),
    snd (apply_text_overlays env reader cfg) = Ok w ->
    (forall e, In e (text_entries cfg) -> page_resolvable reader cfg e)
    /\ (~ needs_wide_glyphs cfg ->
        forall e, In e (field_entries cfg) -> page_resolvable reader cfg e).
Proof.
  intros env reader cfg w. unfold apply_text_overlays.
  destruct (scan_has_cjk (field_entries cfg)) eqn:Escan.
  - unfold embedded_glyph_strategy.
    destruct (register_cjk_font env) as [warnings [name |]]; [| intros [=]].
    destruct (nonempty name); [| intros [=]].
    unfold apply_text_overlays_with_reportlab. cbv zeta.
    destruct (overlay_pages _ _ _ _ _ _ _) as [[w' total] |] eqn:E;
      [| intros [=]].
    intros _. split.
    + intros e He. unfold text_entries in He. apply filter_In in He.
      destruct He as [He Ht].
      destruct (@group_entries_complete (field_entries cfg) [] e He Ht)
        as (es & Hg & Hes).
      eapply overlay_pages_resolvable; [| exact E | exact Hg | exact Hes].
      apply group_entries_keyed. constructor.
    + intros Hn. exfalso. apply Hn. apply scan_has_cjk_needs, Escan.
  - unfold annotation_strategy.
    destruct (annotate_entries _ _ _ _ _) as [[w' count] |] eqn:E;
      [| intros [=]].
    intros _.
    pose proof (@annotate_entries_resolvable _ _ _ _ _ _ E) as Hall.
    rewrite Forall_forall in Hall. split.
    + intros e He. apply Hall. unfold text_entries in He.
      apply filter_In in He. apply He.
    + intros _ e He. apply Hall, He.
Qed.

Lemma written_overlay_pages_resolvable_witness :
  (forall e, In e (text_entries ascii_layout) ->
             page_resolvable one_page ascii_layout e)
  /\ (~ needs_wide_glyphs ascii_layout ->
      forall e, In e (field_entries ascii_layout) ->
                page_resolvable one_page ascii_layout e).
Proof.
  apply (written_overlay_pages_resolvable no_fonts one_page ascii_layout
           (w := [OutPage
                    [FreeText [72%Z; 105%Z]
                       (20 * (400 / 200), 200 - 20 * (200 / 100),
                        100 * (400 / 200), 200 - 0 * (200 / 100))%Q
                       "Arial" 14 "000000"]
                    []])).
  reflexivity.
Defined.

(** A text-less entry on a page without [page_dimensions] stops the
    annotation strategy, and is ignored by the embedded-glyph one. *)
Example annotation_needs_every_page :
  apply_text_overlays no_fonts one_page
    (Config [ascii_entry;
             FieldEntry "Stray" 7 (Bbox 0 0 1 1) (Bbox 0 0 1 1) None]
            [PageDimension 1 200 100])
  = ([], Raise StopIteration).
Proof. reflexivity. Qed.

Example embedded_ignores_textless_entry :
  snd (apply_text_overlays noto_only one_page
         (Config [cjk_entry;
                  FieldEntry "Stray" 7 (Bbox 0 0 1 1) (Bbox 0 0 1 1) None]
                 [PageDimension 1 200 100]))
  = Ok [OutPage []
          [[DrawString "NotoSansCJK" 14 "000000"
              (20 * (400 / 200)) (200 - 20 * (200 / 100)) [0x4E2D%Z]]]]%Q.
Proof. reflexivity. Qed.

(** ** FieldModelExtractor: qualified names *)

Lemma string_append_assoc (a b c : string) :
  ((a ++ b) ++ c = a ++ (b ++ c))%string.
Proof.
  induction a as [| ch a IH]; simpl; [reflexivity |].
  rewrite IH. reflexivity.
Qed.

Lemma concat_snoc (sep : string) (l : list string) (x : string) :
  l <> [] ->
  String.concat sep (l ++ [x]) = (String.concat sep l ++ sep ++ x)%string.
Proof.
  induction l as [| a l IH]; intros Hne; [contradiction |].
  destruct l as [| b l].
  - reflexivity.
  - change (String.concat sep ((a :: b :: l) ++ [x]))
      with (a ++ sep ++ String.concat sep ((b :: l) ++ [x]))%string.
    rewrite IH by discriminate.
    change (String.concat sep (a :: b :: l))
      with (a ++ sep ++ String.concat sep (b :: l))%string.
    rewrite !string_append_assoc. reflexivity.
Qed.

Lemma nonempty_true_iff (s : string) : nonempty s = true <-> s <> EmptyString.
Proof. destruct s; simpl; split; congruence. Qed.

(** X9.  The qualified id of an annotation is the dot-joined chain of
    the non-empty [/T] names from the root down to the annotation: a
    widget without a name of its own (a radio button kid) has the id of
    its parent; a named widget under a parent with id [pid] has the id
    [pid.name]; a named widget without parent has its own name; and an
    annotation with no name anywhere on its chain has no id. *)
Theorem build_complete_element_id_chain :
  (forall (ann : annotation) (t : option string) (p : option node)
          (r : option bbox) (a : option (list string)),
      (ann_T ann = None \/ ann_T ann = Some EmptyString) ->
      ann_Parent ann = Some (Node t p) ->
      build_complete_element_id ann
      = build_complete_element_id (Annotation t p r a))
  /\ (forall (ann : annotation) (name : string) (t : option string)
             (p : option node) (r : option bbox) (a : option (list string))
             (pid : string),
         ann_T ann = Some name -> name <> EmptyString ->
         ann_Parent ann = Some (Node t p) ->
         build_complete_element_id (Annotation t p r a) = Some pid ->
         build_complete_element_id ann = Some (pid ++ "." ++ name)%string)
  /\ (forall (ann : annotation) (name : string),
         ann_T ann = Some name -> name <> EmptyString ->
         ann_Parent ann = None ->
         build_complete_element_id ann = Some name)
  /\ (forall ann : annotation,
         (ann_T ann = None \/ ann_T ann = Some EmptyString) ->
         ann_Parent ann = None ->
         build_complete_element_id ann = None).
Proof.
  split; [| split; [| split]].
  - intros ann t p r a Hname Hparent.
    unfold build_complete_element_id. cbn [ann_T ann_Parent].
    rewrite Hparent. destruct Hname as [-> | ->]; reflexivity.
  - intros ann name t p r a pid Hname Hne Hparent Hpid.
    unfold build_complete_element_id in *. cbn [ann_T ann_Parent] in Hpid.
    rewrite Hname, Hparent.
    cbn [parent_names]. apply nonempty_true_iff in Hne. rewrite Hne.
    change (parent_names (Node t p))
      with ((match t with
             | Some name0 => if nonempty name0 then [name0] else []
             | None => []
             end)
            ++ match p with
               | Some p0 => parent_names p0
               | None => []
               end) in Hpid.
    set (up := _ ++ _) in *.
    destruct up as [| u ups] eqn:Eup; [discriminate Hpid |].
    injection Hpid as <-.
    cbn [app rev]. f_equal.
    apply concat_snoc.
    intros H. apply (f_equal (@List.length string)) in H.
    rewrite length_app in H. simpl in H. lia.
  - intros ann name Hname Hne Hparent.
    unfold build_complete_element_id. rewrite Hname, Hparent.
    cbn [parent_names]. apply nonempty_true_iff in Hne. rewrite Hne.
    reflexivity.
  - intros ann Hname Hparent.
    unfold build_complete_element_id. rewrite Hparent.
    destruct Hname as [-> | ->]; reflexivity.
Qed.

Lemma build_complete_element_id_chain_witness :
  build_complete_element_id
    (Annotation (Some "zip"%string)
       (Some (Node (Some "address"%string)
                (Some (Node (Some "form"%string) None))))
       None None)
  = Some ("form.address" ++ "." ++ "zip")%string.
Proof.
  apply (proj1 (proj2 build_complete_element_id_chain)
           (Annotation (Some "zip"%string)
              (Some (Node (Some "address"%string)
                       (Some (Node (Some "form"%string) None))))
              None None)
           "zip"%string (Some "address"%string)
           (Some (Node (Some "form"%string) None)) None None
           "form.address"%string).
  - reflexivity.
  - discriminate.
  - reflexivity.
  - reflexivity.
Defined.

(** ** FieldModelExtractor and FormFiller: what a field accepts *)





(** ** FieldModelExtractor: invariants of the published model *)

Section DictKeys.
Variables (K V : Type) (eqb : K -> K -> bool).
Hypothesis eqb_eq : forall a b, eqb a b = true <-> a = b.

Lemma dict_get_some_in (d : dict K V) k v :
  dict_get eqb d k = Some v -> In (k, v) d.
Proof.
  induction d as [| [k' v'] d IH]; simpl; [discriminate |].
  destruct (eqb k' k) eqn:E.
  - apply eqb_eq in E. subst k'. intros [= <-]. left. reflexivity.
  - intros H. right. apply IH, H.
Qed.

Lemma dict_get_none_iff (d : dict K V) k :
  dict_get eqb d k = None <-> ~ In k (map fst d).
Proof.
  induction d as [| [k' v'] d IH]; simpl.
  - split; [intros _ [] | reflexivity].
  - destruct (eqb k' k) eqn:E.
    + apply eqb_eq in E. subst k'. split; [discriminate |].
      intros H. exfalso. apply H. left. reflexivity.
    + rewrite IH. split.
      * intros H [Heq | Hin]; [| exact (H Hin)].
        subst k'. assert (eqb k k = true) by (apply eqb_eq; reflexivity).
        congruence.
      * intros H Hin. apply H. right. exact Hin.
Qed.

Lemma dict_set_keys_present (d : dict K V) k v v0 :
  dict_get eqb d k = Some v0 -> map fst (dict_set eqb d k v) = map fst d.
Proof.
  induction d as [| [k' v'] d IH]; simpl; [discriminate |].
  destruct (eqb k' k) eqn:E; simpl; [reflexivity |].
  intros H. rewrite (IH H). reflexivity.
Qed.

Lemma dict_set_keys_absent (d : dict K V) k v :
  dict_get eqb d k = None -> map fst (dict_set eqb d k v) = map fst d ++ [k].
Proof.
  induction d as [| [k' v'] d IH]; simpl; [reflexivity |].
  destruct (eqb k' k) eqn:E; simpl; [discriminate |].
  intros H. rewrite (IH H). reflexivity.
Qed.

Lemma dict_set_entries (d : dict K V) k v k1 v1 :
  In (k1, v1) (dict_set eqb d k v) -> (k1 = k /\ v1 = v) \/ In (k1, v1) d.
Proof.
  induction d as [| [k' v'] d IH]; simpl.
  - intros [[= <- <-] | []]. left. split; reflexivity.
  - destruct (eqb k' k) eqn:E; simpl.
    + apply eqb_eq in E. subst k'.
      intros [[= <- <-] | H]; [left; split; reflexivity | right; right; exact H].
    + intros [H | H]; [right; left; exact H |].
      destruct (IH H) as [H1 | H1]; [left; exact H1 | right; right; exact H1].
Qed.

Lemma dict_set_NoDup (d : dict K V) k v :
  NoDup (map fst d) -> NoDup (map fst (dict_set eqb d k v)).
Proof.
  intros Hd. destruct (dict_get eqb d k) as [v0 |] eqn:E.
  - erewrite dict_set_keys_present; [exact Hd | exact E].
  - erewrite dict_set_keys_absent; [| exact E].
    apply dict_get_none_iff in E.
    apply NoDup_app; [exact Hd | repeat constructor; intros [] |].
    intros x Hx [<- | []]. exact (E Hx).
Qed.
End DictKeys.

Lemma set_location_id e p r : el_element_id (set_location e p r) = el_element_id e.
Proof. reflexivity. Qed.

Lemma append_option_id g o : el_element_id (append_option g o) = el_element_id g.
Proof. reflexivity. Qed.

Lemma collect_fields_ids fields :
  forall elements_by_id groups,
    NoDup (map fst elements_by_id) -> Forall id_is_key elements_by_id ->
    NoDup (map fst (fst (collect_fields fields elements_by_id groups)))
    /\ Forall id_is_key (fst (collect_fields fields elements_by_id groups)).
Proof.
  induction fields as [| [element_id fld] rest IH];
    intros elements_by_id groups Hn Hk; simpl.
  - split; assumption.
  - destruct (fld_Kids fld).
    + destruct (opt_str_eqb _ _); apply IH; assumption.
    + apply IH.
      * apply (@dict_set_NoDup _ _ String.eqb String.eqb_eq), Hn.
      * apply Forall_forall. intros [k v] Hin.
        apply (@dict_set_entries _ _ String.eqb String.eqb_eq) in Hin.
        destruct Hin as [[-> ->] | Hin].
        -- unfold id_is_key. cbn [fst snd].
           apply (build_element_dict_shape fld element_id).
        -- rewrite Forall_forall in Hk. apply Hk, Hin.
Qed.

Lemma visit_annotation_ids groups page_idx ann st :
  ids_inv st -> ids_inv (visit_annotation groups page_idx ann st).
Proof.
  intros Hinv. unfold visit_annotation.
  destruct st as [E G].
  destruct Hinv as (HnE & HnG & HkE & HkG & Hdis). cbn [fst snd] in *.
  destruct (build_complete_element_id ann) as [element_id |];
    [| repeat split; assumption].
  destruct (dict_get String.eqb E element_id) as [e |] eqn:Eget.
  - unfold ids_inv. cbn [fst snd].
    erewrite dict_set_keys_present; [| exact Eget].
    repeat split; try assumption.
    + apply Forall_forall. intros [k v] Hin.
      apply (@dict_set_entries _ _ String.eqb String.eqb_eq) in Hin.
      destruct Hin as [[-> ->] | Hin].
      * unfold id_is_key. cbn [fst snd]. rewrite set_location_id.
        apply (@dict_get_some_in _ _ String.eqb String.eqb_eq) in Eget.
        rewrite Forall_forall in HkE. apply (HkE _ Eget).
      * rewrite Forall_forall in HkE. apply HkE, Hin.
    + intros k Hk. rewrite (@dict_get_set _ _ String.eqb String.eqb_eq).
      destruct (String.eqb_spec element_id k) as [<- | Hne];
        [| apply Hdis, Hk].
      rewrite (Hdis _ Hk) in Eget. discriminate Eget.
  - destruct (str_in element_id groups); [| repeat split; assumption].
    destruct (ann_AP_N ann) as [names |]; [| repeat split; assumption].
    destruct (filter _ names) as [| active [| ? ?]];
      try (repeat split; assumption).
    unfold ids_inv. cbn [fst snd].
    split; [exact HnE |].
    split; [apply (@dict_set_NoDup _ _ String.eqb String.eqb_eq), HnG |].
    split; [exact HkE |]. split.
    + apply Forall_forall. intros [k v] Hin.
      apply (@dict_set_entries _ _ String.eqb String.eqb_eq) in Hin.
      destruct Hin as [[-> ->] | Hin].
      * unfold id_is_key. cbn [fst snd]. rewrite append_option_id.
        destruct (dict_get String.eqb G element_id) as [g |] eqn:Eg;
          [| reflexivity].
        apply (@dict_get_some_in _ _ String.eqb String.eqb_eq) in Eg.
        rewrite Forall_forall in HkG. apply (HkG _ Eg).
      * rewrite Forall_forall in HkG. apply HkG, Hin.
    + intros k Hk.
      destruct (dict_get String.eqb G element_id) as [g |] eqn:Eg.
      * erewrite dict_set_keys_present in Hk; [| exact Eg].
        apply Hdis, Hk.
      * erewrite dict_set_keys_absent in Hk; [| exact Eg].
        apply in_app_or in Hk. destruct Hk as [Hk | [<- | []]];
          [apply Hdis, Hk | exact Eget].
Qed.

Lemma visit_pages_ids groups pgs :
  forall page_idx st,
    ids_inv st -> ids_inv (visit_pages groups page_idx pgs st).
Proof.
  induction pgs as [| annotations rest IH]; intros page_idx st Hinv; simpl.
  - exact Hinv.
  - apply IH. revert st Hinv.
    induction annotations as [| ann anns IHa]; intros st Hinv; simpl.
    + exact Hinv.
    + apply IHa. apply visit_annotation_ids, Hinv.
Qed.

(** Dropping entries keeps the keys distinct. *)
Lemma filter_keeps_keys_distinct {A B : Type} (key : A -> B)
    (keep : A -> bool) :
  forall entries : list A,
    NoDup (map key entries) -> NoDup (map key (filter keep entries)).
Proof.
  intros entries Hd. induction entries as [| x rest IH]; cbn [filter map].
  - constructor.
  - cbn [map] in Hd. apply NoDup_cons_iff in Hd. destruct Hd as [Hx Hrest].
    destruct (keep x); cbn [map]; [| exact (IH Hrest)].
    apply NoDup_cons; [| exact (IH Hrest)].
    intros Hin. apply Hx. apply in_map_iff in Hin.
    destruct Hin as (y & Hy & Hin). apply filter_In in Hin.
    apply in_map_iff. exists y. split; [exact Hy | apply Hin].
Qed.

Lemma ids_of_values (d : dict string element) :
  Forall id_is_key d -> map el_element_id (dict_values d) = map fst d.
Proof.
  unfold dict_values. induction 1 as [| kv d Hkv _ IH]; simpl.
  - reflexivity.
  - rewrite IH, Hkv. reflexivity.
Qed.

Lemma merged_elements_ids fields pgs :
  NoDup (map el_element_id (merged_elements fields pgs)).
Proof.
  unfold merged_elements.
  destruct (@collect_fields_ids fields [] [] (NoDup_nil _) (Forall_nil _))
    as [Hn Hk].
  destruct (collect_fields fields [] []) as [E0 groups]. cbn [fst] in Hn, Hk.
  assert (Hinv : ids_inv (E0, [])).
  { repeat split; try assumption; try constructor. intros k []. }
  apply (visit_pages_ids groups pgs 0) in Hinv.
  destruct (visit_pages groups 0 pgs (E0, [])) as [E G].
  destruct Hinv as (HnE & HnG & HkE & HkG & Hdis). cbn [fst snd] in *.
  rewrite map_app. apply NoDup_app.
  - unfold elements_with_location. apply filter_keeps_keys_distinct.
    rewrite (ids_of_values HkE). exact HnE.
  - rewrite (ids_of_values HkG). exact HnG.
  - intros x Hx Hg.
    rewrite (ids_of_values HkG) in Hg.
    unfold elements_with_location in Hx.
    apply in_map_iff in Hx. destruct Hx as (e & <- & He).
    apply filter_In in He. destruct He as [He _].
    assert (Hkey : In (el_element_id e) (map fst E)).
    { rewrite <- (ids_of_values HkE). apply in_map, He. }
    apply Hdis in Hg.
    apply (@dict_get_none_iff _ _ String.eqb String.eqb_eq) in Hg. exact (Hg Hkey).
Qed.

Lemma index_by_id_keeps elements :
  forall d k,
    ~ In k (map el_element_id elements) ->
    dict_get String.eqb
      (fold_left (fun d e => dict_set String.eqb d (el_element_id e) e)
                 elements d) k
    = dict_get String.eqb d k.
Proof.
  induction elements as [| e rest IH]; intros d k Hk; simpl; [reflexivity |].
  rewrite IH by (intros H; apply Hk; right; exact H).
  rewrite (@dict_get_set _ _ String.eqb String.eqb_eq).
  destruct (String.eqb_spec (el_element_id e) k) as [Heq | _]; [| reflexivity].
  exfalso. apply Hk. left. exact Heq.
Qed.

Lemma index_by_id_finds elements :
  NoDup (map el_element_id elements) ->
  forall e, In e elements ->
            dict_get String.eqb (index_by_id elements) (el_element_id e)
            = Some e.
Proof.
  unfold index_by_id. generalize (@nil (string * element)) as d.
  induction elements as [| x rest IH]; intros d Hn e Hin; [destruct Hin |].
  simpl in Hn. inversion Hn as [| ? ? Hx Hrest]; subst. simpl.
  destruct Hin as [-> | Hin].
  - rewrite (@index_by_id_keeps rest _ _ Hx).
    rewrite (@dict_get_set _ _ String.eqb String.eqb_eq), String.eqb_refl.
    reflexivity.
  - apply IH; assumption.
Qed.

Lemma published_ids_unique reader elements :
  parse_form_elements reader = Ok elements ->
  NoDup (map el_element_id elements).
Proof.
  intros Hp.
  destruct (parse_form_elements_spec reader Hp) as (fields & _ & Hperm & _).
  apply (Permutation_NoDup (Permutation_map el_element_id Hperm)).
  apply merged_elements_ids.
Qed.

(** X12.  Element ids are unique in the published model, so the lookup
    table that the filler builds from it loses nothing: looking up the
    id of a published element returns that element. *)
Theorem published_ids_are_unique :
  forall (reader : pdf_reader) (elements : list element),
    parse_form_elements reader = Ok elements ->
    NoDup (map el_element_id elements)
    /\ forall e, In e elements ->
                 dict_get String.eqb (index_by_id elements) (el_element_id e)
                 = Some e.
Proof.
  intros reader elements Hp.
  pose proof (published_ids_unique reader Hp) as Hn.
  split; [exact Hn | apply (@index_by_id_finds elements Hn)].
Qed.

Lemma published_ids_are_unique_witness :
  NoDup (map el_element_id [twin_a; twin_b])
  /\ forall e, In e [twin_a; twin_b] ->
               dict_get String.eqb (index_by_id [twin_a; twin_b])
                 (el_element_id e)
               = Some e.
Proof.
  apply (published_ids_are_unique twin_reader). reflexivity.
Defined.

Section PublishedInvariant.
Variable N : nat.
Variables PL PG : element -> Prop.

Hypothesis PL_built : forall fld element_id,
  PL (build_element_dict fld element_id).
Hypothesis PL_located : forall e p r,
  (1 <= p <= Z.of_nat N)%Z -> PL e -> PL (set_location e p r).
Hypothesis PG_new : forall element_id p active r,
  (1 <= p <= Z.of_nat N)%Z -> active <> "/Off"%string ->
  PG (append_option (new_option_group element_id p) (GroupOption active r)).
Hypothesis PG_appended : forall g active r,
  active <> "/Off"%string -> PG g ->
  PG (append_option g (GroupOption active r)).

Lemma collect_fields_PL fields :
  forall elements_by_id groups,
    Forall PL (dict_values elements_by_id) ->
    Forall PL (dict_values (fst (collect_fields fields elements_by_id groups))).
Proof.
  induction fields as [| [element_id fld] rest IH];
    intros elements_by_id groups H; simpl.
  - exact H.
  - destruct (fld_Kids fld).
    + destruct (opt_str_eqb _ _); apply IH, H.
    + apply IH. apply dict_set_Forall; [exact H | apply PL_built].
Qed.

Lemma single_active_not_off (names : list string) (active : string) :
  filter (fun v => negb (String.eqb v "/Off")) names = [active] ->
  active <> "/Off"%string.
Proof.
  intros H.
  assert (Hin : In active (filter (fun v => negb (String.eqb v "/Off")) names))
    by (rewrite H; left; reflexivity).
  apply filter_In in Hin. destruct Hin as [_ Hn].
  apply negb_true_iff in Hn. apply String.eqb_neq in Hn. exact Hn.
Qed.

Lemma visit_annotation_published groups page_idx ann st :
  (page_idx < N)%nat ->
  published_inv PL PG st ->
  published_inv PL PG (visit_annotation groups page_idx ann st).
Proof.
  intros Hidx Hinv. unfold visit_annotation.
  destruct st as [E G]. destruct Hinv as [HE HG]. cbn [fst snd] in HE, HG.
  assert (Hpage : (1 <= Z.of_nat page_idx + 1 <= Z.of_nat N)%Z) by lia.
  destruct (build_complete_element_id ann) as [element_id |];
    [| split; assumption].
  destruct (dict_get String.eqb E element_id) as [e |] eqn:Eget.
  - split; [| exact HG]. cbn [fst].
    apply dict_set_Forall; [exact HE |].
    apply PL_located; [exact Hpage |].
    apply (dict_get_Forall _ _ _ HE Eget).
  - destruct (str_in element_id groups); [| split; assumption].
    destruct (ann_AP_N ann) as [names |]; [| split; assumption].
    destruct (filter _ names) as [| active [| ? ?]] eqn:Ef;
      try (split; assumption).
    apply single_active_not_off in Ef.
    split; [exact HE |]. cbn [snd].
    apply dict_set_Forall; [exact HG |].
    destruct (dict_get String.eqb G element_id) as [g |] eqn:Eg.
    + apply PG_appended; [exact Ef |].
      apply (dict_get_Forall _ _ _ HG Eg).
    + apply PG_new; assumption.
Qed.

Lemma visit_pages_published groups pgs :
  forall page_idx st,
    (page_idx + length pgs = N)%nat ->
    published_inv PL PG st ->
    published_inv PL PG (visit_pages groups page_idx pgs st).
Proof.
  induction pgs as [| annotations rest IH]; intros page_idx st Hlen Hinv;
    simpl.
  - exact Hinv.
  - cbn [length] in Hlen. apply IH; [lia |].
    assert (Hidx : (page_idx < N)%nat) by lia.
    revert st Hinv.
    induction annotations as [| ann anns IHa]; intros st Hinv; simpl.
    + exact Hinv.
    + apply IHa. apply visit_annotation_published; assumption.
Qed.

Lemma merged_elements_invariant fields pgs :
  length pgs = N ->
  Forall (fun e => PL e \/ PG e) (merged_elements fields pgs).
Proof.
  intros Hlen. unfold merged_elements.
  pose proof (@collect_fields_PL fields [] [] (Forall_nil _)) as Hc.
  destruct (collect_fields fields [] []) as [E0 groups]. cbn [fst] in Hc.
  assert (Hinv : published_inv PL PG (E0, [])) by (split; [exact Hc | constructor]).
  apply (visit_pages_published groups pgs 0) in Hinv; [| exact Hlen].
  destruct (visit_pages groups 0 pgs (E0, [])) as [E G].
  destruct Hinv as [HE HG]. cbn [fst snd] in HE, HG.
  apply Forall_app. split.
  - unfold elements_with_location. apply Forall_forall. intros e Hin.
    apply filter_In in Hin. destruct Hin as [Hin _].
    rewrite Forall_forall in HE. left. apply HE, Hin.
  - eapply Forall_impl; [| exact HG]. intros g Hg. right. exact Hg.
Qed.
End PublishedInvariant.

Lemma published_invariant (PL PG : element -> Prop) reader elements :
  (forall fld element_id, PL (build_element_dict fld element_id)) ->
  (forall e p r,
      (1 <= p <= Z.of_nat (length (pages reader)))%Z ->
      PL e -> PL (set_location e p r)) ->
  (forall element_id p active r,
      (1 <= p <= Z.of_nat (length (pages reader)))%Z ->
      active <> "/Off"%string ->
      PG (append_option (new_option_group element_id p)
                        (GroupOption active r))) ->
  (forall g active r,
      active <> "/Off"%string -> PG g ->
      PG (append_option g (GroupOption active r))) ->
  parse_form_elements reader = Ok elements ->
  Forall (fun e => PL e \/ PG e) elements.
Proof.
  intros H1 H2 H3 H4 Hp.
  destruct (parse_form_elements_spec reader Hp) as (fields & _ & Hperm & _).
  apply Forall_forall. intros e Hin.
  pose proof (@merged_elements_invariant (length (pages reader)) PL PG
                H1 H2 H3 H4 fields (pages reader) eq_refl) as Hall.
  rewrite Forall_forall in Hall. apply Hall.
  apply (Permutation_in _ (Permutation_sym Hperm) Hin).
Qed.

Lemma published_pages_in_range reader elements :
  parse_form_elements reader = Ok elements ->
  Forall (fun e => exists p, el_page_num e = Some p
                             /\ (1 <= p <= Z.of_nat (length (pages reader)))%Z)
         elements.
Proof.
  intros Hp.
  pose proof (@published_invariant
                (page_in_range (length (pages reader)))
                (page_in_range (length (pages reader))) reader elements) as H.
  destruct (parse_form_elements_spec reader Hp) as (_ & _ & _ & _ & Hpub).
  assert (Hrange : Forall (fun e => page_in_range (length (pages reader)) e
                                    \/ page_in_range (length (pages reader)) e)
                          elements).
  { apply H; [| | | | exact Hp].
    - intros fld element_id p Hpage.
      destruct (build_element_dict_shape fld element_id) as (_ & _ & _).
      unfold build_element_dict in Hpage. cbv zeta in Hpage.
      repeat match type of Hpage with
             | context [if ?b then _ else _] => destruct b
             | context [match ?l with [] => _ | _ :: _ => _ end] => destruct l
             end; discriminate Hpage.
    - intros e p r Hr _ q [= <-]. exact Hr.
    - intros element_id p active r Hr _ q [= <-]. exact Hr.
    - intros g active r _ Hg q Hq. apply Hg. exact Hq. }
  rewrite Forall_forall in *. intros e Hin.
  specialize (Hpub e Hin). unfold publishable in Hpub.
  apply andb_true_iff in Hpub. destruct Hpub as [_ Hpage].
  destruct (el_page_num e) as [p |] eqn:Ep; [| discriminate Hpage].
  exists p. split; [reflexivity |].
  destruct (Hrange e Hin) as [Hr | Hr]; apply Hr, Ep.
Qed.

(** X13.  Every published element carries a page number, and it is the
    1-based number of a page of the document. *)
Theorem published_pages_exist :
  forall (reader : pdf_reader) (elements : list element) (e : element),
    parse_form_elements reader = Ok elements ->
    In e elements ->
    exists p, el_page_num e = Some p
              /\ (1 <= p <= Z.of_nat (length (pages reader)))%Z.
Proof.
  intros reader elements e Hp Hin.
  pose proof (published_pages_in_range reader Hp) as H.
  rewrite Forall_forall in H. apply H, Hin.
Qed.

Lemma published_pages_exist_witness :
  exists p, el_page_num twin_a = Some p
            /\ (1 <= p <= Z.of_nat (length (pages twin_reader)))%Z.
Proof.
  apply (published_pages_exist twin_reader (elements := [twin_a; twin_b])).
  - reflexivity.
  - left. reflexivity.
Defined.

Lemma published_options_never_off reader elements :
  parse_form_elements reader = Ok elements ->
  Forall never_off elements.
Proof.
  intros Hp.
  pose proof (@published_invariant never_off never_off reader elements) as H.
  eapply Forall_impl; [| apply H; [| | | | exact Hp]].
  - intros e [He | He]; exact He.
  - intros fld element_id options o Ho.
    destruct (build_element_dict_shape fld element_id) as (_ & Hnone & _).
    rewrite Hnone in Ho. discriminate Ho.
  - intros e p r _ He. exact He.
  - intros element_id p active r _ Hact options o [= <-] [<- | []].
    exact Hact.
  - intros g active r Hact Hg options o [= <-] Hin.
    apply in_app_or in Hin. destruct Hin as [Hin | [<- | []]];
      [| exact Hact].
    destruct (el_available_options g) as [opts |] eqn:E;
      [| destruct Hin].
    apply (Hg opts o E Hin).
Qed.

(** X14.  [/Off] is never an option of a published option group, so an
    option group cannot be cleared through the filler: the fill value
    [/Off] is always rejected, with the list of the group's options. *)
Theorem option_group_rejects_off :
  forall (reader : pdf_reader) (elements : list element) (e : element),
    parse_form_elements reader = Ok elements ->
    In e elements ->
    el_element_type e = option_group ->
    exists options,
      el_available_options e = Some options
      /\ options <> []
      /\ ~ In "/Off"%string (map go_option_value options)
      /\ validate_element_value e "/Off"
         = Ok (Some (DiagOptionGroup (el_element_id e) "/Off"
                       (map go_option_value options))).
Proof.
  intros reader elements e Hp Hin Hty.
  pose proof (published_shape reader Hp) as Hshape.
  pose proof (published_options_never_off reader Hp) as Hoff.
  rewrite Forall_forall in Hshape, Hoff.
  specialize (Hoff e Hin).
  destruct (Hshape e Hin) as [Hc | Hb];
    [| unfold bare_toggle in Hb; rewrite Hty in Hb; discriminate Hb].
  unfold carries_required in Hc. rewrite Hty in Hc.
  destruct (el_available_options e) as [[| o options] |] eqn:Eo;
    try (rewrite !andb_false_r in Hc; discriminate Hc).
  exists (o :: options). split; [reflexivity |]. split; [discriminate |].
  assert (Hnot : ~ In "/Off"%string (map go_option_value (o :: options))).
  { intros H. apply in_map_iff in H. destruct H as (x & Hx & Hxin).
    apply (Hoff (o :: options) x Eo Hxin Hx). }
  split; [exact Hnot |].
  unfold validate_element_value. rewrite Hty, Eo. cbn [getitem bind].
  apply str_in_false_iff in Hnot. rewrite Hnot. reflexivity.
Qed.

Lemma option_group_rejects_off_witness :
  exists options,
    el_available_options
      (Element "color" option_group (Some 2%Z) None None None None
         (Some [GroupOption "/Red" (Some (Bbox 300 500 310 510));
                GroupOption "/Blue" (Some (Bbox 320 600 330 610))]))
    = Some options
    /\ options <> []
    /\ ~ In "/Off"%string (map go_option_value options)
    /\ validate_element_value
         (Element "color" option_group (Some 2%Z) None None None None
            (Some [GroupOption "/Red" (Some (Bbox 300 500 310 510));
                   GroupOption "/Blue" (Some (Bbox 320 600 330 610))]))
         "/Off"
       = Ok (Some (DiagOptionGroup "color" "/Off"
                     (map go_option_value options))).
Proof.
  refine (option_group_rejects_off radio_reader (elements := _) _ _ _ _).
  - reflexivity.
  - left. reflexivity.
  - reflexivity.
Defined.

(** ** FormFiller: which value is written *)

Lemma Z_eqb_eq_iff (a b : Z) : (a =? b)%Z = true <-> a = b.
Proof. apply Z.eqb_eq. Qed.

Lemma group_by_page_lookup form_data :
  forall d p id,
    fill_lookup (group_by_page form_data d) p id
    = match last_fill form_data p id with
      | Some v => Some v
      | None => fill_lookup d p id
      end.
Proof.
  induction form_data as [| entry rest IH]; intros d p id;
    cbn [group_by_page last_fill]; [reflexivity |].
  destruct (in_fill_value entry) as [v |] eqn:Ev.
  - rewrite IH. destruct (last_fill rest p id); [reflexivity |].
    unfold fill_lookup, fills. rewrite Ev. cbn [is_none negb].
    rewrite andb_true_r.
    rewrite (@dict_get_set _ _ Z.eqb Z_eqb_eq_iff).
    destruct (Z.eqb_spec (in_page_num entry) p) as [-> | Hp]; cbn [andb].
    + cbn [from_option].
      rewrite (@dict_get_set _ _ String.eqb String.eqb_eq).
      destruct (String.eqb (in_element_id entry) id); reflexivity.
    + reflexivity.
  - rewrite IH. destruct (last_fill rest p id); [reflexivity |].
    unfold fills. rewrite Ev. cbn [is_none negb]. rewrite andb_false_r.
    reflexivity.
Qed.

Lemma last_fill_after before entry after p id v :
  fills entry p id = true -> in_fill_value entry = Some v ->
  Forall (fun x => fills x p id = false) after ->
  last_fill (before ++ entry :: after) p id = Some v.
Proof.
  intros Hf Hv Hafter.
  assert (Hnone : last_fill after p id = None).
  { induction Hafter as [| x l Hx _ IH]; cbn [last_fill]; [reflexivity |].
    rewrite IH, Hx. reflexivity. }
  induction before as [| b before IH]; cbn [app last_fill].
  - rewrite Hnone, Hf. exact Hv.
  - rewrite IH. reflexivity.
Qed.

Lemma last_fill_none form_data p id :
  last_fill form_data p id = None <->
  Forall (fun x => fills x p id = false) form_data.
Proof.
  induction form_data as [| entry rest IH]; cbn [last_fill].
  - split; [constructor | reflexivity].
  - destruct (last_fill rest p id) as [v |] eqn:E.
    + split; [discriminate |]. intros H.
      inversion H as [| ? ? _ Hrest]; subst.
      apply IH in Hrest. discriminate Hrest.
    + destruct (fills entry p id) eqn:Ef.
      * split.
        -- intros Hn. unfold fills in Ef. rewrite Hn in Ef.
           cbn [is_none negb] in Ef. rewrite andb_false_r in Ef.
           discriminate Ef.
        -- intros H. inversion H as [| ? ? Hx _]; subst. congruence.
      * split; [| reflexivity]. intros _.
        constructor; [exact Ef | apply IH; reflexivity].
Qed.

(** X15.  When a batch names the same field of a page more than once,
    the value of the last such instruction is the one grouped for
    writing; instructions without [fill_value] group nothing; and a
    field is absent from the grouped data exactly when no instruction
    fills it. *)
Theorem group_by_page_last_wins :
  (forall (before after : list instruction) (entry : instruction)
          (p : Z) (id v : string),
      in_page_num entry = p -> in_element_id entry = id ->
      in_fill_value entry = Some v ->
      Forall (fun x => fills x p id = false) after ->
      fill_lookup (group_by_page (before ++ entry :: after) []) p id = Some v)
  /\ (forall (form_data : list instruction) (p : Z) (id : string),
         fill_lookup (group_by_page form_data []) p id = None
         <-> Forall (fun x => fills x p id = false) form_data)
  /\ (forall (form_data : list instruction) (p : Z) (id : string),
         fill_lookup (group_by_page form_data []) p id
         = last_fill form_data p id).
Proof.
  assert (Heq : forall form_data p id,
             fill_lookup (group_by_page form_data []) p id
             = last_fill form_data p id).
  { intros form_data p id. rewrite group_by_page_lookup.
    destruct (last_fill form_data p id); reflexivity. }
  split; [| split].
  - intros before after entry p id v Hp Hid Hv Hafter.
    rewrite Heq. apply last_fill_after; [| exact Hv | exact Hafter].
    unfold fills. rewrite Hp, Hid, Hv, Z.eqb_refl, String.eqb_refl.
    reflexivity.
  - intros form_data p id. rewrite Heq. apply last_fill_none.
  - exact Heq.
Qed.

Lemma group_by_page_last_wins_witness :
  fill_lookup
    (group_by_page
       ([Instruction "name" 2 (Some "Alice"%string)]
        ++ Instruction "name" 2 (Some "Bob"%string)
           :: [Instruction "name" 2 None;
               Instruction "name" 1 (Some "Carol"%string)])
       [])
    2 "name"
  = Some "Bob"%string.
Proof.
  apply (proj1 group_by_page_last_wins
           [Instruction "name" 2 (Some "Alice"%string)]
           [Instruction "name" 2 None;
            Instruction "name" 1 (Some "Carol"%string)]
           (Instruction "name" 2 (Some "Bob"%string))).
  - reflexivity.
  - reflexivity.
  - reflexivity.
  - repeat constructor.
Defined.

(** ** FormFiller: a batch that passes is written *)












(** ** FieldDetector and the extractor *)

Lemma visit_pages_nothing_collected :
  forall pgs page_idx, visit_pages [] page_idx pgs ([], []) = ([], []).
Proof.
  induction pgs as [| annotations rest IH]; intros page_idx;
    cbn [visit_pages]; [reflexivity |].
  assert (H : fold_left (fun s ann => visit_annotation [] page_idx ann s)
                        annotations ([], [])
              = (@nil (string * element), @nil (string * element))).
  { induction annotations as [| ann l IHl]; cbn [fold_left]; [reflexivity |].
    assert (Hv : visit_annotation [] page_idx ann ([], []) = ([], [])).
    { unfold visit_annotation.
      destruct (build_complete_element_id ann); reflexivity. }
    rewrite Hv. exact IHl. }
  rewrite H. apply IH.
Qed.

Lemma parse_form_elements_no_fields pgs :
  parse_form_elements (PdfReader (Some []) pgs) = Ok [].
Proof.
  unfold parse_form_elements, merged_elements.
  cbn [get_fields pages collect_fields].
  rewrite visit_pages_nothing_collected. reflexivity.
Qed.

Lemma check_instructions_no_elements :
  forall form_data printed has_errors,
    check_instructions [] form_data printed has_errors
    = (printed ++ map (fun entry => DiagUnknownId (in_element_id entry))
                      form_data,
       Ok (match form_data with [] => has_errors | _ => true end)).
Proof.
  induction form_data as [| entry rest IH]; intros printed has_errors;
    cbn [check_instructions dict_get map].
  - rewrite app_nil_r. reflexivity.
  - rewrite IH, <- app_assoc. cbn [app]. destruct rest; reflexivity.
Qed.

(** X18 (detect_interactive_fields, with parse_form_elements and
    populate_form_fields): for a document that the detector reports as
    having no interactive fields, the extractor publishes no element
    (it raises AttributeError when [get_fields()] is [None] and returns
    the empty list when it is an empty dictionary), and the filler
    writes nothing for any batch with at least one instruction: it
    ends with the same AttributeError, or reports every instruction as
    an unknown id and exits with status 1. *)
Theorem undetected_fields_publish_nothing reader :
  detect_interactive_fields reader = NoInteractiveFields ->
  (parse_form_elements reader = Raise AttributeError
   \/ parse_form_elements reader = Ok [])
  /\ forall form_data,
       form_data <> [] ->
       populate_form_fields reader form_data = ([], Raise AttributeError)
       \/ populate_form_fields reader form_data
          = (map (fun entry => DiagUnknownId (in_element_id entry)) form_data,
             Raise (SystemExit 1)).
Proof.
  destruct reader as [[[| f fields] |] pgs]; unfold detect_interactive_fields;
    cbn [get_fields]; intros Hd; try discriminate Hd.
  - split; [right; apply parse_form_elements_no_fields |].
    intros form_data Hne. right.
    unfold populate_form_fields.
    rewrite parse_form_elements_no_fields.
    cbn [index_by_id fold_left].
    rewrite check_instructions_no_elements. cbn [app].
    destruct form_data; [contradiction | reflexivity].
  - split; [left; reflexivity |].
    intros form_data _. left. reflexivity.
Qed.

Lemma undetected_fields_publish_nothing_witness :
  (parse_form_elements (PdfReader (Some []) [[]; []]) = Raise AttributeError
   \/ parse_form_elements (PdfReader (Some []) [[]; []]) = Ok [])
  /\ forall form_data,
       form_data <> [] ->
       populate_form_fields (PdfReader (Some []) [[]; []]) form_data
       = ([], Raise AttributeError)
       \/ populate_form_fields (PdfReader (Some []) [[]; []]) form_data
          = (map (fun entry => DiagUnknownId (in_element_id entry)) form_data,
             Raise (SystemExit 1)).
Proof.
  apply (undetected_fields_publish_nothing (PdfReader (Some []) [[]; []])).
  reflexivity.
Defined.

(** The detector says yes as soon as one field exists, also when the
    extractor then publishes nothing: a field with kids that is not a
    button is skipped, and no annotation names it. *)
Example detected_but_nothing_published :
  detect_interactive_fields
    (PdfReader (Some [("address"%string, Field None true None None)]) [[]])
  = HasInteractiveFields
  /\ parse_form_elements
       (PdfReader (Some [("address"%string, Field None true None None)]) [[]])
     = Ok [].
Proof. split; reflexivity. Qed.

(** ** PreviewOverlay *)





(** ** The workaround for choice fields *)

Lemma first_items_total items :
  forallb is_two_element_list items = true ->
  exists xs, first_items items = Some xs /\ length xs = length items.
Proof.
  induction items as [| r rest IH]; cbn [forallb first_items].
  - intros _. exists []. split; reflexivity.
  - intros H. apply andb_prop in H. destruct H as [Hr Hrest].
    destruct r as [s | [| x [| y [| z l]]] |]; try discriminate Hr.
    destruct (IH Hrest) as (xs & -> & Hlen).
    cbn [item0]. exists (x :: xs). split; [reflexivity |].
    cbn [length]. rewrite Hlen. reflexivity.
Qed.

Lemma option_pairs_are_pairs pairs :
  forallb is_two_element_list
    (map (fun p => PdfList [PdfStr (fst p); PdfStr (snd p)]) pairs) = true.
Proof. induction pairs as [| p l IH]; [reflexivity | exact IH]. Qed.

Lemma first_items_option_pairs pairs :
  first_items (map (fun p => PdfList [PdfStr (fst p); PdfStr (snd p)]) pairs)
  = Some (map (fun p => PdfStr (fst p)) pairs).
Proof.
  induction pairs as [| p l IH]; cbn [map first_items item0];
    [reflexivity |].
  rewrite IH. reflexivity.
Qed.

Lemma join_strings sep (pairs : list (string * string)) :
  exists text, join sep (map (fun p => PdfStr (fst p)) pairs) = Some text.
Proof.
  induction pairs as [| p l IH]; cbn [map join].
  - eexists. reflexivity.
  - destruct IH as (text & Ht).
    destruct (map (fun p => PdfStr (fst p)) l) as [| v vs] eqn:E.
    + eexists. reflexivity.
    + rewrite Ht. eexists. reflexivity.
Qed.

(** X20 (apply_pypdf_workaround, patched_get_inherited): the patch
    never raises; it returns the original result for every key other
    than [/Opt] and for every list with an item that is not a
    two-element list.  For an [/Opt] array of [[value, label]] pairs of
    strings it returns the list of the values, which [join] accepts,
    whereas [join] raises on the original array as soon as it has an
    item. *)
Theorem patched_get_inherited_joinable :
  (forall original key_is_opt,
      exists v, patched_get_inherited original key_is_opt = Some v)
  /\ (forall original, patched_get_inherited original false = Some original)
  /\ (forall items,
         forallb is_two_element_list items = false ->
         patched_get_inherited (PdfList items) true = Some (PdfList items))
  /\ (forall pairs,
         patched_get_inherited (option_pairs pairs) true
         = Some (PdfList (map (fun p => PdfStr (fst p)) pairs))
         /\ (exists text,
                join newline (map (fun p => PdfStr (fst p)) pairs) = Some text)
         /\ (pairs <> [] ->
             join newline
               (map (fun p => PdfList [PdfStr (fst p); PdfStr (snd p)]) pairs)
             = None)).
Proof.
  split; [| split; [| split]].
  - intros original [|]; cbn [patched_get_inherited]; [| eexists; reflexivity].
    unfold patched_get_inherited.
    destruct original as [s | items |]; try (eexists; reflexivity).
    destruct (forallb is_two_element_list items) eqn:E;
      [| eexists; reflexivity].
    destruct (first_items_total items E) as (xs & -> & _).
    eexists. reflexivity.
  - reflexivity.
  - intros items H. unfold patched_get_inherited. rewrite H. reflexivity.
  - intros pairs. split; [| split].
    + unfold patched_get_inherited, option_pairs.
      rewrite option_pairs_are_pairs, first_items_option_pairs. reflexivity.
    + apply join_strings.
    + intros Hne. destruct pairs as [| p l]; [contradiction | reflexivity].
Qed.

Lemma patched_get_inherited_joinable_witness :
  patched_get_inherited
    (PdfList [PdfList [PdfStr "a"; PdfStr "Alpha"]; PdfStr "b"]) true
  = Some (PdfList [PdfList [PdfStr "a"; PdfStr "Alpha"]; PdfStr "b"])
  /\ join newline
       (map (fun p => PdfList [PdfStr (fst p); PdfStr (snd p)])
            [("a", "Alpha"); ("b", "Beta")]%string)
     = None.
Proof.
  split.
  - apply (proj1 (proj2 (proj2 patched_get_inherited_joinable))).
    reflexivity.
  - apply (proj2 (proj2 (proj2 (proj2 (proj2 patched_get_inherited_joinable))
                           [("a", "Alpha"); ("b", "Beta")]%string))).
    discriminate.
Defined.

(** ** FormulaProcessor: the error scan *)

Lemma prefix_iff_append :
  forall needle hay,
    String.prefix needle hay = true
    <-> exists post, hay = (needle ++ post)%string.
Proof.
  induction needle as [| a needle IH]; intros hay.
  - destruct hay; cbn; (split; [intros _; eexists; reflexivity | reflexivity]).
  - destruct hay as [| b hay]; cbn [String.prefix].
    + split; [discriminate | intros (post & H); discriminate H].
    + destruct (Ascii.ascii_dec a b) as [-> | Hne].
      * rewrite IH. split; intros (post & H); exists post.
        -- cbn. rewrite H. reflexivity.
        -- cbn in H. injection H as H. exact H.
      * split; [discriminate |].
        intros (post & H). cbn in H. injection H as H _.
        exfalso. apply Hne. symmetry. exact H.
Qed.

(** [substring_in] is the substring test. *)
Lemma substring_in_spec needle :
  forall hay,
    substring_in needle hay = true
    <-> exists pre post, hay = (pre ++ needle ++ post)%string.
Proof.
  induction hay as [| c hay IH]; cbn [substring_in].
  - rewrite orb_false_r, prefix_iff_append. split.
    + intros (post & H). exists EmptyString, post. exact H.
    + intros ([| c pre] & post & H); [exists post; exact H |].
      discriminate H.
  - rewrite orb_true_iff, prefix_iff_append, IH. split.
    + intros [(post & H) | (pre & post & H)].
      * exists EmptyString, post. exact H.
      * exists (String c pre), post. cbn. rewrite H. reflexivity.
    + intros ([| c' pre] & post & H).
      * left. exists post. exact H.
      * right. cbn in H. injection H as _ H. exists pre, post. exact H.
Qed.

Lemma first_error_spec text :
  forall types err,
    first_error types text = Some err ->
    exists before after,
      types = before ++ err :: after
      /\ substring_in err text = true
      /\ Forall (fun e => substring_in e text = false) before.
Proof.
  induction types as [| e rest IH]; intros err; cbn [first_error];
    [discriminate |].
  destruct (substring_in e text) eqn:E.
  - intros [= <-]. exists [], rest. repeat split; [exact E | constructor].
  - intros H. destruct (IH err H) as (before & after & -> & Hs & Hb).
    exists (e :: before), after. repeat split; [exact Hs |].
    constructor; assumption.
Qed.

Lemma first_error_none text :
  forall types,
    first_error types text = None
    <-> Forall (fun e => substring_in e text = false) types.
Proof.
  induction types as [| e rest IH]; cbn [first_error].
  - split; [constructor | reflexivity].
  - destruct (substring_in e text) eqn:E.
    + split; [discriminate |]. intros H.
      inversion H as [| ? ? He _]; subst. congruence.
    + rewrite IH. split; [intros H; constructor; assumption |].
      intros H. inversion H; assumption.
Qed.

Lemma fold_left_concat {A B : Type} (f : A -> B -> A) :
  forall (rows : list (list B)) (a : A),
    fold_left (fun acc row => fold_left f row acc) rows a
    = fold_left f (concat rows) a.
Proof.
  induction rows as [| row rows IH]; intros a; cbn [fold_left concat].
  - reflexivity.
  - rewrite fold_left_app. apply IH.
Qed.

Lemma fold_left_map {A B C : Type} (f : A -> C -> A) (g : B -> C) :
  forall (l : list B) (a : A),
    fold_left f (map g l) a = fold_left (fun acc x => f acc (g x)) l a.
Proof.
  induction l as [| x l IH]; intros a; cbn [fold_left map];
    [reflexivity | apply IH].
Qed.

(** The three nested loops visit the located cells in order. *)
Lemma scan_sheets_flat :
  forall (wb : workbook) st,
    fold_left scan_sheet wb st = fold_left scan_located (located_cells wb) st.
Proof.
  induction wb as [| sheet wb IH]; intros st;
    cbn [fold_left located_cells flat_map]; [reflexivity |].
  rewrite fold_left_app, IH. f_equal.
  unfold scan_sheet. rewrite fold_left_concat, fold_left_map. reflexivity.
Qed.

Lemma dict_set_append_total (d : dict string (list string)) k old x :
  dict_get String.eqb d k = Some old ->
  total_filed (dict_set String.eqb d k (old ++ [x])) = S (total_filed d).
Proof.
  unfold total_filed.
  induction d as [| [k' v'] d IH]; cbn [dict_get dict_set];
    [discriminate |].
  destruct (String.eqb k' k).
  - intros [= ->]. cbn [map list_sum fold_right snd].
    rewrite length_app. cbn [length]. lia.
  - intros H. cbn [map list_sum fold_right snd].
    unfold list_sum in IH. rewrite (IH H). lia.
Qed.

Lemma filed_in_error_types c err :
  filed_under c = Some err -> In err error_types.
Proof.
  unfold filed_under. destruct (value c) as [| text |]; try discriminate.
  intros H. destruct (first_error_spec _ _ H) as (before & after & -> & _).
  apply in_elt.
Qed.

Lemma error_types_distinct : NoDup error_types.
Proof.
  unfold error_types.
  repeat (apply NoDup_cons;
          [cbn; intros H;
           repeat (destruct H as [H | H]; [discriminate H |]); exact H |]).
  apply NoDup_nil.
Qed.

Lemma scan_located_step (m : dict string (list string)) n nc :
  scan_located (m, n) nc
  = match filed_under (snd nc) with
    | Some err =>
        (dict_set String.eqb m err
           (from_option (dict_get String.eqb m err) []
            ++ [cell_location (fst nc) (snd nc)]),
         (n + 1)%nat)
    | None => (m, n)
    end.
Proof.
  unfold scan_located, scan_cell, filed_under.
  destruct (value (snd nc)); reflexivity.
Qed.

Lemma locations_of_cons err nc cells :
  locations_of err (nc :: cells)
  = match filed_under (snd nc) with
    | Some e =>
        if String.eqb e err then [cell_location (fst nc) (snd nc)] else []
    | None => []
    end ++ locations_of err cells.
Proof.
  unfold locations_of. cbn [filter].
  destruct (filed_under (snd nc)) as [e |]; [| reflexivity].
  destruct (String.eqb e err); reflexivity.
Qed.

Lemma filed_count_cons nc cells :
  length (filter is_filed (nc :: cells))
  = ((if is_filed nc then 1 else 0) + length (filter is_filed cells))%nat.
Proof. cbn [filter]. destruct (is_filed nc); reflexivity. Qed.

(** The state of the scan after a list of located cells. *)
Lemma scan_located_invariant :
  forall cells (m : dict string (list string)) n,
    map fst m = error_types ->
    let st := fold_left scan_located cells (m, n) in
    map fst (fst st) = error_types
    /\ (forall err,
           In err error_types ->
           dict_get String.eqb (fst st) err
           = Some (from_option (dict_get String.eqb m err) []
                   ++ locations_of err cells))
    /\ snd st = (n + length (filter is_filed cells))%nat
    /\ (total_filed (fst st) + n = total_filed m + snd st)%nat.
Proof.
  induction cells as [| nc cells IH]; intros m n Hkeys; cbv zeta.
  - cbn [fold_left fst snd filter length locations_of map].
    split; [exact Hkeys |]. split; [| split; lia].
    intros err Hin. rewrite app_nil_r.
    destruct (dict_get String.eqb m err) as [l |] eqn:E; [reflexivity |].
    exfalso. apply (@dict_get_none_iff _ _ String.eqb String.eqb_eq) in E.
    apply E. rewrite Hkeys. exact Hin.
  - cbn [fold_left]. rewrite scan_located_step, filed_count_cons.
    unfold is_filed at 1.
    destruct (filed_under (snd nc)) as [e |] eqn:Ef; cbn [is_none negb].
    + assert (Hin : In e error_types)
        by (apply (@filed_in_error_types (snd nc)), Ef).
      destruct (dict_get String.eqb m e) as [old |] eqn:Eold.
      2:{ exfalso.
          apply (@dict_get_none_iff _ _ String.eqb String.eqb_eq) in Eold.
          apply Eold. rewrite Hkeys. exact Hin. }
      cbn [from_option].
      assert (Hkeys' : map fst (dict_set String.eqb m e
                                  (old ++ [cell_location (fst nc) (snd nc)]))
                       = error_types).
      { erewrite dict_set_keys_present; [exact Hkeys | exact Eold]. }
      specialize (IH _ (n + 1)%nat Hkeys'). cbv zeta in IH.
      destruct IH as (H1 & H2 & H3 & H4).
      split; [exact H1 |]. split; [| split].
      * intros err Herr.
        etransitivity; [exact (H2 err Herr) |].
        rewrite locations_of_cons, Ef.
        rewrite (@dict_get_set _ _ String.eqb String.eqb_eq).
        f_equal. destruct (String.eqb e err) eqn:Ee.
        -- apply String.eqb_eq in Ee. subst err. rewrite Eold.
           cbn [from_option]. rewrite <- app_assoc. reflexivity.
        -- reflexivity.
      * rewrite H3. lia.
      * erewrite dict_set_append_total in H4; [| exact Eold]. lia.
    + specialize (IH m n Hkeys). cbv zeta in IH.
      destruct IH as (H1 & H2 & H3 & H4).
      split; [exact H1 |]. split; [| split; [lia | exact H4]].
      intros err Herr. etransitivity; [exact (H2 err Herr) |].
      rewrite locations_of_cons, Ef. reflexivity.
Qed.

Lemma empty_map_lookup (types : list string) err :
  from_option
    (dict_get String.eqb (map (fun e => (e, @nil string)) types) err) []
  = [].
Proof.
  induction types as [| e rest IH]; cbn [map dict_get]; [reflexivity |].
  destruct (String.eqb e err); [reflexivity | exact IH].
Qed.

Lemma empty_map_total (types : list string) :
  total_filed (map (fun e => (e, @nil string)) types) = 0%nat.
Proof.
  unfold total_filed. induction types as [| e rest IH]; [reflexivity |].
  cbn [map list_sum fold_right snd length]. exact IH.
Qed.

(** What the scan of a workbook leaves in [error_map] and
    [error_count]. *)
Lemma scan_workbook_state wb :
  map fst (fst (scan_workbook wb)) = error_types
  /\ (forall err,
         In err error_types ->
         dict_get String.eqb (fst (scan_workbook wb)) err
         = Some (locations_of err (located_cells wb)))
  /\ snd (scan_workbook wb) = length (filter is_filed (located_cells wb))
  /\ total_filed (fst (scan_workbook wb)) = snd (scan_workbook wb).
Proof.
  unfold scan_workbook. rewrite scan_sheets_flat.
  assert (Hkeys : map fst (map (fun e => (e, @nil string)) error_types)
                  = error_types).
  { rewrite map_map. cbn [fst]. apply map_id. }
  destruct (scan_located_invariant (located_cells wb) _ 0%nat Hkeys)
    as (H1 & H2 & H3 & H4).
  split; [exact H1 |]. split; [| split].
  - intros err Herr. etransitivity; [exact (H2 err Herr) |].
    rewrite empty_map_lookup. reflexivity.
  - exact H3.
  - rewrite empty_map_total, Nat.add_0_r in H4. exact H4.
Qed.

(** X21 (process_formulas, the error scan): after the scan the keys of
    [error_map] are the seven error types in their order; the list
    filed under a type holds, in scan order (sheets, rows, cells), the
    locations of exactly the string cells whose first matching type is
    that one; [error_count] is the number of string cells that contain
    an error text, each counted once, and equals the total number of
    locations filed; and a cell is filed under the first type of
    [error_types] that occurs in its text, wherever the other types
    occur. *)
Theorem scan_files_each_cell_once wb :
  map fst (fst (scan_workbook wb)) = error_types
  /\ (forall err,
         In err error_types ->
         dict_get String.eqb (fst (scan_workbook wb)) err
         = Some (locations_of err (located_cells wb)))
  /\ snd (scan_workbook wb) = length (filter is_filed (located_cells wb))
  /\ snd (scan_workbook wb) = total_filed (fst (scan_workbook wb))
  /\ (forall c err,
         filed_under c = Some err ->
         exists text before after,
           value c = ValStr text
           /\ error_types = before ++ err :: after
           /\ (exists pre post, text = (pre ++ err ++ post)%string)
           /\ Forall (fun e => substring_in e text = false) before).
Proof.
  destruct (scan_workbook_state wb) as (H1 & H2 & H3 & H4).
  split; [exact H1 |]. split; [exact H2 |]. split; [exact H3 |].
  split; [symmetry; exact H4 |].
  intros c err. unfold filed_under.
  destruct (value c) as [| text |]; try discriminate.
  intros H. destruct (first_error_spec _ _ H) as (before & after & E & Hs & Hb).
  exists text, before, after. split; [reflexivity |]. split; [exact E |].
  split; [apply substring_in_spec, Hs | exact Hb].
Qed.

Lemma scan_files_each_cell_once_witness :
  dict_get String.eqb (fst (scan_workbook sample_workbook)) "#REF!"%string
  = Some (locations_of "#REF!" (located_cells sample_workbook))
  /\ locations_of "#REF!" (located_cells sample_workbook)
     = ["Sheet1!A1"; "Data!B1"]%string
  /\ filed_under (Cell "A2" (ValStr "#DIV/0! and #VALUE!"))
     = Some "#VALUE!"%string.
Proof.
  split; [| split; reflexivity].
  apply (proj1 (proj2 (scan_files_each_cell_once sample_workbook))).
  cbn. tauto.
Defined.

(** ** FormulaProcessor: the report *)

Lemma dict_by_keys {V : Type} (g : string -> V) :
  forall m : dict string V,
    NoDup (map fst m) ->
    (forall k, In k (map fst m) -> dict_get String.eqb m k = Some (g k)) ->
    m = map (fun k => (k, g k)) (map fst m).
Proof.
  induction m as [| [k v] m IH]; intros Hd Hg; [reflexivity |].
  cbn [map fst] in *. apply NoDup_cons_iff in Hd. destruct Hd as [Hk Hd].
  f_equal.
  - specialize (Hg k (or_introl eq_refl)). cbn [dict_get] in Hg.
    rewrite String.eqb_refl in Hg. injection Hg as ->. reflexivity.
  - apply IH; [exact Hd |]. intros k' Hk'.
    specialize (Hg k' (or_intror Hk')). cbn [dict_get] in Hg.
    destruct (String.eqb k k') eqn:E; [| exact Hg].
    apply String.eqb_eq in E. subst k'. contradiction.
Qed.

Lemma dict_set_fresh {V : Type} (out : dict string V) k v :
  ~ In k (map fst out) -> dict_set String.eqb out k v = out ++ [(k, v)].
Proof.
  induction out as [| [k' v'] out IH]; cbn [dict_set map fst app In];
    [reflexivity |].
  intros H. destruct (String.eqb k' k) eqn:E.
  - apply String.eqb_eq in E. exfalso. apply H. left. exact E.
  - rewrite IH; [reflexivity |]. intros Hin. apply H. right. exact Hin.
Qed.

(** [error_breakdown] keeps the non-empty categories in order. *)
Lemma error_breakdown_closed :
  forall m : dict string (list string),
    NoDup (map fst m) ->
    error_breakdown m
    = map (fun kv => (fst kv, breakdown_of (snd kv)))
          (filter (fun kv => has_cells (snd kv)) m).
Proof.
  unfold error_breakdown.
  assert (G : forall (m : dict string (list string)) out,
             NoDup (map fst m) ->
             (forall k, In k (map fst m) -> ~ In k (map fst out)) ->
             fold_left add_category m out
             = out ++ map (fun kv => (fst kv, breakdown_of (snd kv)))
                          (filter (fun kv => has_cells (snd kv)) m)).
  { induction m as [| [k cells] m IH]; intros out Hd Hfresh;
      cbn [fold_left filter map fst snd].
    - rewrite app_nil_r. reflexivity.
    - cbn [map fst] in Hd. apply NoDup_cons_iff in Hd.
      destruct Hd as [Hk Hd]. unfold add_category at 2. cbn [fst snd].
      destruct cells as [| c cells]; cbn [has_cells].
      + apply IH; [exact Hd |].
        intros k' Hk'. apply Hfresh. right. exact Hk'.
      + rewrite dict_set_fresh by (apply Hfresh; left; reflexivity).
        rewrite IH; [| exact Hd |].
        * rewrite <- app_assoc. reflexivity.
        * intros k' Hk'. rewrite map_app, in_app_iff. cbn [map fst In].
          intros [H | [H | []]].
          -- apply (Hfresh k'); [right; exact Hk' | exact H].
          -- subst k'. contradiction.
  }
  intros m Hd. rewrite (G m [] Hd); [reflexivity |]. intros k _ [].
Qed.

Lemma reported_total (m : dict string (list string)) :
  list_sum (map (fun kv => length (snd kv))
                (filter (fun kv => has_cells (snd kv)) m))
  = total_filed m.
Proof.
  unfold total_filed. induction m as [| [k cells] m IH]; [reflexivity |].
  cbn [filter snd]. destruct cells as [| c cells]; cbn [has_cells].
  - cbn [map list_sum fold_right snd length]. exact IH.
  - cbn [map list_sum fold_right snd]. unfold list_sum in IH.
    rewrite IH. reflexivity.
Qed.

Lemma reported_none (m : dict string (list string)) :
  filter (fun kv => has_cells (snd kv)) m = [] <-> total_filed m = 0%nat.
Proof.
  unfold total_filed. induction m as [| [k cells] m IH].
  - split; reflexivity.
  - cbn [filter snd map list_sum fold_right].
    destruct cells as [| c cells]; cbn [has_cells length].
    + exact IH.
    + split; [discriminate | intros H; discriminate H].
Qed.

Lemma count_if_fold {A : Type} (p : A -> bool) :
  forall (l : list A) (total : nat),
    fold_left (fun total c => if p c then (total + 1)%nat else total) l total
    = (total + length (filter p l))%nat.
Proof.
  induction l as [| x l IH]; intros total; cbn [fold_left filter].
  - cbn [length]. lia.
  - rewrite IH. destruct (p x); cbn [length]; lia.
Qed.

Lemma count_formulas_closed (wb : workbook) :
  count_formulas wb = length (filter is_formula (map snd (located_cells wb))).
Proof.
  unfold count_formulas.
  assert (G : forall (wb : workbook) total,
             fold_left
               (fun total sheet =>
                  fold_left
                    (fun total row =>
                       fold_left
                         (fun total c =>
                            if is_formula c then (total + 1)%nat else total)
                         row total)
                    (snd sheet) total) wb total
             = (total
                + length (filter is_formula (map snd (located_cells wb))))%nat).
  { clear wb. induction wb as [| sheet wb IH]; intros total;
      cbn [fold_left located_cells flat_map].
    - cbn. lia.
    - rewrite IH, fold_left_concat, count_if_fold.
      rewrite map_app, filter_app, length_app, map_map. cbn [snd].
      rewrite map_id. fold (located_cells wb). lia. }
  apply (G wb 0%nat).
Qed.

(** The shape of the dictionary that the scan leaves. *)
Lemma scan_workbook_map wb :
  fst (scan_workbook wb)
  = map (fun err => (err, locations_of err (located_cells wb))) error_types.
Proof.
  destruct (scan_workbook_state wb) as (H1 & H2 & _).
  rewrite <- H1 at 1. apply dict_by_keys.
  - rewrite H1. apply error_types_distinct.
  - intros k Hk. apply H2. rewrite <- H1. exact Hk.
Qed.

Lemma error_breakdown_of_scan wb :
  error_breakdown (fst (scan_workbook wb))
  = map (fun err => (err, breakdown_of (locations_of err (located_cells wb))))
        (reported_types (located_cells wb)).
Proof.
  rewrite error_breakdown_closed.
  - rewrite scan_workbook_map. unfold reported_types.
    induction error_types as [| e rest IH]; [reflexivity |].
    cbn [map filter snd].
    destruct (has_cells (locations_of e (located_cells wb)));
      cbn [map fst snd]; rewrite IH; reflexivity.
  - rewrite (proj1 (scan_workbook_state wb)). apply error_types_distinct.
Qed.

(** X22 (process_formulas, the report): every report is consistent.
    [error_count] is the number of string cells with an error text;
    [status] is success exactly when it is zero, which is exactly when
    [error_breakdown] is empty; the breakdown lists the types that
    occur, in the order of [error_types], each with a positive count
    and the first twenty locations at most; the counts add up to
    [error_count]; and [formula_count] is the number of string cells
    of the second load that start with an equals sign. *)
Theorem report_is_consistent values formulas s :
  inspect_workbooks values formulas = Report s ->
  exists wb wf,
    values = inr wb /\ formulas = inr wf
    /\ error_count s = length (filter is_filed (located_cells wb))
    /\ (status s = success <-> error_count s = 0%nat)
    /\ (breakdown_by_type s = [] <-> error_count s = 0%nat)
    /\ breakdown_by_type s
       = map (fun err =>
                (err, breakdown_of (locations_of err (located_cells wb))))
             (reported_types (located_cells wb))
    /\ error_count s
       = list_sum (map (fun kv => bd_count (snd kv)) (breakdown_by_type s))
    /\ Forall (fun kv =>
                 (0 < bd_count (snd kv))%nat
                 /\ length (bd_cells (snd kv))
                    = Nat.min (bd_count (snd kv)) 20)
              (breakdown_by_type s)
    /\ formula_count s
       = length (filter is_formula (map snd (located_cells wf))).
Proof.
  unfold inspect_workbooks.
  destruct values as [msg | wb]; [discriminate |].
  pose proof (scan_workbook_state wb) as (_ & _ & Hcount & Htotal).
  pose proof (error_breakdown_of_scan wb) as Hshape.
  pose proof (@error_breakdown_closed (fst (scan_workbook wb))) as Hclosed.
  rewrite (proj1 (scan_workbook_state wb)) in Hclosed.
  specialize (Hclosed error_types_distinct).
  destruct (scan_workbook wb) as [m n]. cbn [fst snd] in *.
  destruct formulas as [msg | wf]; [discriminate |].
  intros [= <-]. cbn [status error_count breakdown_by_type formula_count].
  exists wb, wf. split; [reflexivity |]. split; [reflexivity |].
  split; [exact Hcount |]. split; [| split; [| split; [| split; [| split]]]].
  - destruct n; cbn [Nat.eqb]; split; (reflexivity || discriminate).
  - rewrite Hclosed. rewrite <- Htotal, <- reported_none.
    destruct (filter _ m); cbn [map]; split;
      (reflexivity || discriminate).
  - exact Hshape.
  - rewrite Hclosed, map_map. cbn [snd breakdown_of bd_count].
    rewrite reported_total. symmetry. exact Htotal.
  - rewrite Hclosed. apply Forall_forall. intros kv Hin.
    apply in_map_iff in Hin. destruct Hin as ([k cells] & <- & Hin).
    apply filter_In in Hin. destruct Hin as [_ Hne].
    cbn [snd fst breakdown_of bd_count bd_cells] in *.
    rewrite length_firstn, Nat.min_comm.
    destruct cells; [discriminate Hne |]. cbn [length]. split; [lia | reflexivity].
  - apply count_formulas_closed.
Qed.

Lemma report_is_consistent_witness :
  exists wb wf,
    @inr string workbook sample_workbook = inr wb
    /\ @inr string workbook sample_formulas = inr wf
    /\ 3%nat = length (filter is_filed (located_cells wb))
    /\ (errors_detected = success <-> 3%nat = 0%nat)
    /\ ([("#VALUE!"%string, Breakdown 1 ["Sheet1!A2"%string]);
         ("#REF!"%string, Breakdown 2 ["Sheet1!A1"; "Data!B1"]%string)] = []
        <-> 3%nat = 0%nat)
    /\ [("#VALUE!"%string, Breakdown 1 ["Sheet1!A2"%string]);
        ("#REF!"%string, Breakdown 2 ["Sheet1!A1"; "Data!B1"]%string)]
       = map (fun err =>
                (err, breakdown_of (locations_of err (located_cells wb))))
             (reported_types (located_cells wb))
    /\ 3%nat
       = list_sum (map (fun kv => bd_count (snd kv))
                       [("#VALUE!"%string, Breakdown 1 ["Sheet1!A2"%string]);
                        ("#REF!"%string,
                         Breakdown 2 ["Sheet1!A1"; "Data!B1"]%string)])
    /\ Forall (fun kv =>
                 (0 < bd_count (snd kv))%nat
                 /\ length (bd_cells (snd kv))
                    = Nat.min (bd_count (snd kv)) 20)
              [("#VALUE!"%string, Breakdown 1 ["Sheet1!A2"%string]);
               ("#REF!"%string, Breakdown 2 ["Sheet1!A1"; "Data!B1"]%string)]
    /\ 3%nat = length (filter is_formula (map snd (located_cells wf))).
Proof.
  apply (@report_is_consistent (inr sample_workbook) (inr sample_formulas)
           (Summary errors_detected 3
              [("#VALUE!"%string, Breakdown 1 ["Sheet1!A2"%string]);
               ("#REF!"%string, Breakdown 2 ["Sheet1!A1"; "Data!B1"]%string)]
              3)).
  reflexivity.
Defined.

(** ** FormulaProcessor: the run of LibreOffice *)

Lemma marker_needs_text :
  substring_in "RecalculateAndSave" EmptyString = false.
Proof. reflexivity. Qed.

(** X23 (process_formulas, lines 94-99): for a failed run the error
    text of LibreOffice is passed on when it mentions
    RecalculateAndSave and does not mention Module1; in every other
    case, also when LibreOffice wrote nothing, the answer is that the
    macro is not configured properly.  The text
    [Unknown error during formula evaluation] is never returned. *)
Theorem failure_output_cases stderr_text :
  failure_output stderr_text
  <> ErrorOnly "Unknown error during formula evaluation"
  /\ (substring_in "RecalculateAndSave" stderr_text = true ->
      substring_in "Module1" stderr_text = false ->
      failure_output stderr_text = ErrorOnly stderr_text)
  /\ (substring_in "RecalculateAndSave" stderr_text = false
      \/ substring_in "Module1" stderr_text = true ->
      failure_output stderr_text
      = ErrorOnly "LibreOffice macro not configured properly").
Proof.
  unfold failure_output.
  destruct stderr_text as [| c rest] eqn:Es; cbn [nonempty].
  - vm_compute. split; [discriminate |].
    split; [discriminate | reflexivity].
  - rewrite <- Es.
    destruct (substring_in "Module1" stderr_text) eqn:Em; cbn [orb].
    + split; [discriminate |].
      split; [intros _ H; discriminate H | reflexivity].
    + destruct (substring_in "RecalculateAndSave" stderr_text) eqn:Er;
        cbn [negb].
      * split; [| split; [reflexivity |
                          intros [H | H]; discriminate H]].
        intros [= H]. rewrite H in Er. vm_compute in Er. discriminate Er.
      * split; [discriminate |].
        split; [intros H; discriminate H | reflexivity].
Qed.

Lemma failure_output_cases_witness :
  failure_output "Error: RecalculateAndSave could not be run"
  = ErrorOnly "Error: RecalculateAndSave could not be run".
Proof.
  apply (proj1 (proj2 (failure_output_cases
                         "Error: RecalculateAndSave could not be run")));
    reflexivity.
Defined.

Lemma build_command_unwrapped system_name gtimeout_probe wait_time full_path :
  wraps_timeout system_name gtimeout_probe = false ->
  build_command system_name gtimeout_probe wait_time full_path
  = build_command system_name gtimeout_probe 0 full_path.
Proof.
  unfold wraps_timeout, build_command.
  destruct (String.eqb system_name "Windows"); cbn [negb]; [reflexivity |].
  destruct (String.eqb system_name "Linux"); cbn [orb]; [discriminate |].
  destruct (String.eqb system_name "Darwin"); cbn [andb]; [| reflexivity].
  destruct gtimeout_probe; (discriminate || reflexivity).
Qed.

(** X24 (process_formulas, lines 78-90): [wait_time] reaches the
    command only through the timeout wrapper, which is used on Linux
    and, when [gtimeout --version] runs, on Darwin.  Everywhere else
    (Windows, any other system, Darwin without gtimeout) the result of
    [process_formulas] does not depend on [wait_time]; on Linux the
    command starts with [timeout] and the decimal text of
    [wait_time]. *)
Theorem wait_time_needs_the_wrapper env filepath :
  (wraps_timeout (system env) (gtimeout env) = false ->
   forall w1 w2,
     process_formulas env filepath w1 = process_formulas env filepath w2)
  /\ (system env = "Linux"%string ->
      forall w,
        build_command (system env) (gtimeout env) w (absolute_path env)
        = Done ("timeout"%string :: str_of_int w
                :: soffice_command (absolute_path env)))
  /\ (system env = "Darwin"%string ->
      gtimeout env = ProbeRuns ->
      forall w,
        build_command (system env) (gtimeout env) w (absolute_path env)
        = Done ("gtimeout"%string :: str_of_int w
                :: soffice_command (absolute_path env))).
Proof.
  split; [| split].
  - intros Hw w1 w2. unfold process_formulas.
    rewrite (@build_command_unwrapped _ _ w1 (absolute_path env) Hw).
    rewrite (@build_command_unwrapped _ _ w2 (absolute_path env) Hw).
    reflexivity.
  - intros -> w. reflexivity.
  - intros -> -> w. reflexivity.
Qed.

Lemma wait_time_needs_the_wrapper_witness :
  process_formulas (sample_env "Windows" 0 EmptyString) "book.xlsx" 5
  = process_formulas (sample_env "Windows" 0 EmptyString) "book.xlsx" 600
  /\ build_command "Linux" ProbeNotFound 30 "/work/book.xlsx"
     = Done ("timeout"%string :: "30"%string
             :: soffice_command "/work/book.xlsx").
Proof.
  split.
  - apply (proj1 (wait_time_needs_the_wrapper
                    (sample_env "Windows" 0 EmptyString) "book.xlsx")).
    reflexivity.
  - apply (proj1 (proj2 (wait_time_needs_the_wrapper
                           (sample_env "Linux" 0 EmptyString) "book.xlsx"))).
    reflexivity.
Defined.

Lemma report_status values formulas s :
  inspect_workbooks values formulas = Report s ->
  (status s = success <-> error_count s = 0%nat).
Proof.
  unfold inspect_workbooks. destruct values as [msg | wb]; [discriminate |].
  destruct (scan_workbook wb) as [m n].
  destruct formulas as [msg | wf]; [discriminate |].
  intros [= <-]. cbn [status error_count].
  destruct n; cbn [Nat.eqb]; split; (reflexivity || discriminate).
Qed.

Lemma failure_output_is_error stderr_text :
  exists message, failure_output stderr_text = ErrorOnly message.
Proof.
  unfold failure_output. destruct (_ || _); eexists; reflexivity.
Qed.

(** X25 (process_formulas): a report is returned only when the file
    exists, the macro is configured and LibreOffice ended with return
    code 0 or 124; the report is then the outcome of inspecting the
    two loads, whatever LibreOffice wrote to its error stream.  In
    particular a recalculation cut off by the timeout (return code
    124) is inspected and reported exactly like a completed one. *)
Theorem timeout_exit_is_inspected env filepath wait_time :
  (forall s,
      process_formulas env filepath wait_time = Done (Report s) ->
      file_exists env = true
      /\ (exists fs', configure_calc_macro (host env) (files env)
                      = Done (true, fs'))
      /\ (exists command r,
             build_command (system env) (gtimeout env) wait_time
               (absolute_path env) = Done command
             /\ run_command env command = Some r
             /\ (returncode r = 0 \/ returncode r = 124)%Z)
      /\ inspect_workbooks (load_values env) (load_formulas env) = Report s
      /\ (status s = success <-> error_count s = 0%nat))
  /\ (forall fs' command r,
         file_exists env = true ->
         configure_calc_macro (host env) (files env) = Done (true, fs') ->
         build_command (system env) (gtimeout env) wait_time
           (absolute_path env) = Done command ->
         run_command env command = Some r ->
         returncode r = 124%Z ->
         process_formulas env filepath wait_time
         = Done (inspect_workbooks (load_values env) (load_formulas env))).
Proof.
  unfold process_formulas. split.
  - intros s. destruct (file_exists env); cbn [negb]; [| discriminate].
    destruct (configure_calc_macro (host env) (files env))
      as [[[|] fs'] |]; try discriminate.
    destruct (build_command (system env) (gtimeout env) wait_time
                (absolute_path env)) as [command |]; [| discriminate].
    destruct (run_command env command) as [r |] eqn:Er; [| discriminate].
    destruct (Z.eqb_spec (returncode r) 0) as [H0 | H0]; cbn [negb andb].
    + intros [= H]. split; [reflexivity |]. split; [eexists; reflexivity |].
      split; [exists command, r; repeat split; [exact Er | left; exact H0] |].
      split; [exact H | exact (report_status _ _ H)].
    + destruct (Z.eqb_spec (returncode r) 124) as [H1 | H1]; cbn [negb].
      * intros [= H]. split; [reflexivity |].
        split; [eexists; reflexivity |].
        split; [exists command, r; repeat split;
                [exact Er | right; exact H1] |].
        split; [exact H | exact (report_status _ _ H)].
      * intros H. exfalso. injection H as H.
        destruct (failure_output_is_error (stderr r)) as (message & Hm).
        rewrite Hm in H. discriminate H.
  - intros fs' command r -> -> -> -> ->. reflexivity.
Qed.

Lemma timeout_exit_is_inspected_witness :
  process_formulas (sample_env "Linux" 124 "Terminated") "book.xlsx" 30
  = Done (inspect_workbooks (inr sample_workbook) (inr sample_formulas)).
Proof.
  apply (proj2 (timeout_exit_is_inspected
                  (sample_env "Linux" 124 "Terminated") "book.xlsx" 30)
           ready_files
           ("timeout"%string :: "30"%string
            :: soffice_command "/work/book.xlsx")
           (ProcResult 124 "Terminated"));
    reflexivity.
Defined.

(** ** FormulaProcessor: installing the macro *)

Lemma macro_definition_has_marker :
  substring_in "RecalculateAndSave" macro_definition = true.
Proof. vm_compute. reflexivity. Qed.

(** X26 (configure_calc_macro): when the function returns True the
    module file exists afterwards and contains RecalculateAndSave; it
    is either the file that was there, untouched, or the macro
    definition, which replaces whatever the module held before.  From
    then on every call returns True and changes nothing, on every
    machine: LibreOffice is not started and nothing is written.  The
    function returns False only when the module file is not
    writable. *)
Theorem configure_calc_macro_settles host0 fs fs' :
  (configure_calc_macro host0 fs = Done (true, fs') ->
   (exists text,
       module_text fs' = Some text
       /\ substring_in "RecalculateAndSave" text = true)
   /\ (fs' = fs \/ module_text fs' = Some macro_definition)
   /\ forall host1, configure_calc_macro host1 fs' = Done (true, fs'))
  /\ (configure_calc_macro host0 fs = Done (false, fs') ->
      module_writable host0 = false
      /\ forall text, module_text fs = Some text ->
                      substring_in "RecalculateAndSave" text = false).
Proof.
  unfold configure_calc_macro.
  destruct (match module_text fs with
            | Some text => substring_in "RecalculateAndSave" text
            | None => false
            end) eqn:Em.
  - split; [| discriminate].
    intros [= <-]. destruct (module_text fs) as [text |] eqn:Et;
      [| discriminate Em].
    split; [exists text; split; [reflexivity | exact Em] |].
    split; [left; reflexivity |].
    intros host1. rewrite Em. reflexivity.
  - assert (Hold : forall text, module_text fs = Some text ->
                                substring_in "RecalculateAndSave" text = false).
    { intros text Ht. rewrite Ht in Em. exact Em. }
    destruct (if negb (basic_dir_exists fs)
              then match soffice_init host0 fs with
                   | Some fs'0 =>
                       if makedirs_ok host0
                       then Done (OfficeFiles (module_text fs'0) true)
                       else Uncaught
                   | None => Uncaught
                   end
              else Done fs) as [prepared |]; [| split; discriminate].
    destruct (module_writable host0) eqn:Ew.
    + split; [| discriminate].
      intros [= <-]. cbn [module_text].
      split; [exists macro_definition;
              split; [reflexivity | apply macro_definition_has_marker] |].
      split; [right; reflexivity |].
      intros host1. rewrite macro_definition_has_marker. reflexivity.
    + split; [discriminate |].
      intros _. split; [reflexivity | exact Hold].
Qed.

Lemma configure_calc_macro_settles_witness :
  (exists text,
      module_text (OfficeFiles (Some macro_definition) true) = Some text
      /\ substring_in "RecalculateAndSave" text = true)
  /\ (OfficeFiles (Some macro_definition) true
      = OfficeFiles (Some "Sub Main End Sub"%string) true
      \/ module_text (OfficeFiles (Some macro_definition) true)
         = Some macro_definition)
  /\ forall host1,
       configure_calc_macro host1 (OfficeFiles (Some macro_definition) true)
       = Done (true, OfficeFiles (Some macro_definition) true).
Proof.
  apply (proj1 (configure_calc_macro_settles quiet_host
                  (OfficeFiles (Some "Sub Main End Sub"%string) true)
                  (OfficeFiles (Some macro_definition) true))).
  reflexivity.
Defined.

(** ** OverlayRenderer: the number of overlays *)

(** X27 (apply_text_overlays, apply_text_overlays_with_reportlab):
    under either strategy a run that writes the document ends its
    output with the save message and the overlay count, and the count
    printed is the number of layout entries whose content is present
    and not empty, which is also the number of overlays (free-text
    annotations and drawn strings) that the written document holds. *)
Theorem overlay_count_is_text_entries env reader cfg out w :
  apply_text_overlays env reader cfg = (out, Ok w) ->
  exists before last,
    out = before ++ [LSaved; last]
    /\ count_line last = Some (length (text_entries cfg))
    /\ count_line last = Some (annotation_total w + draw_total w)%nat.
Proof.
  unfold apply_text_overlays.
  destruct (scan_has_cjk (field_entries cfg)).
  - unfold embedded_glyph_strategy.
    destruct (register_cjk_font env) as [warnings [name |]];
      [| intros [=]].
    destruct (nonempty name); [| intros [=]].
    pose proof (@reportlab_draws_all env reader cfg name) as Hdraw.
    pose proof (@reportlab_no_annotation env reader cfg name) as Hnone.
    unfold apply_text_overlays_with_reportlab in *. cbv zeta in *.
    destruct (overlay_pages _ _ _ _ _ _ _) as [[w' total] |] eqn:E;
      [| intros [=]].
    intros [= <- <-]. cbn [snd] in Hdraw, Hnone.
    specialize (Hdraw w' eq_refl).
    pose proof (no_annotation_total (Hnone w' eq_refl)) as Hzero.
    destruct (overlay_pages_total _ _ _ _ _ _ _ E) as [_ Hc].
    rewrite group_entries_size in Hc. unfold group_size in Hc.
    cbn [map list_sum fold_right Nat.add] in Hc.
    exists (warnings ++ [LUsingFont name]), (LCountEmbedded total).
    split; [rewrite <- app_assoc; reflexivity |].
    cbn [count_line]. unfold text_entries in *.
    split; f_equal; lia.
  - pose proof (@annotation_strategy_all reader cfg) as Hall.
    pose proof (proj2 (annotation_strategy_pure reader cfg)) as Hpure.
    unfold annotation_strategy in *.
    destruct (annotate_entries _ _ _ _ _) as [[w' count] |] eqn:E;
      [| intros [=]].
    intros [= <- <-]. cbn [snd] in Hall, Hpure.
    specialize (Hall w' eq_refl).
    pose proof (no_merge_total (Hpure w' eq_refl)) as Hzero.
    destruct (annotate_entries_total _ _ _ _ _ E) as [_ Hc].
    exists [], (LCountAnnotations count).
    split; [reflexivity |].
    cbn [count_line]. unfold text_entries in *.
    split; f_equal; lia.
Qed.

Lemma overlay_count_is_text_entries_witness :
  exists before last,
    [LSaved; LCountAnnotations 1] = before ++ [LSaved; last]
    /\ count_line last = Some (length (text_entries ascii_layout))
    /\ count_line last
       = Some (annotation_total
                 (match snd (apply_text_overlays noto_only one_page
                               ascii_layout) with
                  | Ok w => w
                  | Raise _ => []
                  end)
               + draw_total
                   (match snd (apply_text_overlays noto_only one_page
                                 ascii_layout) with
                    | Ok w => w
                    | Raise _ => []
                    end))%nat.
Proof.
  apply (@overlay_count_is_text_entries noto_only one_page ascii_layout).
  vm_compute. reflexivity.
Defined.
